(** * Finance_Advisor: the calculator, the text helpers, the transcript store
      and the three-stage agent pipeline, embedded and verified.

    Source files: [calc.py], [utils.py], [agents.py], [llm.py].

    Conventions of the embedding.
    - A Python [str] is a list of Unicode code points ([str := list N]); the
      literals of the source are written as UTF-8 string literals and decoded
      by [u].
    - A Python number is an exact rational ([Q]); [round], [/] and [**] are the
      exact operations, and a division by zero raises [ZeroDivisionError].
      IEEE rounding error, overflow, negative zero, infinities and NaN are
      outside this model.
    - A Python call that may raise returns a [result].
    - The language model, the clock and the file system are state that is
      passed explicitly: every call of the generator consumes one answer of
      an oracle, every reading of the clock advances a counter, and a
      directory tree is a finite map from paths to nodes.
    - [json.dump] and [json.load] are embedded from the standard encoder and
      scanner (indent 2, [ensure_ascii=False]); files are written and read as
      UTF-8 text with POSIX newlines.  The rendering of a float by [repr] and
      its reading back by [float] are section variables; that a float is
      read back from its rendering is a condition on the values stored
      ([float_ok]).  The recursion limit of the interpreter and
      the digit limit of [int] are outside this model. *)

From Stdlib Require Import ZArith QArith Qround Qabs Qpower List String Ascii Lia Lra Psatz Bool Sorting Permutation.
From stdpp Require Import base gmap.
Import ListNotations.

(** ** Exceptions and results *)

Inductive exn : Type :=
| ZeroDivisionError
| FileNotFoundError
| UnicodeEncodeError
| UnicodeDecodeError
| JSONDecodeError
| NotADirectoryError
| IsADirectoryError
| FileExistsError.

Inductive result (A : Type) : Type :=
| Ok (a : A)
| Raise (e : exn).
Arguments Ok {A} a.
Arguments Raise {A} e.

Definition bind {A B : Type} (r : result A) (k : A -> result B) : result B :=
  match r with
  | Ok a => k a
  | Raise e => Raise e
  end.

Notation "'let*' x ':=' r 'in' k" := (bind r (fun x => k))
  (at level 10, x pattern, r at level 100, k at level 200).

(** ** Python strings *)

Module PyStr.

Definition char : Type := N.
Definition str : Type := list char.

(** UTF-8 decoding of a well-formed byte sequence (the source literals). *)
Fixpoint utf8_decode_bytes (bs : list N) : str :=
  match bs with
  | [] => []
  | b :: rest =>
    if (b <? 128)%N then b :: utf8_decode_bytes rest
    else if (b <? 224)%N then
      match rest with
      | c1 :: rest1 => ((b - 192) * 64 + (c1 - 128))%N :: utf8_decode_bytes rest1
      | _ => []
      end
    else if (b <? 240)%N then
      match rest with
      | c1 :: c2 :: rest2 =>
        ((b - 224) * 4096 + (c1 - 128) * 64 + (c2 - 128))%N :: utf8_decode_bytes rest2
      | _ => []
      end
    else
      match rest with
      | c1 :: c2 :: c3 :: rest3 =>
        ((b - 240) * 262144 + (c1 - 128) * 4096 + (c2 - 128) * 64 + (c3 - 128))%N
          :: utf8_decode_bytes rest3
      | _ => []
      end
  end.

Definition u (s : string) : str :=
  utf8_decode_bytes (List.map N_of_ascii (list_ascii_of_string s)).

Definition str_eqb (a b : str) : bool := bool_decide (a = b).

(** No string occurs twice in the list. *)
Fixpoint distinct (l : list str) : bool :=
  match l with
  | [] => true
  | x :: rest => negb (existsb (str_eqb x) rest) && distinct rest
  end.

(** [s[1:]], [s[-k:]] and [s[:-k]] for [k > 0]. *)
Definition drop_first (s : str) : str := List.tl s.
Definition last_k (k : nat) (s : str) : str := List.skipn (List.length s - k) s.
Definition but_last_k (k : nat) (s : str) : str := List.firstn (List.length s - k) s.

(** [s.split(sep)] for a one-character separator. *)
Fixpoint split_on (sep : char) (s : str) : list str :=
  match s with
  | [] => [[]]
  | c :: rest =>
    if (c =? sep)%N then [] :: split_on sep rest
    else match split_on sep rest with
         | w :: ws => (c :: w) :: ws
         | [] => [[c]]
         end
  end.

(** [sep.join(parts)] *)
Fixpoint join (sep : str) (parts : list str) : str :=
  match parts with
  | [] => []
  | [p] => p
  | p :: ps => p ++ sep ++ join sep ps
  end.

Definition is_digit (c : char) : bool := ((48 <=? c) && (c <=? 57))%N.

(** Decimal digits of a non-negative integer, as [str(n)] prints them. *)
Fixpoint digits_fuel (fuel : nat) (n : N) (acc : str) : str :=
  match fuel with
  | O => acc
  | S k =>
    let acc' := (48 + n mod 10)%N :: acc in
    if (n <? 10)%N then acc' else digits_fuel k (n / 10)%N acc'
  end.

Definition str_of_N (n : N) : str := digits_fuel (S (N.to_nat (N.log2 n))) n [].

Definition str_of_Z (z : Z) : str :=
  if (z <? 0)%Z then 45%N :: str_of_N (Z.to_N (- z)) else str_of_N (Z.to_N z).

(** [c.isspace()] for a single code point: the white space that [split()] and
    [strip()] recognise. *)
Definition isspace (c : char) : bool :=
  ((9 <=? c) && (c <=? 13) || (28 <=? c) && (c <=? 32) || (c =? 133) || (c =? 160)
   || (c =? 5760) || (8192 <=? c) && (c <=? 8202) || (c =? 8232) || (c =? 8233)
   || (c =? 8239) || (c =? 8287) || (c =? 12288))%N.

(** [s.split()]: the maximal runs of characters that are not white space.
    [cur] holds the characters of the word being read, last one first. *)
Fixpoint split_ws_from (cur : str) (s : str) : list str :=
  match s with
  | [] => match cur with [] => [] | _ => [List.rev cur] end
  | c :: rest =>
    if isspace c then
      match cur with
      | [] => split_ws_from [] rest
      | _ => List.rev cur :: split_ws_from [] rest
      end
    else split_ws_from (c :: cur) rest
  end.

Definition split_ws (s : str) : list str := split_ws_from [] s.

Fixpoint lstrip (s : str) : str :=
  match s with
  | [] => []
  | c :: rest => if isspace c then lstrip rest else s
  end.

(** [s.strip()] *)
Definition strip (s : str) : str := List.rev (lstrip (List.rev (lstrip s))).

(** [s[:k]], for a bound of either sign. *)
Definition slice_to (k : Z) (s : str) : str :=
  if (0 <=? k)%Z then List.firstn (Z.to_nat k) s
  else List.firstn (Z.to_nat (Z.of_nat (List.length s) + k)) s.

(** The split of [s] at the last occurrence of [sep], if there is one. *)
Fixpoint rsplit_once (sep : char) (s : str) : option (str * str) :=
  match s with
  | [] => None
  | c :: rest =>
    match rsplit_once sep rest with
    | Some (a, b) => Some (c :: a, b)
    | None => if (c =? sep)%N then Some ([], rest) else None
    end
  end.

(** [s.rsplit(sep, 1)] *)
Definition rsplit1 (sep : char) (s : str) : list str :=
  match rsplit_once sep s with
  | Some (a, b) => [a; b]
  | None => [s]
  end.

(** [s.endswith(suffix)] *)
Definition endswith (s suffix : str) : bool :=
  (List.length suffix <=? List.length s)%nat && str_eqb (last_k (List.length suffix) s) suffix.

(** [a < b] on strings: lexicographic order on code points. *)
Fixpoint str_ltb (a b : str) : bool :=
  match a, b with
  | _, [] => false
  | [], _ :: _ => true
  | x :: a', y :: b' => (x <? y)%N || (x =? y)%N && str_ltb a' b'
  end.

End PyStr.
Import PyStr.

(** ** Python numbers *)

Module PyNum.

Open Scope Q_scope.

(** Round half to even, the rule of [round] and of the [.2f] format. *)
Definition round_half_even (x : Q) : Z :=
  let f := Qfloor x in
  let d := x - inject_Z f in
  match Qcompare d (1 # 2) with
  | Lt => f
  | Gt => (f + 1)%Z
  | Eq => if Z.even f then f else (f + 1)%Z
  end.

(** [round(x, 2)] *)
Definition round2 (x : Q) : Q := round_half_even (x * 100) # 100.

(** [x / y] *)
Definition py_div (x y : Q) : result Q :=
  if Qeq_bool y 0 then Raise ZeroDivisionError else Ok (x / y).

Definition Qltb (x y : Q) : bool := negb (Qle_bool y x).

Definition two_digits (n : Z) : str :=
  [(48 + Z.to_N (n / 10))%N; (48 + Z.to_N (n mod 10))%N].

(** [f"{x:.2f}"] *)
Definition format_2f (x : Q) : str :=
  let cents := round_half_even (Qabs x * 100) in
  let body := str_of_Z (cents / 100) ++ [46%N] ++ two_digits (cents mod 100) in
  if Qltb x 0 then 45%N :: body else body.

(** [f"{x:.1f}"] *)
Definition format_1f (x : Q) : str :=
  let tenths := round_half_even (Qabs x * 10) in
  let body := str_of_Z (tenths / 10) ++ [46%N] ++ [(48 + Z.to_N (tenths mod 10))%N] in
  if Qltb x 0 then 45%N :: body else body.

End PyNum.
Import PyNum.

(** ** calc.py *)

Module Calc.

Open Scope Q_scope.

Record SipResult : Type := {
  monthly_sip : Q;
  total_investment : Q;
  expected_returns : Q;
  total_value : Q
}.

Record EmiResult : Type := {
  monthly_emi : Q;
  total_payment : Q;
  total_interest : Q
}.

Definition sip_zero : SipResult :=
  {| monthly_sip := 0; total_investment := 0; expected_returns := 0; total_value := 0 |}.

Definition emi_zero : EmiResult :=
  {| monthly_emi := 0; total_payment := 0; total_interest := 0 |}.

Definition calculate_sip (future_value : Q) (years : Z) (annual_rate : Q)
  : result SipResult :=
  if (years <=? 0)%Z || Qle_bool future_value 0 then Ok sip_zero
  else
    let r := annual_rate / 12 / 100 in
    let n := (years * 12)%Z in
    let* monthly_sip :=
      (if Qeq_bool r 0 then py_div future_value (inject_Z n)
       else py_div (future_value * r) ((1 + r) ^ n - 1)) in
    let total_investment := monthly_sip * inject_Z n in
    let expected_returns := future_value - total_investment in
    Ok {| monthly_sip := round2 monthly_sip;
          total_investment := round2 total_investment;
          expected_returns := round2 expected_returns;
          total_value := round2 future_value |}.

Definition calculate_emi (principal : Q) (years : Z) (annual_rate : Q)
  : result EmiResult :=
  if (years <=? 0)%Z || Qle_bool principal 0 then Ok emi_zero
  else
    let r := annual_rate / 12 / 100 in
    let n := (years * 12)%Z in
    let* monthly_emi :=
      (if Qeq_bool r 0 then py_div principal (inject_Z n)
       else py_div (principal * r * (1 + r) ^ n) ((1 + r) ^ n - 1)) in
    let total_payment := monthly_emi * inject_Z n in
    let total_interest := total_payment - principal in
    Ok {| monthly_emi := round2 monthly_emi;
          total_payment := round2 total_payment;
          total_interest := round2 total_interest |}.

Definition rupee : char := 8377%N.

(** The [while len(remaining) > 2] loop of [format_inr]; its state is
    [(remaining, formatted_remaining)]. *)
Fixpoint group_loop (fuel : nat) (remaining formatted_remaining : str) : str * str :=
  match fuel with
  | O => (remaining, formatted_remaining)
  | S k =>
    if (2 <? List.length remaining)%nat
    then group_loop k (but_last_k 2 remaining)
                    (u "," ++ last_k 2 remaining ++ formatted_remaining)
    else (remaining, formatted_remaining)
  end.

Definition indian_format (integer_part : str) : str :=
  if (List.length integer_part <=? 3)%nat then integer_part
  else
    let last_three := last_k 3 integer_part in
    let remaining := but_last_k 3 integer_part in
    let '(remaining, formatted_remaining) :=
      group_loop (List.length remaining) remaining [] in
    let formatted_remaining :=
      match remaining with
      | [] => formatted_remaining
      | _ => remaining ++ formatted_remaining
      end in
    formatted_remaining ++ u "," ++ last_three.

(** [format_inr] on an amount that is not negative. *)
Definition format_inr_nonneg (amount : Q) : str :=
  let amount_str := format_2f amount in
  let parts := split_on 46%N amount_str in
  let integer_part := List.nth 0 parts [] in
  let decimal_part := if (1 <? List.length parts)%nat then List.nth 1 parts [] else u "00" in
  let formatted := indian_format integer_part in
  if str_eqb decimal_part (u "00") then rupee :: formatted
  else rupee :: formatted ++ u "." ++ decimal_part.

(** The recursive call of the source is on [abs(amount)], which takes the
    other branch; [CalcFacts.format_inr_negative] restates the source's equation. *)
Definition format_inr (amount : Q) : str :=
  if Qltb amount 0 then u "-₹" ++ drop_first (format_inr_nonneg (Qabs amount))
  else format_inr_nonneg amount.

(** The grouping rule as the specification words it: the last three digits
    form one group, the digits to their left are grouped in pairs from the
    right, the leftover group has one or two digits. *)
Fixpoint pairs_from_left (s : str) : list str :=
  match s with
  | a :: b :: rest => [a; b] :: pairs_from_left rest
  | [a] => [[a]]
  | [] => []
  end.

Definition pairs_from_right (s : str) : list str :=
  List.rev (List.map (@List.rev char) (pairs_from_left (List.rev s))).

Definition spec_groups (digits : str) : list str :=
  if (List.length digits <=? 3)%nat then [digits]
  else pairs_from_right (but_last_k 3 digits) ++ [last_k 3 digits].

(** *** Properties the claims speak of *)

Definition sip_nonneg (res : SipResult) : Prop :=
  0 <= monthly_sip res /\ 0 <= total_investment res /\
  0 <= expected_returns res /\ 0 <= total_value res.

Definition emi_nonneg (res : EmiResult) : Prop :=
  0 <= monthly_emi res /\ 0 <= total_payment res /\ 0 <= total_interest res.

(** [x] lies within [tol] of [target]. *)
Definition within (x target tol : Q) : Prop := Qabs (x - target) <= tol.

(** The value of the double nearest to 1234567.89, which is what the literal
    [1234567.89] denotes in the source. *)
Definition double_1234567_89 : Q := 5302428712241725 # 4294967296.

(** The amount in hundredths, as the [.2f] format rounds it. *)
Definition cents_of (amount : Q) : Z := round_half_even (amount * 100).

(** The shape of a list of groups: a leading group of one or two digits,
    then groups of exactly two digits. *)
Definition leading_then_pairs (groups : list str) : Prop :=
  match groups with
  | [] => True
  | g :: gs => (1 <= List.length g <= 2)%nat /\ Forall (fun p => List.length p = 2%nat) gs
  end.

End Calc.

(** ** agents.py *)

Module Agents.

Import Calc.
Open Scope Q_scope.

(** The entries of [user_data] that the agents read. *)
Record UserData : Type := {
  monthly_income : Q;
  target_amount : Q;
  years : Z;
  risk_profile : str
}.

(** What [llm.invoke] hands back: an object with a [content] attribute, or
    any other object, of which [str(...)] is taken. *)
Inductive LlmResponse : Type :=
| WithContent (content : str)
| Plain (as_str : str).

(** One invocation of the generator: it returns, or it raises an
    [Exception] whose [str(e)] is [detail] and whose formatted traceback is
    [tb]. *)
Inductive LlmOutcome : Type :=
| Returns (resp : LlmResponse)
| Fails (detail : str) (tb : str).

(** An entry of [conversation_history]: a dict from field names to texts, in
    insertion order. *)
Definition HistoryEntry : Type := list (str * str).

Fixpoint entry_get (key : str) (e : HistoryEntry) : option str :=
  match e with
  | [] => None
  | (k, v) :: rest => if str_eqb k key then Some v else entry_get key rest
  end.

Record Agent : Type := {
  role : str;
  conversation_history : list HistoryEntry;
  system_prompt : str
}.

(** The part of the process state the agents act on: the messages the
    generator has received so far (oldest first), the number of clock
    readings taken, and the lines printed. *)
Record World : Type := {
  llm_calls : list (str * str);
  clock_reads : nat;
  stdout : list str
}.

Definition world0 : World := {| llm_calls := []; clock_reads := 0; stdout := [] |}.

(** The dataclass constructor with [__post_init__]. *)
Definition new_agent (role system_prompt : str) : Agent :=
  {| role := role;
     conversation_history := [];
     system_prompt :=
       match system_prompt with
       | [] => u "आप एक " ++ role ++ u " हैं। केवल हिंदी में उत्तर दें।"
       | _ => system_prompt
       end |}.

Definition AdvisorAgent : Agent :=
  new_agent (u "वित्तीय सलाहकार")
            (u "आप एक अनुभवी वित्तीय सलाहकार हैं जो भारतीय निवेशकों को सलाह देते हैं।").

Definition RiskAnalystAgent : Agent :=
  new_agent (u "जोखिम विश्लेषक")
            (u "आप एक जोखिम विश्लेषण विशेषज्ञ हैं जो वित्तीय सुरक्षा पर ध्यान देते हैं।").

Definition PlannerAgent : Agent :=
  new_agent (u "वित्तीय योजनाकर्त्ता")
            (u "आप एक व्यापक वित्तीय योजनाकार हैं जो व्यावहारिक योजनाएं बनाते हैं।").

Definition system_message (self : Agent) (context : str) : str :=
  u "
नियम: केवल देवनागरी में और सिर्फ़ हिंदी में उत्तर दें। अंग्रेजी का उपयोग न करें।

" ++ system_prompt self ++ u "

" ++ context ++ u "
".

Definition human_message (prompt : str) : str :=
  u "
प्रश्न: " ++ prompt ++ u "

उत्तर (केवल हिंदी में):
".

Definition error_text (detail : str) : str := u "त्रुटि: " ++ detail.

(** The text [respond] takes from a response, and what it returns for an
    outcome of the generator. *)
Definition response_text (llm_response : LlmResponse) : str :=
  match llm_response with
  | WithContent content => content
  | Plain as_str => as_str
  end.

Definition stage_output (o : LlmOutcome) : str :=
  match o with
  | Returns llm_response => strip (response_text llm_response)
  | Fails detail _ => error_text detail
  end.

Section Pipeline.

(** The generator: the outcome of its [k]-th invocation (counted from 0) on
    a system message and a human message. *)
Variable llm : nat -> str -> str -> LlmOutcome.

(** [datetime.now().isoformat()] at the [k]-th reading of the clock. *)
Variable now_isoformat : nat -> str.

(** The [,] format of a number; it depends on whether the number is an [int]
    or a [float], which the rational model does not record. *)
Variable fmt_comma : Q -> str.

Definition respond (self : Agent) (prompt context : str) (w : World)
  : str * Agent * World :=
  let sys := system_message self context in
  let hum := human_message prompt in
  let w1 := {| llm_calls := llm_calls w ++ [(sys, hum)];
               clock_reads := clock_reads w;
               stdout := stdout w |} in
  match llm (List.length (llm_calls w)) sys hum with
  | Returns llm_response =>
    let response :=
      match llm_response with
      | WithContent content => content
      | Plain as_str => as_str
      end in
    let entry := [(u "role", role self); (u "prompt", prompt); (u "context", context);
                  (u "response", response);
                  (u "timestamp", now_isoformat (clock_reads w1))] in
    (strip response,
     {| role := role self;
        conversation_history := conversation_history self ++ [entry];
        system_prompt := system_prompt self |},
     {| llm_calls := llm_calls w1; clock_reads := S (clock_reads w1); stdout := stdout w1 |})
  | Fails detail error_detail =>
    let printed := u "❌ Agent Error Details:
" ++ error_detail in
    let error_msg := error_text detail in
    let entry := [(u "role", role self); (u "error", detail); (u "traceback", error_detail);
                  (u "timestamp", now_isoformat (clock_reads w1))] in
    (error_msg,
     {| role := role self;
        conversation_history := conversation_history self ++ [entry];
        system_prompt := system_prompt self |},
     {| llm_calls := llm_calls w1; clock_reads := S (clock_reads w1);
        stdout := stdout w1 ++ [printed] |})
  end.

Definition advisor_prompt (user_data : UserData) (sip_calc : SipResult) : str :=
  u "
उपयोगकर्ता की जानकारी:
- मासिक आय: ₹" ++ fmt_comma (monthly_income user_data) ++ u "
- लक्ष्य राशि: ₹" ++ fmt_comma (target_amount user_data) ++ u "
- समय सीमा: " ++ str_of_Z (years user_data) ++ u " वर्ष
- जोखिम प्रोफाइल: " ++ risk_profile user_data ++ u "

गणना परिणाम:
- आवश्यक मासिक SIP: ₹" ++ fmt_comma (monthly_sip sip_calc) ++ u "
- कुल निवेश: ₹" ++ fmt_comma (total_investment sip_calc) ++ u "
- अपेक्षित रिटर्न: ₹" ++ fmt_comma (expected_returns sip_calc) ++ u "

कृपया उपयोगकर्ता को प्रारंभिक वित्तीय सलाह दें। निम्नलिखित बातों का उल्लेख करें:
1. क्या यह लक्ष्य उनकी आय के अनुसार संभव है?
2. किस प्रकार के निवेश की सिफारिश करेंगे?
3. बचत और खर्च का अनुपात क्या होना चाहिए?

संक्षिप्त और स्पष्ट उत्तर दें।
".

Definition advisor_context : str := u "भारतीय बाजार और निवेश विकल्पों के बारे में सलाह दें।".

Definition advisor_analyze (self : Agent) (user_data : UserData) (sip_calc : SipResult)
  (w : World) : str * Agent * World :=
  let prompt := advisor_prompt user_data sip_calc in
  let context := advisor_context in
  respond self prompt context w.

Definition risk_prompt (user_data : UserData) (sip_calc : SipResult)
  (sip_to_income_ratio : Q) (advisor_suggestion : str) : str :=
  u "
सलाहकार का सुझाव:
" ++ advisor_suggestion ++ u "

वित्तीय विश्लेषण:
- आय का " ++ format_1f sip_to_income_ratio ++ u "% SIP में जाएगा
- जोखिम स्तर: " ++ risk_profile user_data ++ u "
- निवेश अवधि: " ++ str_of_Z (years user_data) ++ u " वर्ष
- मासिक आय: ₹" ++ fmt_comma (monthly_income user_data) ++ u "
- आवश्यक SIP: ₹" ++ fmt_comma (monthly_sip sip_calc) ++ u "

कृपया जोखिम विश्लेषण करें:
1. क्या यह योजना सुरक्षित है?
2. क्या कोई जोखिम हैं?
3. सुरक्षित विकल्प क्या हैं?
4. आपातकालीन निधि की सिफारिश (आय का 6-12 महीने)

संक्षिप्त और स्पष्ट उत्तर दें।
".

Definition risk_context : str := u "वित्तीय सुरक्षा और जोखिम प्रबंधन पर ध्यान दें।".

Definition risk_analyze (self : Agent) (user_data : UserData) (sip_calc : SipResult)
  (advisor_suggestion : str) (w : World) : result (str * Agent * World) :=
  let* ratio := py_div (monthly_sip sip_calc) (monthly_income user_data) in
  let sip_to_income_ratio := ratio * 100 in
  let prompt := risk_prompt user_data sip_calc sip_to_income_ratio advisor_suggestion in
  let context := risk_context in
  Ok (respond self prompt context w).

Definition planner_prompt (user_data : UserData) (sip_calc : SipResult)
  (advisor_advice risk_analysis : str) : str :=
  u "
सलाहकार की राय:
" ++ advisor_advice ++ u "

जोखिम विश्लेषक की राय:
" ++ risk_analysis ++ u "

उपयोगकर्ता डेटा:
- मासिक आय: ₹" ++ fmt_comma (monthly_income user_data) ++ u "
- लक्ष्य: ₹" ++ fmt_comma (target_amount user_data) ++ u " (" ++ str_of_Z (years user_data) ++ u " वर्ष में)
- आवश्यक SIP: ₹" ++ fmt_comma (monthly_sip sip_calc) ++ u "
- जोखिम स्तर: " ++ risk_profile user_data ++ u "

कृपया एक विस्तृत वित्तीय योजना बनाएं जिसमें शामिल हो:

1. मासिक बजट विभाजन (आय का प्रतिशत):
   - आवश्यक खर्च (किराया, भोजन, बिल): __% (₹__)
   - बचत/निवेश (SIP): __% (₹__)
   - आपातकालीन निधि: __% (₹__)
   - विवेकाधीन खर्च: __% (₹__)

2. निवेश रणनीति:
   - SIP राशि: ₹" ++ fmt_comma (monthly_sip sip_calc) ++ u "
   - निवेश प्रकार (इक्विटी/डेट/हाइब्रिड)
   - अन्य निवेश साधन

3. कार्य योजना:
   - पहले 3 महीने में क्या करें
   - 6 महीने की योजना
   - 12 महीने की योजना

4. जोखिम चेतावनी

संक्षिप्त, स्पष्ट और व्यावहारिक योजना बनाएं।
".

Definition planner_context : str := u "एक संरचित और कार्यान्वयन योग्य योजना बनाएं।".

Definition create_plan (self : Agent) (user_data : UserData) (sip_calc : SipResult)
  (advisor_advice risk_analysis : str) (w : World) : str * Agent * World :=
  let prompt := planner_prompt user_data sip_calc advisor_advice risk_analysis in
  let context := planner_context in
  respond self prompt context w.

(** The flow together with what it leaves behind: the three agents with
    their histories and the world. *)
Record FlowRun : Type := {
  outputs : str * str * str;
  advisor_after : Agent;
  risk_analyst_after : Agent;
  planner_after : Agent;
  world_after : World
}.

Definition run_flow (user_data : UserData) (sip_calc : SipResult) (w : World)
  : result FlowRun :=
  let advisor := AdvisorAgent in
  let risk_analyst := RiskAnalystAgent in
  let planner := PlannerAgent in
  let '(advisor_output, advisor, w) := advisor_analyze advisor user_data sip_calc w in
  let* risk_step := risk_analyze risk_analyst user_data sip_calc advisor_output w in
  let '(risk_output, risk_analyst, w) := risk_step in
  let '(planner_output, planner, w) :=
    create_plan planner user_data sip_calc advisor_output risk_output w in
  Ok {| outputs := (advisor_output, risk_output, planner_output);
        advisor_after := advisor;
        risk_analyst_after := risk_analyst;
        planner_after := planner;
        world_after := w |}.

(** The value the source returns. *)
Definition run_multi_agent_flow (user_data : UserData) (sip_calc : SipResult) (w : World)
  : result (str * str * str) :=
  let* run := run_flow user_data sip_calc w in
  Ok (outputs run).

End Pipeline.

(** Substring, as in [needle in hay]. *)
Definition substring (needle hay : str) : Prop :=
  exists pre post, hay = pre ++ needle ++ post.

(** Inputs for the worked cases: an income of 50000 and of 0, the result of
    the calculator for the goal of the examples, a generator that always
    answers the same text, and one that answers the empty text except at its
    second invocation, which fails. *)
Definition sample_user (income : Q) : UserData :=
  {| monthly_income := income; target_amount := 1000000; years := 5;
     risk_profile := u "मध्यम जोखिम (Medium)" |}.

Definition sample_sip : SipResult :=
  {| monthly_sip := 1224445 # 100; total_investment := 73466686 # 100;
     expected_returns := 26533314 # 100; total_value := 100000000 # 100 |}.

Definition steady_llm (k : nat) (sys hum : str) : LlmOutcome :=
  Returns (WithContent (u "ठीक है")).

Definition llm_failing_second (k : nat) (sys hum : str) : LlmOutcome :=
  match k with
  | 1%nat => Fails (u "timeout") (u "Traceback (most recent call last): ...")
  | _ => Returns (WithContent (u "ठीक है"))
  end.

Definition silent_llm_failing_second (k : nat) (sys hum : str) : LlmOutcome :=
  match k with
  | 1%nat => Fails (u "timeout") (u "Traceback (most recent call last): ...")
  | _ => Returns (WithContent [])
  end.

End Agents.

(** ** The file system and the clock *)

Module OS.

Open Scope Q_scope.

Record Stat : Type := { st_mtime : Q; st_size : Z }.

(** A path names a directory with the names [os.listdir] reports for it, or
    a file with its bytes. *)
Inductive Node : Type :=
| Dir (st : Stat) (names : list str)
| File (mtime : Q) (content : list N).

Definition FileSystem : Type := gmap str Node.

Definition path_exists (fs : FileSystem) (path : str) : bool :=
  match fs !! path with
  | Some _ => true
  | None => false
  end.

Definition listdir (fs : FileSystem) (path : str) : result (list str) :=
  match fs !! path with
  | Some (Dir _ names) => Ok names
  | Some (File _ _) => Raise NotADirectoryError
  | None => Raise FileNotFoundError
  end.

Definition stat (fs : FileSystem) (path : str) : result Stat :=
  match fs !! path with
  | Some (Dir st _) => Ok st
  | Some (File mtime content) =>
    Ok {| st_mtime := mtime; st_size := Z.of_nat (List.length content) |}
  | None => Raise FileNotFoundError
  end.

(** [os.path.join(a, b)] on POSIX. *)
Definition path_join (a b : str) : str :=
  if match b with c :: _ => (c =? 47)%N | [] => false end then b
  else
    match a with
    | [] => b
    | _ => if endswith a (u "/") then a ++ b else a ++ u "/" ++ b
    end.

End OS.

(** ** utils.py: the text helper and the listing *)

Module Utils.

Import OS.
Open Scope Q_scope.

Definition summarize_short (text : str) (max_length : Z) : str :=
  match text with
  | [] => []
  | _ =>
    let text := join (u " ") (split_ws text) in
    if (Z.of_nat (List.length text) <=? max_length)%Z then text
    else List.nth 0 (rsplit1 32%N (slice_to max_length text)) [] ++ u "..."
  end.

Record ConversationInfo : Type := {
  filename : str;
  filepath : str;
  timestamp : str;
  timestamp_readable : str;
  size_bytes : Z;
  size_kb : Q
}.

(** [list.sort(key=key, reverse=True)]: the sort is stable, so its result is
    the one of this insertion sort. *)
Fixpoint insert_desc {A : Type} (key : A -> str) (x : A) (l : list A) : list A :=
  match l with
  | [] => [x]
  | y :: l' => if str_ltb (key x) (key y) then y :: insert_desc key x l' else x :: l
  end.

Fixpoint sort_desc {A : Type} (key : A -> str) (l : list A) : list A :=
  match l with
  | [] => []
  | x :: l' => insert_desc key x (sort_desc key l')
  end.

Section Listing.

(** [datetime.fromtimestamp(t).isoformat()] and
    [datetime.fromtimestamp(t).strftime("%d %B %Y, %I:%M %p")]. *)
Variable isoformat : Q -> str.
Variable strftime_readable : Q -> str.

Definition conversation_info (output_dir fname : str) (st : Stat) : ConversationInfo :=
  {| filename := fname;
     filepath := path_join output_dir fname;
     timestamp := isoformat (st_mtime st);
     timestamp_readable := strftime_readable (st_mtime st);
     size_bytes := st_size st;
     size_kb := round2 (inject_Z (st_size st) / 1024) |}.

(** The [for filename in os.listdir(output_dir)] loop. *)
Fixpoint collect (fs : FileSystem) (output_dir : str) (names : list str)
  (conversations : list ConversationInfo) : result (list ConversationInfo) :=
  match names with
  | [] => Ok conversations
  | fname :: rest =>
    if endswith fname (u ".json") then
      let filepath := path_join output_dir fname in
      let* st := stat fs filepath in
      collect fs output_dir rest (conversations ++ [conversation_info output_dir fname st])
    else collect fs output_dir rest conversations
  end.

Definition list_conversations (fs : FileSystem) (output_dir : str)
  : result (list ConversationInfo) :=
  if negb (path_exists fs output_dir) then Ok []
  else
    let* names := listdir fs output_dir in
    let* conversations := collect fs output_dir names [] in
    Ok (sort_desc timestamp conversations).

Definition is_json_name (name : str) : bool := endswith name (u ".json").

(** [e] is the entry the listing builds for [name] from its [os.stat]. *)
Definition info_of (fs : FileSystem) (output_dir name : str) (e : ConversationInfo) : Prop :=
  exists st, stat fs (path_join output_dir name) = Ok st
             /\ e = conversation_info output_dir name st.

End Listing.

(** The naming convention of the store:
    [finance_plan_<YYYYMMDD_HHMMSS>.json]. *)
Definition matches_naming_convention (name : str) : bool :=
  let pre := u "finance_plan_" in
  let n := List.length pre in
  str_eqb (List.firstn n name) pre
  && (List.length name =? n + 15 + 5)%nat
  && forallb is_digit (List.firstn 8 (List.skipn n name))
  && str_eqb (List.firstn 1 (List.skipn (n + 8) name)) (u "_")
  && forallb is_digit (List.firstn 6 (List.skipn (n + 9) name))
  && str_eqb (List.skipn (n + 15) name) (u ".json").

(** *** Properties the claims speak of *)

(** A word: not empty, and free of white space. *)
Definition is_word (w : str) : Prop :=
  w <> [] /\ Forall (fun c => isspace c = false) w.

Definition space_free (s : str) : Prop := Forall (fun c => (c =? 32)%N = false) s.

(** Every white-space character of [s] is a single space that stands
    between two characters that are not white space. *)
Fixpoint single_spaced_from (prev_is_space : bool) (s : str) : bool :=
  match s with
  | [] => negb prev_is_space
  | c :: rest =>
    if isspace c then (c =? 32)%N && negb prev_is_space && single_spaced_from true rest
    else single_spaced_from false rest
  end.

Definition normalized (s : str) : bool :=
  match s with
  | [] => true
  | _ => single_spaced_from true s
  end.

(** [head] ends at a word boundary of [text]: it consists of the first [m]
    words of [text], for some [m]. *)
Definition ends_at_word_boundary (text head : str) : Prop :=
  exists m, head = join (u " ") (List.firstn m (split_ws text)).

Definition key_geb {A : Type} (key : A -> str) (a b : A) : Prop :=
  str_ltb (key a) (key b) = false.

Definition newest_first (a b : ConversationInfo) : Prop := key_geb timestamp a b.

(** A directory that holds a JSON file which is not a transcript. *)
Definition notes_dir : FileSystem :=
  <[ u "logs" := Dir {| st_mtime := 1764498600; st_size := 4096 |} [u "notes.json"] ]>
  (<[ u "logs/notes.json" := File 1764498600 [123%N; 125%N] ]> ∅).

End Utils.

(** ** The [json] module and text files *)

Module Json.

(** *** UTF-8 text files *)

(** [text.encode("utf-8")]: surrogates cannot be encoded. *)
Definition utf8_encode_char (c : char) : result (list N) :=
  (if c <? 128 then Ok [c]
   else if c <? 2048 then Ok [192 + c / 64; 128 + c mod 64]
   else if c <? 65536 then
     if (55296 <=? c) && (c <=? 57343) then Raise UnicodeEncodeError
     else Ok [224 + c / 4096; 128 + (c / 64) mod 64; 128 + c mod 64]
   else if c <? 1114112 then
     Ok [240 + c / 262144; 128 + (c / 4096) mod 64; 128 + (c / 64) mod 64; 128 + c mod 64]
   else Raise UnicodeEncodeError)%N.

Fixpoint utf8_encode (s : str) : result (list N) :=
  match s with
  | [] => Ok []
  | c :: rest =>
    let* bs := utf8_encode_char c in
    let* bs' := utf8_encode rest in
    Ok (bs ++ bs')
  end.

Definition is_cont (b : N) : bool := ((128 <=? b) && (b <=? 191))%N.

(** [bytes.decode("utf-8")], strict: overlong forms, surrogates and code
    points beyond U+10FFFF are refused. *)
Fixpoint utf8_decode (bs : list N) : result str :=
  match bs with
  | [] => Ok []
  | b :: rest =>
    (if b <? 128 then
       let* s := utf8_decode rest in Ok (b :: s)
     else if (194 <=? b) && (b <=? 223) then
       match rest with
       | c1 :: rest1 =>
         if is_cont c1 then
           let* s := utf8_decode rest1 in Ok (((b - 192) * 64 + (c1 - 128)) :: s)
         else Raise UnicodeDecodeError
       | _ => Raise UnicodeDecodeError
       end
     else if (224 <=? b) && (b <=? 239) then
       match rest with
       | c1 :: c2 :: rest2 =>
         if is_cont c1 && is_cont c2
            && (negb (b =? 224) || (160 <=? c1)) && (negb (b =? 237) || (c1 <=? 159)) then
           let* s := utf8_decode rest2 in
           Ok (((b - 224) * 4096 + (c1 - 128) * 64 + (c2 - 128)) :: s)
         else Raise UnicodeDecodeError
       | _ => Raise UnicodeDecodeError
       end
     else if (240 <=? b) && (b <=? 244) then
       match rest with
       | c1 :: c2 :: c3 :: rest3 =>
         if is_cont c1 && is_cont c2 && is_cont c3
            && (negb (b =? 240) || (144 <=? c1)) && (negb (b =? 244) || (c1 <=? 143)) then
           let* s := utf8_decode rest3 in
           Ok (((b - 240) * 262144 + (c1 - 128) * 4096 + (c2 - 128) * 64 + (c3 - 128)) :: s)
         else Raise UnicodeDecodeError
       | _ => Raise UnicodeDecodeError
       end
     else Raise UnicodeDecodeError)%N
  end.

(** Reading in text mode with universal newlines: [\r\n] and [\r] become
    [\n]. (Writing on POSIX leaves [\n] as it is.) *)
Fixpoint universal_newlines (s : str) : str :=
  match s with
  | [] => []
  | c :: rest =>
    if (c =? 13)%N then
      match rest with
      | 10%N :: rest' => 10%N :: universal_newlines rest'
      | _ => 10%N :: universal_newlines rest
      end
    else c :: universal_newlines rest
  end.

(** *** Values *)

Section Values.

(** The floats, [float.__repr__] and [float(...)] on a number literal of
    JSON, and the float that [float(...)] gives for the names [NaN],
    [Infinity] and [-Infinity]. *)
Variable pyfloat : Type.
Variable float_repr : pyfloat -> str.
Variable float_of_str : str -> pyfloat.

(** The Python values the transcript is built from. A dict is the list of
    its items in insertion order; its keys are strings. *)
Unset Elimination Schemes.

Inductive pyval : Type :=
| PNone
| PBool (b : bool)
| PInt (z : Z)
| PFloat (x : pyfloat)
| PStr (s : str)
| PList (items : list pyval)
| PTuple (items : list pyval)
| PDict (entries : list (str * pyval)).

Set Elimination Schemes.

(** [d[key]], if present. *)
Fixpoint dict_get (key : str) (entries : list (str * pyval)) : option pyval :=
  match entries with
  | [] => None
  | (k, v) :: rest => if str_eqb k key then Some v else dict_get key rest
  end.

Definition get (key : str) (v : pyval) : option pyval :=
  match v with
  | PDict entries => dict_get key entries
  | _ => None
  end.

(** [d[key] = v]: an existing key keeps its place. *)
Fixpoint dict_set (key : str) (v : pyval) (entries : list (str * pyval))
  : list (str * pyval) :=
  match entries with
  | [] => [(key, v)]
  | (k, v') :: rest =>
    if str_eqb k key then (k, v) :: rest else (k, v') :: dict_set key v rest
  end.

(** [dict(pairs)] *)
Definition dict_of_pairs (pairs : list (str * pyval)) : list (str * pyval) :=
  List.fold_left (fun d kv => dict_set (fst kv) (snd kv) d) pairs [].

(** *** Encoding: [json.dump(obj, f, ensure_ascii=False, indent=2)] *)

Definition hex_digit (n : N) : char := (if n <? 10 then 48 + n else 87 + n)%N.

(** [ESCAPE_DCT]: the replacement of a character inside a string. *)
Definition escape_char (c : char) : str :=
  (if c =? 92 then u "\\"
   else if c =? 34 then [92; 34]
   else if c =? 8 then u "\b"
   else if c =? 12 then u "\f"
   else if c =? 10 then u "\n"
   else if c =? 13 then u "\r"
   else if c =? 9 then u "\t"
   else if c <? 32 then u "\u00" ++ [hex_digit (c / 16); hex_digit (c mod 16)]
   else [c])%N.

Definition encode_basestring (s : str) : str :=
  34%N :: List.flat_map escape_char s ++ [34%N].

Definition newline_indent (level : nat) : str :=
  10%N :: List.repeat 32%N (2 * level).

Fixpoint iterencode (o : pyval) (level : nat) : str :=
  match o with
  | PNone => u "null"
  | PBool true => u "true"
  | PBool false => u "false"
  | PInt z => str_of_Z z
  | PFloat x => float_repr x
  | PStr s => encode_basestring s
  | PList items | PTuple items =>
    match items with
    | [] => u "[]"
    | _ =>
      u "[" ++ newline_indent (S level)
        ++ join (u "," ++ newline_indent (S level))
                (List.map (fun v => iterencode v (S level)) items)
        ++ newline_indent level ++ u "]"
    end
  | PDict entries =>
    match entries with
    | [] => u "{}"
    | _ =>
      u "{" ++ newline_indent (S level)
        ++ join (u "," ++ newline_indent (S level))
                (List.map (fun kv => encode_basestring (fst kv) ++ u ": "
                                     ++ iterencode (snd kv) (S level)) entries)
        ++ newline_indent level ++ u "}"
    end
  end.

Definition dumps (o : pyval) : str := iterencode o 0.

(** *** Decoding: [json.load(f)] *)

Definition is_ws (c : char) : bool :=
  ((c =? 32) || (c =? 9) || (c =? 10) || (c =? 13))%N.

Fixpoint skip_ws (s : str) : str :=
  match s with
  | [] => []
  | c :: rest => if is_ws c then skip_ws rest else s
  end.

Definition hex_value (c : char) : option N :=
  (if (48 <=? c) && (c <=? 57) then Some (c - 48)
   else if (97 <=? c) && (c <=? 102) then Some (c - 87)
   else if (65 <=? c) && (c <=? 70) then Some (c - 55)
   else None)%N.

Definition decode_hex4 (a b c d : char) : option N :=
  match hex_value a, hex_value b, hex_value c, hex_value d with
  | Some x, Some y, Some z, Some w => Some (x * 4096 + y * 256 + z * 16 + w)%N
  | _, _, _, _ => None
  end.

(** [BACKSLASH]: the character a one-letter escape stands for. *)
Definition backslash (esc : char) : option char :=
  (if esc =? 34 then Some 34
   else if esc =? 92 then Some 92
   else if esc =? 47 then Some 47
   else if esc =? 98 then Some 8
   else if esc =? 102 then Some 12
   else if esc =? 110 then Some 10
   else if esc =? 114 then Some 13
   else if esc =? 116 then Some 9
   else None)%N.

Definition cons_char (c : char) (r : result (str * str)) : result (str * str) :=
  let* p := r in Ok (c :: fst p, snd p).

(** [scanstring(s, end, strict=True)], from just after the opening quote:
    the string and the input after its closing quote. *)
Fixpoint scanstring (s : str) : result (str * str) :=
  match s with
  | [] => Raise JSONDecodeError
  | c :: rest =>
    if (c =? 34)%N then Ok ([], rest)
    else if (c =? 92)%N then
      match rest with
      | [] => Raise JSONDecodeError
      | esc :: rest1 =>
        if (esc =? 117)%N then
          match rest1 with
          | h1 :: h2 :: h3 :: h4 :: rest2 =>
            match decode_hex4 h1 h2 h3 h4 with
            | None => Raise JSONDecodeError
            | Some uni =>
              if ((55296 <=? uni) && (uni <=? 56319))%N then
                match rest2 with
                | 92%N :: 117%N :: rest3 =>
                  match rest3 with
                  | g1 :: g2 :: g3 :: g4 :: rest4 =>
                    match decode_hex4 g1 g2 g3 g4 with
                    | None => Raise JSONDecodeError
                    | Some uni2 =>
                      if ((56320 <=? uni2) && (uni2 <=? 57343))%N then
                        cons_char (65536 + ((uni - 55296) * 1024 + (uni2 - 56320)))%N
                                  (scanstring rest4)
                      else cons_char uni (scanstring rest2)
                    end
                  | _ => Raise JSONDecodeError
                  end
                | _ => cons_char uni (scanstring rest2)
                end
              else cons_char uni (scanstring rest2)
            end
          | _ => Raise JSONDecodeError
          end
        else
          match backslash esc with
          | Some ch => cons_char ch (scanstring rest1)
          | None => Raise JSONDecodeError
          end
      end
    else if (c <? 32)%N then Raise JSONDecodeError
    else cons_char c (scanstring rest)
  end.

(** The longest prefix of decimal digits. *)
Fixpoint span_digits (s : str) : str * str :=
  match s with
  | c :: rest =>
    if is_digit c then let (ds, r) := span_digits rest in (c :: ds, r) else ([], s)
  | [] => ([], [])
  end.

(** [NUMBER_RE]: an integer part (an optional minus sign, then a single 0
    or a digit from 1 to 9 followed by digits), an optional fraction (a
    point and digits), an optional exponent (e or E, an optional sign,
    digits); the three groups and the input after the match. *)
Definition match_integer (s : str) : option (str * str) :=
  let (sign, s1) := match s with
                    | c :: r => if (c =? 45)%N then ([c], r) else ([], s)
                    | [] => ([], s)
                    end in
  match s1 with
  | c :: r =>
    if (c =? 48)%N then Some (sign ++ [c], r)
    else if is_digit c then let (ds, r') := span_digits r in Some (sign ++ c :: ds, r')
    else None
  | [] => None
  end.

Definition match_frac (s : str) : str * str :=
  match s with
  | c :: r =>
    if (c =? 46)%N then
      match span_digits r with
      | ([], _) => ([], s)
      | (ds, r') => (c :: ds, r')
      end
    else ([], s)
  | [] => ([], s)
  end.

Definition match_exp (s : str) : str * str :=
  match s with
  | e :: r =>
    if ((e =? 101) || (e =? 69))%N then
      let (sign, r1) := match r with
                        | sg :: r1 => if ((sg =? 45) || (sg =? 43))%N then ([sg], r1) else ([], r)
                        | [] => ([], r)
                        end in
      match span_digits r1 with
      | ([], _) => ([], s)
      | (ds, r') => (e :: sign ++ ds, r')
      end
    else ([], s)
  | [] => ([], s)
  end.

Definition match_number (s : str) : option (str * str * str * str) :=
  match match_integer s with
  | None => None
  | Some (integer, r0) =>
    let (frac, r1) := match_frac r0 in
    let (exp, r2) := match_exp r1 in
    Some (integer, frac, exp, r2)
  end.

(** [int(digits)] for an optional minus sign and decimal digits. *)
Definition digits_value (ds : str) : N :=
  List.fold_left (fun acc c => (acc * 10 + (c - 48))%N) ds 0%N.

Definition int_of_str (s : str) : Z :=
  match s with
  | c :: ds => if (c =? 45)%N then (- Z.of_N (digits_value ds))%Z else Z.of_N (digits_value s)
  | [] => 0%Z
  end.

Fixpoint starts_with (prefix s : str) : option str :=
  match prefix, s with
  | [], _ => Some s
  | p :: prefix', c :: s' => if (p =? c)%N then starts_with prefix' s' else None
  | _ :: _, [] => None
  end.

(** [scan_once], [JSONArray] and [JSONObject]. The fuel bounds the depth of
    the calls; [loads] supplies more than any input needs. *)
Fixpoint scan_once (fuel : nat) (s : str) : result (pyval * str) :=
  match fuel with
  | O => Raise JSONDecodeError
  | S fuel' =>
    match s with
    | [] => Raise JSONDecodeError
    | c :: rest =>
      if (c =? 34)%N then
        let* p := scanstring rest in Ok (PStr (fst p), snd p)
      else if (c =? 123)%N then
        match skip_ws rest with
        | 125%N :: r => Ok (PDict [], r)
        | 34%N :: r => object_loop fuel' r []
        | _ => Raise JSONDecodeError
        end
      else if (c =? 91)%N then
        let r := skip_ws rest in
        match r with
        | c' :: r' => if (c' =? 93)%N then Ok (PList [], r') else array_loop fuel' r []
        | [] => array_loop fuel' r []
        end
      else
        match starts_with (u "null") s, starts_with (u "true") s, starts_with (u "false") s with
        | Some r, _, _ => Ok (PNone, r)
        | _, Some r, _ => Ok (PBool true, r)
        | _, _, Some r => Ok (PBool false, r)
        | _, _, _ =>
          match match_number s with
          | Some (integer, frac, exp, r) =>
            match frac, exp with
            | [], [] => Ok (PInt (int_of_str integer), r)
            | _, _ => Ok (PFloat (float_of_str (integer ++ frac ++ exp)), r)
            end
          | None =>
            match starts_with (u "NaN") s, starts_with (u "Infinity") s,
                  starts_with (u "-Infinity") s with
            | Some r, _, _ => Ok (PFloat (float_of_str (u "NaN")), r)
            | _, Some r, _ => Ok (PFloat (float_of_str (u "Infinity")), r)
            | _, _, Some r => Ok (PFloat (float_of_str (u "-Infinity")), r)
            | _, _, _ => Raise JSONDecodeError
            end
          end
        end
    end
  end

(** The loop of [JSONArray], at the start of a value; [values] holds the
    values read so far. *)
with array_loop (fuel : nat) (s : str) (values : list pyval) : result (pyval * str) :=
  match fuel with
  | O => Raise JSONDecodeError
  | S fuel' =>
    let* p := scan_once fuel' s in
    let values := values ++ [fst p] in
    match skip_ws (snd p) with
    | 93%N :: r => Ok (PList values, r)
    | 44%N :: r => array_loop fuel' (skip_ws r) values
    | _ => Raise JSONDecodeError
    end
  end

(** The loop of [JSONObject], just after the opening quote of a key;
    [pairs] holds the items read so far. *)
with object_loop (fuel : nat) (s : str) (pairs : list (str * pyval))
  : result (pyval * str) :=
  match fuel with
  | O => Raise JSONDecodeError
  | S fuel' =>
    let* k := scanstring s in
    match skip_ws (snd k) with
    | 58%N :: r =>
      let* p := scan_once fuel' (skip_ws r) in
      let pairs := pairs ++ [(fst k, fst p)] in
      match skip_ws (snd p) with
      | 125%N :: r' => Ok (PDict (dict_of_pairs pairs), r')
      | 44%N :: r' =>
        match skip_ws r' with
        | 34%N :: r'' => object_loop fuel' r'' pairs
        | _ => Raise JSONDecodeError
        end
      | _ => Raise JSONDecodeError
      end
    | _ => Raise JSONDecodeError
    end
  end.

(** [json.loads(s)] *)
Definition loads (s : str) : result pyval :=
  if match s with c :: _ => (c =? 65279)%N | [] => false end then Raise JSONDecodeError
  else
    let* p := scan_once (S (List.length s)) (skip_ws s) in
    match skip_ws (snd p) with
    | [] => Ok (fst p)
    | _ => Raise JSONDecodeError
    end.

(** What decoding gives back for an encoded value: a tuple comes back as a
    list. *)
Fixpoint jsonify (o : pyval) : pyval :=
  match o with
  | PList items | PTuple items => PList (List.map jsonify items)
  | PDict entries => PDict (List.map (fun kv => (fst kv, jsonify (snd kv))) entries)
  | _ => o
  end.

End Values.

Arguments PNone {pyfloat}.
Arguments PBool {pyfloat} b.
Arguments PInt {pyfloat} z.
Arguments PFloat {pyfloat} x.
Arguments PStr {pyfloat} s.
Arguments PList {pyfloat} items.
Arguments PTuple {pyfloat} items.
Arguments PDict {pyfloat} entries.
Arguments dict_get {pyfloat} key entries.
Arguments get {pyfloat} key v.
Arguments jsonify {pyfloat} o.

(** *** Properties the claims speak of *)

(** A Unicode scalar value: a code point that is not a surrogate. *)
Definition is_scalar (c : char) : bool :=
  ((c <? 55296) || (57343 <? c) && (c <? 1114112))%N.

Definition encodable (s : str) : Prop := Forall (fun c => is_scalar c = true) s.

Definition all_digits (ds : str) : Prop := Forall (fun c => is_digit c = true) ds.

(** The three parts of a number literal of JSON. *)
Definition int_part (i : str) : Prop :=
  exists sign ds, i = sign ++ ds /\ (sign = [] \/ sign = [45%N]) /\
    (ds = [48%N] \/
     exists d ds', ds = d :: ds' /\ is_digit d = true /\ d <> 48%N /\ all_digits ds').

Definition frac_part (f : str) : Prop :=
  f = [] \/ exists ds, f = 46%N :: ds /\ ds <> [] /\ all_digits ds.

Definition exp_part (e : str) : Prop :=
  e = [] \/
  exists ec sign ds, e = ec :: sign ++ ds /\ (ec = 101%N \/ ec = 69%N) /\
    (sign = [] \/ sign = [43%N] \/ sign = [45%N]) /\ ds <> [] /\ all_digits ds.

(** A number literal with a fraction or an exponent: what [float.__repr__]
    prints for a finite float. *)
Definition float_literal (t : str) : Prop :=
  exists i f e, t = i ++ f ++ e /\ int_part i /\ frac_part f /\ exp_part e
                /\ (f <> [] \/ e <> []).

Definition no_digit_head (r : str) : Prop :=
  match r with
  | [] => True
  | c :: _ => is_digit c = false
  end.

(** The input after a number does not continue it. *)
Definition terminated (rest : str) : bool :=
  match rest with
  | [] => true
  | c :: _ => negb (is_digit c || (c =? 46) || (c =? 101) || (c =? 69))%N
  end.

(** The escape of a control character reads back as the character. *)
Definition hex_pair_ok (c : N) : bool :=
  match decode_hex4 48%N 48%N (hex_digit (c / 16)%N) (hex_digit (c mod 16)%N) with
  | Some v => (v =? c)%N
  | None => false
  end.

(** The text after the first of several joined texts. *)
Definition tail_text (sep : str) (texts : list str) : str :=
  List.flat_map (fun t => sep ++ t) texts.

(** The first character of an encoded value. *)
Definition value_head (c : char) : Prop :=
  c = 110%N \/ c = 116%N \/ c = 102%N \/ c = 34%N \/ c = 91%N \/ c = 123%N
  \/ c = 45%N \/ is_digit c = true.

(** The separator between the items of a list or dict at a level. *)
Definition sep_at (level : nat) : str := 44%N :: newline_indent level.

(** A character a UTF-8 text file stores and reads back as it is. *)
Definition plain (c : char) : Prop := is_scalar c = true /\ c <> 13%N.

Section ValueProperties.

Variable pyfloat : Type.
Variable float_repr : pyfloat -> str.
Variable float_of_str : str -> pyfloat.

(** Decoding the encoding of [v], whatever follows it, gives [v] back (a
    tuple as a list) and leaves what follows. *)
Definition scans_back (v : pyval pyfloat) : Prop :=
  forall level rest fuel,
    terminated rest = true ->
    (List.length (iterencode pyfloat float_repr v level) <= fuel)%nat ->
    scan_once pyfloat float_of_str fuel (iterencode pyfloat float_repr v level ++ rest)
    = Ok (jsonify v, rest).

(** An item of a dict as it is written, and without its opening quote. *)
Definition item_text (level : nat) (kv : str * pyval pyfloat) : str :=
  encode_basestring (fst kv) ++ u ": " ++ iterencode pyfloat float_repr (snd kv) level.

Definition item_body (level : nat) (kv : str * pyval pyfloat) : str :=
  List.flat_map escape_char (fst kv)
  ++ 34%N :: 58%N :: 32%N :: iterencode pyfloat float_repr (snd kv) level.

Definition jsonify_item (kv : str * pyval pyfloat) : str * pyval pyfloat :=
  (fst kv, jsonify (snd kv)).

(** A float that prints as a number literal and reads back as itself. *)
Definition float_ok (x : pyfloat) : Prop :=
  float_literal (float_repr x) /\ float_of_str (float_repr x) = x.

(** The values [json.dump] writes and a UTF-8 file takes: encodable strings,
    dicts without repeated keys, floats that are [float_ok]. *)
Fixpoint storable (o : pyval pyfloat) : Prop :=
  match o with
  | PNone | PBool _ | PInt _ => True
  | PFloat x => float_ok x
  | PStr s => encodable s
  | PList items | PTuple items => List.fold_right (fun v acc => storable v /\ acc) True items
  | PDict entries =>
    List.NoDup (List.map fst entries)
    /\ List.fold_right (fun kv acc => (encodable (fst kv) /\ storable (snd kv)) /\ acc)
                       True entries
  end.

(** No tuple occurs in the value. *)
Fixpoint json_native (o : pyval pyfloat) : Prop :=
  match o with
  | PTuple _ => False
  | PList items => List.fold_right (fun v acc => json_native v /\ acc) True items
  | PDict entries => List.fold_right (fun kv acc => json_native (snd kv) /\ acc) True entries
  | _ => True
  end.

End ValueProperties.

Arguments scans_back {pyfloat} float_repr float_of_str v.
Arguments item_text {pyfloat} float_repr level kv.
Arguments item_body {pyfloat} float_repr level kv.
Arguments jsonify_item {pyfloat} kv.
Arguments float_ok {pyfloat} float_repr float_of_str x.
Arguments storable {pyfloat} float_repr float_of_str o.
Arguments json_native {pyfloat} o.

End Json.

(** ** utils.py: the transcript store *)

Module Store.

Import OS Utils Json.
Open Scope Q_scope.

(** The process state the store acts on: the file system and the number of
    readings of the clock taken so far. *)
Record World : Type := {
  fs : FileSystem;
  clock_reads : nat
}.

Section Store.

Variable pyfloat : Type.
Variable float_repr : pyfloat -> str.
Variable float_of_str : str -> pyfloat.

(** The time at the [k]-th reading of the clock, and the three renderings of
    a time the store uses: [isoformat()], [strftime("%d %B %Y, %I:%M %p")]
    and [strftime("%Y%m%d_%H%M%S")]. *)
Variable clock : nat -> Q.
Variable isoformat : Q -> str.
Variable strftime_readable : Q -> str.
Variable strftime_stamp : Q -> str.

(** [os.makedirs(path, exist_ok=True)] *)
Definition makedirs (files : FileSystem) (path : str) (now : Q) : result FileSystem :=
  match path with
  | [] => Raise FileNotFoundError
  | _ =>
    match files !! path with
    | Some (Dir _ _) => Ok files
    | Some (File _ _) => Raise FileExistsError
    | None => Ok (<[ path := Dir {| st_mtime := now; st_size := 4096 |} [] ]> files)
    end
  end.

(** The new file appears in the listing of its directory. *)
Definition add_name (files : FileSystem) (dir name : str) : FileSystem :=
  match files !! dir with
  | Some (Dir st names) =>
    if bool_decide (name ∈ names) then files else <[ dir := Dir st (names ++ [name]) ]> files
  | _ => files
  end.

(** [with open(path, 'w', encoding='utf-8') as f: f.write(text)] *)
Definition write_text (files : FileSystem) (dir name : str) (text : str) (now : Q)
  : result FileSystem :=
  let path := path_join dir name in
  match files !! path with
  | Some (Dir _ _) => Raise IsADirectoryError
  | _ =>
    let* bytes := utf8_encode text in
    Ok (<[ path := File now bytes ]> (add_name files dir name))
  end.

(** [with open(path, 'r', encoding='utf-8') as f: f.read()] *)
Definition read_text (files : FileSystem) (path : str) : result str :=
  match files !! path with
  | None => Raise FileNotFoundError
  | Some (Dir _ _) => Raise IsADirectoryError
  | Some (File _ bytes) =>
    let* text := utf8_decode bytes in
    Ok (universal_newlines text)
  end.

Definition agent_record (role output : str) : pyval pyfloat :=
  PDict [(u "role", PStr role);
         (u "output", PStr output);
         (u "summary", PStr (summarize_short output 100))].

Definition conversation_data (t0 t1 : Q) (user_data sip_calc : pyval pyfloat)
  (advisor_output risk_output planner_output : str) : pyval pyfloat :=
  PDict [(u "timestamp", PStr (isoformat t0));
         (u "date_readable", PStr (strftime_readable t1));
         (u "user_input", user_data);
         (u "calculations", sip_calc);
         (u "agent_outputs",
          PDict [(u "advisor", agent_record (u "‡§∏‡§≤‡§æ‡§π‡§ï‡§æ‡§∞ (Advisor)") advisor_output);
                 (u "risk_analyst", agent_record (u "‡§ú‡•ã‡§ñ‡§ø‡§Æ ‡§µ‡§ø‡§∂‡•ç‡§≤‡•á‡§∑‡§ï (Risk Analyst)") risk_output);
                 (u "planner", agent_record (u "‡§Ø‡•ã‡§ú‡§®‡§æ‡§ï‡§∞‡•ç‡§§‡•ç‡§§‡§æ (Planner)") planner_output)]);
         (u "metadata",
          PDict [(u "version", PStr (u "1.0"));
                 (u "system", PStr (u "Multi-Agent Hindi Finance Advisor"))])].

Definition save_conversation (user_data sip_calc : pyval pyfloat)
  (advisor_output risk_output planner_output : str) (output_dir : str) (w : World)
  : result (str * World) :=
  let k := clock_reads w in
  let data := conversation_data (clock k) (clock (S k)) user_data sip_calc
                advisor_output risk_output planner_output in
  let* files := makedirs (fs w) output_dir (clock (S k)) in
  let timestamp_str := strftime_stamp (clock (S (S k))) in
  let name := u "finance_plan_" ++ timestamp_str ++ u ".json" in
  let filename := path_join output_dir name in
  let* files := write_text files output_dir name (dumps pyfloat float_repr data)
                  (clock (S (S k))) in
  Ok (filename, {| fs := files; clock_reads := S (S (S k)) |}).

Definition load_conversation (filename : str) (w : World) : result (pyval pyfloat) :=
  let* text := read_text (fs w) filename in
  loads pyfloat float_of_str text.

(** [record["agent_outputs"][agent]["output"]], if present. *)
Definition agent_output (agent : str) (record : pyval pyfloat) : option (pyval pyfloat) :=
  match get (u "agent_outputs") record with
  | Some outputs =>
    match get agent outputs with
    | Some entry => get (u "output") entry
    | None => None
    end
  | None => None
  end.

(** The name of the transcript written at time [t]. *)
Definition transcript_name (t : Q) : str :=
  u "finance_plan_" ++ strftime_stamp t ++ u ".json".

End Store.

(** Inputs for the worked cases: floats kept as their [repr], a fixed clock
    and its renderings, an empty file system, a [user_data] that holds a
    tuple, and one that holds none. *)
Definition literal_float : Type := str.
Definition fixed_clock (k : nat) : Q := 1764498600.
Definition fixed_isoformat (t : Q) : str := u "2025-11-30T10:30:00".
Definition fixed_readable (t : Q) : str := u "30 November 2025, 10:30 AM".
Definition fixed_stamp (t : Q) : str := u "20251130_103000".
Definition empty_world : World := {| fs := ∅; clock_reads := 0 |}.

Definition user_with_tuple : pyval literal_float :=
  PDict [(u "monthly_income", PInt 50000);
         (u "goals", PTuple [PStr (u "car"); PStr (u "home")])].

Definition user_with_list : pyval literal_float :=
  PDict [(u "monthly_income", PInt 50000);
         (u "risk_profile", PStr (u "मध्यम जोखिम (Medium)"));
         (u "goals", PList [PStr (u "car"); PStr (u "home")])].

Definition sample_calc : pyval literal_float :=
  PDict [(u "monthly_sip", PFloat (u "12244.45"));
         (u "total_investment", PFloat (u "734666.86"))].

End Store.

(** ** calc.py: the schedules the two payments belong to *)

Module Schedule.

Open Scope Q_scope.

(** The value, after [months] months, of a payment [pmt] made at the end of
    every month into an account that grows by the rate [r] a month. *)
Fixpoint accumulated (pmt r : Q) (months : nat) : Q :=
  match months with
  | O => 0
  | S k => accumulated pmt r k * (1 + r) + pmt
  end.

(** The balance of a loan of [principal], after [months] months, when it
    bears interest at the rate [r] a month and [emi] is paid at the end of
    every month. *)
Fixpoint outstanding (principal r emi : Q) (months : nat) : Q :=
  match months with
  | O => principal
  | S k => outstanding principal r emi k * (1 + r) - emi
  end.

End Schedule.

(** ** agents.py: the history of an agent *)

Module History.

Import Agents.

(** [get_agent_conversation_history(agent)] *)
Definition get_agent_conversation_history (agent : Agent) : list HistoryEntry :=
  conversation_history agent.

(** What [respond] prints for an outcome of the generator. *)
Definition printed_for (o : LlmOutcome) : list str :=
  match o with
  | Returns _ => []
  | Fails _ error_detail => [u "❌ Agent Error Details:
" ++ error_detail]
  end.

(** [entry] is what an agent of role [agent_role] records, at the time
    stamp [now], for an outcome of the generator. *)
Definition records (agent_role now : str) (o : LlmOutcome) (entry : HistoryEntry) : Prop :=
  entry_get (u "role") entry = Some agent_role
  /\ entry_get (u "timestamp") entry = Some now
  /\ match o with
     | Returns llm_response =>
       entry_get (u "response") entry = Some (response_text llm_response)
       /\ entry_get (u "error") entry = None
       /\ entry_get (u "traceback") entry = None
     | Fails detail error_detail =>
       entry_get (u "error") entry = Some detail
       /\ entry_get (u "traceback") entry = Some error_detail
       /\ entry_get (u "response") entry = None
     end.

End History.

(** ** utils.py: the summary of a conversation *)

Module Summary.

Import Json.

(** The exceptions of this function, and its outcomes. *)
Inductive py_error : Type :=
| AttributeError
| ValueError
| TypeError.

Inductive attempt (A : Type) : Type :=
| Returned (a : A)
| Raised (e : py_error).
Arguments Returned {A} a.
Arguments Raised {A} e.

Definition and_then {A B : Type} (r : attempt A) (k : A -> attempt B) : attempt B :=
  match r with
  | Returned a => k a
  | Raised e => Raised e
  end.

Notation "'try*' x ':=' r 'in' k" := (and_then r (fun x => k))
  (at level 10, x pattern, r at level 100, k at level 200).

(** The digits of a non-negative integer in groups of three, as the [,]
    option of the format language separates them. *)
Fixpoint threes_from_left (s : str) : list str :=
  match s with
  | a :: b :: c :: rest =>
    match rest with
    | [] => [[a; b; c]]
    | _ => [a; b; c] :: threes_from_left rest
    end
  | _ => [s]
  end.

Definition group_thousands (digits : str) : str :=
  join (u ",") (List.rev (List.map (@List.rev char) (threes_from_left (List.rev digits)))).

(** [format(n, ",")] for an [int]. *)
Definition int_comma (z : Z) : str :=
  if (z <? 0)%Z then 45%N :: group_thousands (str_of_N (Z.to_N (- z)))
  else group_thousands (str_of_N (Z.to_N z)).

Section Summary.

(** The floats with [repr], [format(x, ",")] for a float, and [str] of a
    list, a tuple or a dict. *)
Variable pyfloat : Type.
Variable float_repr : pyfloat -> str.
Variable float_comma : pyfloat -> str.
Variable container_str : pyval pyfloat -> str.

(** [v.get(key, default)]: only a dict has the method. *)
Definition py_get (v : pyval pyfloat) (key : str) (default : pyval pyfloat)
  : attempt (pyval pyfloat) :=
  match v with
  | PDict entries =>
    Returned (match dict_get key entries with
              | Some x => x
              | None => default
              end)
  | _ => Raised AttributeError
  end.

(** [v.items()] *)
Definition py_items (v : pyval pyfloat) : attempt (list (str * pyval pyfloat)) :=
  match v with
  | PDict entries => Returned entries
  | _ => Raised AttributeError
  end.

(** A replacement field without a format: [str(v)]. *)
Definition py_str (v : pyval pyfloat) : str :=
  match v with
  | PNone => u "None"
  | PBool true => u "True"
  | PBool false => u "False"
  | PInt z => str_of_Z z
  | PFloat x => float_repr x
  | PStr s => s
  | PList _ | PTuple _ | PDict _ => container_str v
  end.

(** A replacement field with the format [,]: numbers take it, a string
    refuses it with [ValueError], everything else with [TypeError]. *)
Definition format_comma (v : pyval pyfloat) : attempt str :=
  match v with
  | PInt z => Returned (int_comma z)
  | PBool true => Returned (u "1")
  | PBool false => Returned (u "0")
  | PFloat x => Returned (float_comma x)
  | PStr _ => Raised ValueError
  | PNone | PList _ | PTuple _ | PDict _ => Raised TypeError
  end.

(** The [for key, value in agents.items()] loop. *)
Fixpoint summary_loop (items : list (str * pyval pyfloat)) (summary : str) : attempt str :=
  match items with
  | [] => Returned summary
  | (key, value) :: rest =>
    try* role := py_get value (u "role") (PStr key) in
    try* summary_text := py_get value (u "summary") (PStr (u "No summary")) in
    summary_loop rest (summary ++ u "
" ++ py_str role ++ u ":
" ++ py_str summary_text ++ u "
")
  end.

Definition format_conversation_summary (conversation_data : pyval pyfloat) : attempt str :=
  try* user_data := py_get conversation_data (u "user_input") (PDict []) in
  try* calc := py_get conversation_data (u "calculations") (PDict []) in
  try* timestamp := py_get conversation_data (u "date_readable") (PStr (u "Unknown date")) in
  let date := py_str timestamp in
  try* v := py_get user_data (u "monthly_income") (PInt 0) in
  try* monthly_income := format_comma v in
  try* v := py_get user_data (u "target_amount") (PInt 0) in
  try* target_amount := format_comma v in
  try* v := py_get user_data (u "years") (PInt 0) in
  let years := py_str v in
  try* v := py_get user_data (u "risk_profile") (PStr (u "Unknown")) in
  let risk_profile := py_str v in
  try* v := py_get calc (u "monthly_sip") (PInt 0) in
  try* monthly_sip := format_comma v in
  try* v := py_get calc (u "total_investment") (PInt 0) in
  try* total_investment := format_comma v in
  try* v := py_get calc (u "expected_returns") (PInt 0) in
  try* expected_returns := format_comma v in
  let summary :=
    u "
üìÖ Date: " ++ date ++ u "

üí∞ Financial Goal:
- Monthly Income: ‚Çπ" ++ monthly_income ++ u "
- Target Amount: ‚Çπ" ++ target_amount ++ u "
- Time Horizon: " ++ years ++ u " years
- Risk Profile: " ++ risk_profile ++ u "

üìä Calculations:
- Required Monthly SIP: ‚Çπ" ++ monthly_sip ++ u "
- Total Investment: ‚Çπ" ++ total_investment ++ u "
- Expected Returns: ‚Çπ" ++ expected_returns ++ u "

ü§ñ Agent Summaries:
" in
  try* agents := py_get conversation_data (u "agent_outputs") (PDict []) in
  try* items := py_items agents in
  summary_loop items summary.

End Summary.

(** *** Properties of the summary *)

Section SummaryProperties.

Variable pyfloat : Type.

(** The values the [,] format takes: ints, floats and booleans. *)
Definition takes_comma (v : pyval pyfloat) : bool :=
  match v with
  | PInt _ | PFloat _ | PBool _ => true
  | _ => false
  end.

Definition is_dict (v : pyval pyfloat) : bool :=
  match v with
  | PDict _ => true
  | _ => false
  end.

(** [d.get(key, default)] on the items of a dict. *)
Definition item_or (entries : list (str * pyval pyfloat)) (key : str)
  (default : pyval pyfloat) : pyval pyfloat :=
  match dict_get key entries with
  | Some x => x
  | None => default
  end.

(** The items of a dict, and none for any other value. *)
Definition items_of (v : pyval pyfloat) : list (str * pyval pyfloat) :=
  match v with
  | PDict entries => entries
  | _ => []
  end.

(** The conversations the summary can be made of: a dict whose
    [user_input], [calculations] and [agent_outputs], where present, are
    dicts; the five amounts, where present, are numbers; and every agent's
    entry is a dict. *)
Definition summarizable (v : pyval pyfloat) : bool :=
  let user_data := item_or (items_of v) (u "user_input") (PDict []) in
  let calc := item_or (items_of v) (u "calculations") (PDict []) in
  let agents := item_or (items_of v) (u "agent_outputs") (PDict []) in
  is_dict v && is_dict user_data && is_dict calc && is_dict agents
  && takes_comma (item_or (items_of user_data) (u "monthly_income") (PInt 0))
  && takes_comma (item_or (items_of user_data) (u "target_amount") (PInt 0))
  && takes_comma (item_or (items_of calc) (u "monthly_sip") (PInt 0))
  && takes_comma (item_or (items_of calc) (u "total_investment") (PInt 0))
  && takes_comma (item_or (items_of calc) (u "expected_returns") (PInt 0))
  && forallb (fun kv => is_dict (snd kv)) (items_of agents).

(** The lines the summary gives to one agent. *)
Definition agent_block (role summary_text : str) : str :=
  u "
" ++ role ++ u ":
" ++ summary_text ++ u "
".

End SummaryProperties.

Arguments takes_comma {pyfloat} v.
Arguments is_dict {pyfloat} v.
Arguments item_or {pyfloat} entries key default.
Arguments items_of {pyfloat} v.
Arguments summarizable {pyfloat} v.

End Summary.

(** ** llm.py *)

Module Llm.

(** The two exceptions [get_llm] raises, with their messages. *)
Inductive llm_error : Type :=
| ValueError (message : str)
| Exception (message : str).

Section Factory.

(** The package [langchain_huggingface] as [get_llm] uses it: importing it,
    making an endpoint and wrapping the endpoint each give a value or raise
    an exception [e], of which [str(e)] is kept. [environ] is the
    environment of the process after [load_dotenv()]. *)
Variable Endpoint : Type.
Variable Chat : Type.
Variable import_langchain_huggingface : str + unit.
Variable HuggingFaceEndpoint : str -> Q -> Z -> str -> str + Endpoint.
Variable ChatHuggingFace : Endpoint -> str + Chat.
Variable environ : gmap str str.

(** [os.getenv(name)] *)
Definition getenv (name : str) : option str := environ !! name.

Definition token_not_found : str :=
  u "HuggingFace API token not found. Set HUGGINGFACEHUB_API_TOKEN in .env file.
Get token: https://huggingface.co/settings/tokens".

Definition get_llm (repo_id : str) (temperature : Q) (max_tokens : Z)
  (api_token : option str) : llm_error + Chat :=
  let api_token :=
    match api_token with
    | None => getenv (u "HUGGINGFACEHUB_API_TOKEN")
    | Some _ => api_token
    end in
  match api_token with
  | None | Some [] => inl (ValueError token_not_found)
  | Some token =>
    let attempt :=
      match import_langchain_huggingface with
      | inl e => inl e
      | inr _ =>
        match HuggingFaceEndpoint repo_id temperature max_tokens token with
        | inl e => inl e
        | inr llm => ChatHuggingFace llm
        end
      end in
    match attempt with
    | inr chat_llm => inr chat_llm
    | inl e => inl (Exception (u "Failed to initialize LangChain LLM " ++ repo_id ++ u ": " ++ e))
    end
  end.

(** The token [get_llm] goes by: the argument when one is given, else the
    variable of the environment. *)
Definition effective_token (api_token : option str) : option str :=
  match api_token with
  | None => getenv (u "HUGGINGFACEHUB_API_TOKEN")
  | Some _ => api_token
  end.

End Factory.

End Llm.

(** ** Inputs for the worked cases *)

Module Examples.

Import OS Agents Json Store.
Open Scope Q_scope.

(** A directory with two transcripts written at the same time and a third
    one written later, in the order [os.listdir] reports them. *)
Definition three_transcripts : FileSystem :=
  <[ u "logs" := Dir {| st_mtime := 1764498700; st_size := 4096 |}
                     [u "b.json"; u "c.json"; u "a.json"] ]>
  (<[ u "logs/a.json" := File 1764498600 [123%N; 125%N] ]>
   (<[ u "logs/b.json" := File 1764498600 [91%N; 93%N] ]>
    (<[ u "logs/c.json" := File 1764498700 [49%N] ]> ∅))).

(** The renderings of the two times of [three_transcripts]. *)
Definition two_isoformats (t : Q) : str :=
  if Qle_bool t 1764498600 then u "2025-11-30T10:30:00" else u "2025-11-30T10:31:40".

(** A directory that reports a transcript which is no longer there. *)
Definition dangling_dir : FileSystem :=
  <[ u "logs" := Dir {| st_mtime := 1764498600; st_size := 4096 |} [u "gone.json"] ]> ∅.

(** A generator whose answers come with white space around them. *)
Definition padded_llm (k : nat) (sys hum : str) : LlmOutcome :=
  Returns (WithContent (u "  ठीक है
")).

(** A conversation with an income that is a string. *)
Definition income_as_text : pyval literal_float :=
  PDict [(u "user_input", PDict [(u "monthly_income", PStr (u "50000"))])].

(** An environment that holds a token, and a package that builds. *)
Definition token_in_environ : gmap str str :=
  <[ u "HUGGINGFACEHUB_API_TOKEN" := u "hf_token" ]> ∅.

Definition endpoint_of (repo_id : str) (temperature : Q) (max_tokens : Z) (token : str)
  : str + (str * str) :=
  inr (repo_id, token).

Definition chat_of (llm : str * str) : str + (str * str) := inr llm.

End Examples.
(** * Verification *)

(** ** Python numbers *)

Module PyNumFacts.

Open Scope Q_scope.

Lemma py_div_ok (x y : Q) : ~ y == 0 -> py_div x y = Ok (x / y).
Proof.
  intros Hy. unfold py_div.
  destruct (Qeq_bool y 0) eqn:E; [|reflexivity].
  apply Qeq_bool_iff in E. contradiction.
Qed.

Lemma py_div_zero (x y : Q) : y == 0 -> py_div x y = Raise ZeroDivisionError.
Proof.
  intros Hy. unfold py_div. apply Qeq_bool_iff in Hy. rewrite Hy. reflexivity.
Qed.

End PyNumFacts.

(** ** calc.py *)

Module CalcFacts.

Import Calc PyNumFacts.
Open Scope Q_scope.

(** *** Arithmetic of the two payment formulas *)

Lemma round_half_even_ge_floor (x : Q) : (Qfloor x <= round_half_even x)%Z.
Proof.
  unfold round_half_even.
  destruct (Qcompare _ _); try destruct (Z.even _); lia.
Qed.

Lemma round2_nonneg (x : Q) : 0 <= x -> 0 <= round2 x.
Proof.
  intros Hx. unfold round2.
  assert (H : (0 <= round_half_even (x * 100))%Z).
  { etransitivity; [|apply round_half_even_ge_floor].
    change 0%Z with (Qfloor 0). apply Qfloor_resp_le. lra. }
  unfold Qle. simpl. lia.
Qed.

Lemma Qpower_succ_nat (a : Q) (m : nat) :
  a ^ Z.of_nat (S m) == a ^ Z.of_nat m * a.
Proof.
  rewrite Nat2Z.inj_succ. unfold Z.succ.
  rewrite Qpower_plus'; [|lia]. now rewrite Qpower_1_r.
Qed.

Lemma bernoulli (r : Q) (m : nat) :
  0 <= r -> inject_Z (Z.of_nat m) * r <= (1 + r) ^ Z.of_nat m - 1.
Proof.
  intros Hr. induction m as [|m IH].
  - change (Z.of_nat 0) with 0%Z. rewrite Qpower_0_r. change (inject_Z 0) with 0. lra.
  - rewrite Qpower_succ_nat.
    rewrite Nat2Z.inj_succ. unfold Z.succ. rewrite inject_Z_plus.
    assert (0 <= inject_Z (Z.of_nat m)) by (change 0 with (inject_Z 0); rewrite <- Zle_Qle; lia).
    change (inject_Z 1) with 1.
    nra.
Qed.

Lemma geometric_bound (r : Q) (m : nat) :
  0 <= r -> (1 + r) ^ Z.of_nat m - 1 <= inject_Z (Z.of_nat m) * r * (1 + r) ^ Z.of_nat m.
Proof.
  intros Hr. induction m as [|m IH].
  - change (Z.of_nat 0) with 0%Z. rewrite Qpower_0_r. change (inject_Z 0) with 0. lra.
  - rewrite Qpower_succ_nat.
    rewrite Nat2Z.inj_succ. unfold Z.succ. rewrite inject_Z_plus.
    assert (0 <= inject_Z (Z.of_nat m)) by (change 0 with (inject_Z 0); rewrite <- Zle_Qle; lia).
    assert (HP : 0 <= (1 + r) ^ Z.of_nat m) by (apply Qpower_0_le; lra).
    change (inject_Z 1) with 1.
    set (P := (1 + r) ^ Z.of_nat m) in *. set (M := inject_Z (Z.of_nat m)) in *.
    assert (0 <= r * P) by (apply Qmult_le_0_compat; assumption).
    assert (0 <= (r * P) * r) by (apply Qmult_le_0_compat; assumption).
    assert (0 <= M * ((r * P) * r)) by (apply Qmult_le_0_compat; assumption).
    lra.
Qed.

Lemma inject_Z_of_pos_nat (n : Z) : (0 < n)%Z -> exists m, n = Z.of_nat m /\ 0 < inject_Z n.
Proof.
  intros Hn. exists (Z.to_nat n). split; [lia|].
  change 0 with (inject_Z 0). rewrite <- Zlt_Qlt. lia.
Qed.

Lemma sip_nonneg_of_nonneg_rate (future_value : Q) (years : Z) (annual_rate : Q) :
  0 <= annual_rate ->
  exists res, calculate_sip future_value years annual_rate = Ok res /\ sip_nonneg res.
Proof.
  intros Hrate. unfold calculate_sip.
  destruct ((years <=? 0)%Z || Qle_bool future_value 0) eqn:Hdeg.
  { eexists; split; [reflexivity|]. repeat split; apply Qle_refl. }
  apply orb_false_elim in Hdeg as [Hy Hfv].
  apply Z.leb_gt in Hy.
  assert (Hfv' : 0 < future_value).
  { apply Qnot_le_lt. intros H. apply Qle_bool_iff in H. congruence. }
  destruct (inject_Z_of_pos_nat (years * 12)) as (m & Hm & Hn); [lia|].
  set (r := annual_rate / 12 / 100).
  assert (Hr : 0 <= r).
  { unfold r. apply Qle_shift_div_l; [reflexivity|]. apply Qle_shift_div_l; [reflexivity|]. lra. }
  rewrite Hm in *. set (n := inject_Z (Z.of_nat m)) in *.
  destruct (Qeq_bool r 0) eqn:Er.
  - rewrite py_div_ok by lra. simpl.
    eexists; split; [reflexivity|].
    repeat split; simpl; apply round2_nonneg; try lra.
    + apply Qle_shift_div_l; lra.
    + field_simplify; lra.
    + field_simplify; lra.
  - assert (Hr' : 0 < r).
    { apply Qeq_bool_neq in Er. lra. }
    pose proof (bernoulli r m Hr) as HB. fold n in HB.
    set (D := (1 + r) ^ Z.of_nat m - 1) in *.
    assert (HD : 0 < D) by nra.
    rewrite py_div_ok by lra. simpl.
    eexists; split; [reflexivity|].
    assert (Hs : 0 <= future_value * r / D).
    { apply Qle_shift_div_l; nra. }
    assert (Ht : future_value * r / D * n <= future_value).
    { setoid_replace (future_value * r / D * n) with (future_value * (n * r) / D) using relation Qeq by (field; lra).
      apply Qle_shift_div_r; [lra|]. nra. }
    repeat split; simpl; apply round2_nonneg; try lra; nra.
Qed.

Lemma emi_nonneg_of_nonneg_rate (principal : Q) (years : Z) (annual_rate : Q) :
  0 <= annual_rate ->
  exists res, calculate_emi principal years annual_rate = Ok res /\ emi_nonneg res.
Proof.
  intros Hrate. unfold calculate_emi.
  destruct ((years <=? 0)%Z || Qle_bool principal 0) eqn:Hdeg.
  { eexists; split; [reflexivity|]. repeat split; apply Qle_refl. }
  apply orb_false_elim in Hdeg as [Hy Hfv].
  apply Z.leb_gt in Hy.
  assert (Hp : 0 < principal).
  { apply Qnot_le_lt. intros H. apply Qle_bool_iff in H. congruence. }
  destruct (inject_Z_of_pos_nat (years * 12)) as (m & Hm & Hn); [lia|].
  set (r := annual_rate / 12 / 100).
  assert (Hr : 0 <= r).
  { unfold r. apply Qle_shift_div_l; [reflexivity|]. apply Qle_shift_div_l; [reflexivity|]. lra. }
  rewrite Hm in *. set (n := inject_Z (Z.of_nat m)) in *.
  destruct (Qeq_bool r 0) eqn:Er.
  - rewrite py_div_ok by lra. simpl.
    eexists; split; [reflexivity|].
    repeat split; simpl; apply round2_nonneg; try lra.
    + apply Qle_shift_div_l; lra.
    + field_simplify; lra.
    + field_simplify; lra.
  - assert (Hr' : 0 < r).
    { apply Qeq_bool_neq in Er. lra. }
    pose proof (bernoulli r m Hr) as HB. fold n in HB.
    pose proof (geometric_bound r m Hr) as HG. fold n in HG.
    set (W := (1 + r) ^ Z.of_nat m) in *.
    assert (HD : 0 < W - 1) by nra.
    rewrite py_div_ok by lra. simpl.
    eexists; split; [reflexivity|].
    assert (Hnum : 0 <= principal * r * W).
    { apply Qmult_le_0_compat; [apply Qmult_le_0_compat|]; lra. }
    assert (Hs : 0 <= principal * r * W / (W - 1)).
    { apply Qle_shift_div_l; lra. }
    assert (Ht : principal <= principal * r * W / (W - 1) * n).
    { setoid_replace (principal * r * W / (W - 1) * n)
        with (principal * (n * r * W) / (W - 1)) using relation Qeq by (field; lra).
      apply Qle_shift_div_l; [lra|]. nra. }
    repeat split; simpl; apply round2_nonneg; try lra; nra.
Qed.

(** *** The rupee formatter *)

Lemma digits_fuel_digits fuel : forall n acc,
  Forall (fun c => is_digit c = true) acc ->
  Forall (fun c => is_digit c = true) (digits_fuel fuel n acc).
Proof.
  induction fuel as [|k IH]; intros n acc Hacc; simpl; [assumption|].
  assert (Hd : is_digit (48 + n mod 10)%N = true).
  { unfold is_digit. assert (n mod 10 < 10)%N by (apply N.mod_upper_bound; discriminate).
    revert H. generalize (n mod 10)%N. intros d Hd.
    apply andb_true_intro; split; apply N.leb_le; lia. }
  destruct (n <? 10)%N; [|apply IH]; constructor; assumption.
Qed.

Lemma str_of_N_digits n : Forall (fun c => is_digit c = true) (str_of_N n).
Proof. apply digits_fuel_digits. constructor. Qed.

Lemma digits_fuel_app fuel : forall n acc, digits_fuel fuel n acc = digits_fuel fuel n [] ++ acc.
Proof.
  induction fuel as [|k IH]; intros n acc; simpl; [reflexivity|].
  destruct (n <? 10)%N; [reflexivity|].
  rewrite IH. rewrite (IH _ [_]). rewrite <- app_assoc. reflexivity.
Qed.

Lemma str_of_Z_nonneg_digits z : (0 <= z)%Z -> Forall (fun c => is_digit c = true) (str_of_Z z).
Proof.
  intros Hz. unfold str_of_Z. destruct (z <? 0)%Z eqn:E; [apply Z.ltb_lt in E; lia|].
  apply str_of_N_digits.
Qed.

Lemma split_on_no_sep sep s :
  Forall (fun c => (c =? sep)%N = false) s -> split_on sep s = [s].
Proof.
  induction 1 as [|c s Hc _ IH]; simpl; [reflexivity|].
  rewrite Hc, IH. reflexivity.
Qed.

Lemma split_on_app sep a b :
  Forall (fun c => (c =? sep)%N = false) a ->
  split_on sep (a ++ sep :: b) = a :: split_on sep b.
Proof.
  induction 1 as [|c s Hc _ IH]; simpl.
  - rewrite N.eqb_refl. reflexivity.
  - rewrite Hc, IH. reflexivity.
Qed.

Lemma is_digit_not_dot c : is_digit c = true -> (c =? 46)%N = false.
Proof.
  unfold is_digit. intros H. apply andb_prop in H as [H1 H2].
  apply N.leb_le in H1. apply N.eqb_neq. lia.
Qed.

Lemma two_digits_digits n : (0 <= n < 100)%Z ->
  Forall (fun c => is_digit c = true) (two_digits n) /\ List.length (two_digits n) = 2%nat.
Proof.
  intros Hn. split; [|reflexivity].
  unfold two_digits, is_digit.
  assert (0 <= n / 10 < 10)%Z by (split; [apply Z.div_pos|apply Z.div_lt_upper_bound]; lia).
  assert (Hm : (0 <= n mod 10 < 10)%Z) by (apply Z.mod_pos_bound; reflexivity).
  revert H Hm. generalize (n / 10)%Z (n mod 10)%Z. intros a b Ha Hb.
  repeat constructor; apply andb_true_intro; split; apply N.leb_le; lia.
Qed.

Lemma round_half_even_nonneg x : 0 <= x -> (0 <= round_half_even x)%Z.
Proof.
  intros Hx.
  assert (Qfloor 0 <= Qfloor x)%Z by (apply Qfloor_resp_le; assumption).
  assert (Qfloor x <= round_half_even x)%Z.
  { unfold round_half_even. destruct (Qcompare _ _); try destruct (Z.even _); lia. }
  change (Qfloor 0) with 0%Z in *. lia.
Qed.

Lemma Qabs_nonneg_eq x : 0 <= x -> Qabs x = x.
Proof.
  destruct x as [n d]. unfold Qle. simpl. intros H.
  rewrite Z.abs_eq by lia. reflexivity.
Qed.

Lemma Qltb_false_nonneg x : 0 <= x -> Qltb x 0 = false.
Proof.
  intros H. unfold Qltb. apply negb_false_iff. apply Qle_bool_iff. assumption.
Qed.

Lemma Qltb_true_neg x : x < 0 -> Qltb x 0 = true.
Proof.
  intros H. unfold Qltb. apply negb_true_iff.
  destruct (Qle_bool 0 x) eqn:E; [|reflexivity].
  apply Qle_bool_iff in E. lra.
Qed.

Lemma format_2f_nonneg amount : 0 <= amount ->
  format_2f amount =
  str_of_Z (cents_of amount / 100) ++ [46%N] ++ two_digits (cents_of amount mod 100).
Proof.
  intros H. unfold format_2f. rewrite Qabs_nonneg_eq, Qltb_false_nonneg by assumption.
  reflexivity.
Qed.

Lemma format_inr_nonneg_eq amount : 0 <= amount ->
  let digits := str_of_Z (cents_of amount / 100) in
  let frac := two_digits (cents_of amount mod 100) in
  format_inr_nonneg amount =
  rupee :: indian_format digits ++ (if str_eqb frac (u "00") then [] else u "." ++ frac).
Proof.
  intros H digits frac. unfold format_inr_nonneg.
  rewrite format_2f_nonneg by assumption. fold digits frac.
  assert (Hc : (0 <= cents_of amount)%Z) by (apply round_half_even_nonneg; lra).
  assert (Hd : Forall (fun c => (c =? 46)%N = false) digits).
  { eapply List.Forall_impl; [|apply str_of_Z_nonneg_digits; apply Z.div_pos; lia].
    apply is_digit_not_dot. }
  assert (Hf : Forall (fun c => (c =? 46)%N = false) frac).
  { eapply List.Forall_impl; [|apply two_digits_digits; apply Z.mod_pos_bound; lia].
    apply is_digit_not_dot. }
  change (digits ++ [46%N] ++ frac) with (digits ++ 46%N :: frac).
  rewrite split_on_app, split_on_no_sep by assumption.
  cbn [List.nth List.length Nat.ltb Nat.leb].
  destruct (str_eqb frac (u "00")); [rewrite app_nil_r|]; reflexivity.
Qed.

Lemma pair_ind {A : Type} (P : list A -> Prop) :
  P [] -> (forall a, P [a]) -> (forall a b s, P s -> P (a :: b :: s)) -> forall s : list A, P s.
Proof.
  intros H0 H1 H2.
  assert (H : forall s, P s /\ forall a, P (a :: s)).
  { induction s as [|b s [IHs IHs']]; split; auto. }
  apply H.
Qed.

Lemma rpair_ind {A : Type} (P : list A -> Prop) :
  P [] -> (forall a, P [a]) -> (forall s a b, P s -> P (s ++ [a; b])) -> forall s : list A, P s.
Proof.
  intros H0 H1 H2 s. rewrite <- (rev_involutive s).
  induction (List.rev s) as [|a|a b t IH] using pair_ind; simpl; auto.
  rewrite <- app_assoc. simpl. apply H2. assumption.
Qed.

Lemma pairs_from_right_snoc2 s a b :
  pairs_from_right (s ++ [a; b]) = pairs_from_right s ++ [[a; b]].
Proof.
  unfold pairs_from_right. rewrite rev_app_distr. simpl. reflexivity.
Qed.

Lemma join_snoc sep X g : X <> [] -> join sep (X ++ [g]) = join sep X ++ sep ++ g.
Proof.
  induction X as [|x X IH]; intros HX; [congruence|].
  destruct X as [|y X]; simpl; [reflexivity|].
  simpl in IH. rewrite IH by discriminate.
  rewrite <- !app_assoc. reflexivity.
Qed.

Lemma pairs_from_right_nil_iff s : pairs_from_right s = [] <-> s = [].
Proof.
  induction s as [|a|s a b _] using rpair_ind.
  - split; reflexivity.
  - split; discriminate.
  - rewrite pairs_from_right_snoc2. split; intros H.
    + destruct (pairs_from_right s); discriminate.
    + destruct s; discriminate.
Qed.

Lemma last_two s : (2 <= List.length s)%nat ->
  exists a b, last_k 2 s = [a; b] /\ s = but_last_k 2 s ++ [a; b].
Proof.
  intros H. unfold last_k, but_last_k.
  pose proof (firstn_skipn (List.length s - 2) s) as E.
  pose proof (length_skipn (List.length s - 2) s) as L.
  destruct (skipn (List.length s - 2) s) as [|a [|b [|c t]]] eqn:K; simpl in L; try lia.
  exists a, b. split; [reflexivity|]. symmetry. exact E.
Qed.

Lemma group_loop_spec fuel : forall remaining acc,
  (List.length remaining <= fuel)%nat ->
  fst (group_loop fuel remaining acc) ++ snd (group_loop fuel remaining acc)
  = join (u ",") (pairs_from_right remaining) ++ acc
  /\ (List.length (fst (group_loop fuel remaining acc)) <= 2)%nat.
Proof.
  induction fuel as [|k IH]; intros remaining acc Hlen.
  - destruct remaining; [|simpl in Hlen; lia]. simpl. split; [reflexivity|lia].
  - change (group_loop (S k) remaining acc)
      with (if (2 <? List.length remaining)%nat
            then group_loop k (but_last_k 2 remaining) (u "," ++ last_k 2 remaining ++ acc)
            else (remaining, acc)).
    destruct (2 <? List.length remaining)%nat eqn:E.
    + apply Nat.ltb_lt in E.
      destruct (last_two remaining) as (a & b & Hl & Hs); [lia|].
      assert (Hk : (List.length (but_last_k 2 remaining) <= k)%nat).
      { unfold but_last_k. rewrite length_firstn. lia. }
      destruct (IH (but_last_k 2 remaining) (u "," ++ last_k 2 remaining ++ acc) Hk) as [H1 H2].
      split; [|exact H2].
      rewrite H1.
      replace (pairs_from_right remaining)
        with (pairs_from_right (but_last_k 2 remaining ++ [a; b])) by (rewrite <- Hs; reflexivity).
      rewrite pairs_from_right_snoc2.
      rewrite join_snoc.
      * rewrite Hl. rewrite <- !app_assoc. reflexivity.
      * rewrite pairs_from_right_nil_iff. intros Hn.
        rewrite Hn in Hs. simpl in Hs. rewrite Hs in E. simpl in E. lia.
    + apply Nat.ltb_ge in E. cbn [fst snd]. split; [|exact E].
      destruct remaining as [|a [|b [|c t]]]; simpl in E; try lia; reflexivity.
Qed.

Lemma indian_format_spec digits :
  indian_format digits = join (u ",") (spec_groups digits).
Proof.
  unfold indian_format, spec_groups.
  destruct (List.length digits <=? 3)%nat eqn:E; [reflexivity|].
  apply Nat.leb_gt in E.
  set (remaining := but_last_k 3 digits).
  assert (Hr : remaining <> []).
  { intros Hn. apply (f_equal (@List.length _)) in Hn. unfold remaining, but_last_k in Hn.
    rewrite length_firstn in Hn. simpl in Hn. lia. }
  destruct (group_loop_spec (List.length remaining) remaining [] (le_n _)) as [H _].
  destruct (group_loop (List.length remaining) remaining []) as [rem fr]. simpl in H.
  rewrite app_nil_r in H.
  rewrite join_snoc by (rewrite pairs_from_right_nil_iff; exact Hr).
  rewrite <- H. destruct rem; reflexivity.
Qed.

Lemma concat_pairs_from_right s : List.concat (pairs_from_right s) = s.
Proof.
  induction s as [|a|s a b IH] using rpair_ind; try reflexivity.
  rewrite pairs_from_right_snoc2, concat_app, IH. simpl. reflexivity.
Qed.

Lemma pairs_from_right_shape s : leading_then_pairs (pairs_from_right s).
Proof.
  induction s as [|a|s a b IH] using rpair_ind.
  - exact I.
  - simpl. split; [lia|constructor].
  - rewrite pairs_from_right_snoc2.
    destruct (pairs_from_right s) as [|g gs]; simpl in *.
    + split; [lia|constructor].
    + destruct IH as [Hg Hgs]. split; [exact Hg|].
      apply Forall_app. split; [exact Hgs|]. repeat constructor.
Qed.

Lemma spec_groups_shape digits :
  List.concat (spec_groups digits) = digits /\
  ((3 < List.length digits)%nat ->
   exists pairs last_three,
     spec_groups digits = pairs ++ [last_three] /\ pairs <> [] /\
     leading_then_pairs pairs /\ List.length last_three = 3%nat).
Proof.
  unfold spec_groups. destruct (List.length digits <=? 3)%nat eqn:E.
  - apply Nat.leb_le in E. split; [simpl; apply app_nil_r|lia].
  - apply Nat.leb_gt in E. split.
    + rewrite concat_app, concat_pairs_from_right. simpl. rewrite app_nil_r.
      apply firstn_skipn.
    + intros _. exists (pairs_from_right (but_last_k 3 digits)), (last_k 3 digits).
      split; [reflexivity|]. split; [|split].
      * rewrite pairs_from_right_nil_iff. intros Hn.
        apply (f_equal (@List.length _)) in Hn. unfold but_last_k in Hn.
        rewrite length_firstn in Hn. simpl in Hn. lia.
      * apply pairs_from_right_shape.
      * unfold last_k. rewrite length_skipn. lia.
Qed.

(** *** The claims about the calculator *)

Lemma format_inr_negative (amount : Q) :
  amount < 0 ->
  format_inr amount = u "-₹" ++ drop_first (format_inr (Qabs amount))
  /\ format_inr amount = 45%N :: format_inr (Qabs amount).
Proof.
  intros Hneg.
  assert (Habs : 0 <= Qabs amount) by apply Qabs_nonneg.
  unfold format_inr. rewrite (Qltb_true_neg _ Hneg), (Qltb_false_nonneg _ Habs).
  split; [reflexivity|].
  rewrite (format_inr_nonneg_eq _ Habs). reflexivity.
Qed.

Lemma format_inr_of_nonneg (amount : Q) :
  0 <= amount ->
  let digits := str_of_Z (cents_of amount / 100) in
  let frac := two_digits (cents_of amount mod 100) in
  format_2f amount = digits ++ u "." ++ frac
  /\ List.length frac = 2%nat
  /\ format_inr amount =
     rupee :: join (u ",") (spec_groups digits)
           ++ (if str_eqb frac (u "00") then [] else u "." ++ frac).
Proof.
  intros H digits frac. split; [|split].
  - apply format_2f_nonneg. assumption.
  - reflexivity.
  - unfold format_inr. rewrite Qltb_false_nonneg by assumption.
    rewrite format_inr_nonneg_eq by assumption. fold digits frac.
    rewrite indian_format_spec. reflexivity.
Qed.

(** The sum the loop is fed enough fuel to finish: it stops because its guard
    fails, with at most two digits left over. *)
Lemma group_loop_exits (remaining : str) :
  (List.length (fst (group_loop (List.length remaining) remaining [])) <= 2)%nat.
Proof. apply group_loop_spec. apply le_n. Qed.

(** C2: on [years <= 0] or a non-positive amount both calculators return
    (and do not raise) the record whose fields are all zero. *)
Theorem degenerate_inputs_return_zeros (amount : Q) (years : Z) (annual_rate : Q) :
  (years <= 0)%Z \/ amount <= 0 ->
  calculate_sip amount years annual_rate
  = Ok {| monthly_sip := 0; total_investment := 0; expected_returns := 0; total_value := 0 |}
  /\ calculate_emi amount years annual_rate
  = Ok {| monthly_emi := 0; total_payment := 0; total_interest := 0 |}.
Proof.
  intros H.
  assert (E : (years <=? 0)%Z || Qle_bool amount 0 = true).
  { destruct H as [H|H].
    - apply Z.leb_le in H. rewrite H. reflexivity.
    - apply Qle_bool_iff in H. rewrite H. apply orb_true_r. }
  unfold calculate_sip, calculate_emi. rewrite E. split; reflexivity.
Qed.

Lemma degenerate_inputs_return_zeros_witness :
  ((5 <= 0)%Z \/ 0 <= 0)
  /\ calculate_sip 0 5 12
     = Ok {| monthly_sip := 0; total_investment := 0; expected_returns := 0; total_value := 0 |}
  /\ calculate_emi 0 5 12
     = Ok {| monthly_emi := 0; total_payment := 0; total_interest := 0 |}.
Proof.
  assert (H : (5 <= 0)%Z \/ 0 <= 0) by (right; vm_compute; discriminate).
  split; [exact H|]. exact (degenerate_inputs_return_zeros 0 5 12 H).
Defined.

(** C1, as the code has it: [calculate_sip(1000000, 5, 12.0)] pays the
    ordinary-annuity contribution for rate 12/12/100 over 60 periods, every
    field rounded to two places; the fields are 12244.45, 734666.86 (the
    unrounded contribution times 60), 265333.14 and 1000000.00. *)
Theorem sip_worked_value :
  let rate := 12 / 12 / 100 in
  let periods := 60%Z in
  let contribution := 1000000 * rate / ((1 + rate) ^ periods - 1) in
  calculate_sip 1000000 5 12
  = Ok {| monthly_sip := round2 contribution;
          total_investment := round2 (contribution * inject_Z periods);
          expected_returns := round2 (1000000 - contribution * inject_Z periods);
          total_value := round2 1000000 |}
  /\ round2 contribution = 1224445 # 100
  /\ round2 (contribution * inject_Z periods) = 73466686 # 100
  /\ round2 (1000000 - contribution * inject_Z periods) = 26533314 # 100
  /\ round2 1000000 = 100000000 # 100.
Proof. vm_compute. repeat split. Qed.

(** The three unrounded values lie more than a thousandth inside the
    rounding intervals of 12244.45, 734666.86 and 265333.14, so an error far
    larger than that of double arithmetic leaves the rounded fields
    unchanged. *)
Lemma sip_worked_value_margin :
  let rate := 12 / 12 / 100 in
  let contribution := 1000000 * rate / ((1 + rate) ^ 60 - 1) in
  ((1224444 # 100) + (6 # 1000) < contribution
   /\ contribution < (1224446 # 100) - (6 # 1000))
  /\ ((73466685 # 100) + (6 # 1000) < contribution * 60
      /\ contribution * 60 < (73466687 # 100) - (6 # 1000))
  /\ ((26533313 # 100) + (6 # 1000) < 1000000 - contribution * 60
      /\ 1000000 - contribution * 60 < (26533315 # 100) - (6 # 1000)).
Proof. vm_compute. repeat split. Qed.

(** C1, as stated, fails: the total is not within 0.01 of 734667.00. *)
Lemma sip_worked_value_as_stated_fails :
  exists res, calculate_sip 1000000 5 12 = Ok res /\
    ~ (within (monthly_sip res) (1224445 # 100) (1 # 100) /\
       within (total_investment res) 734667 (1 # 100) /\
       within (expected_returns res) 265333 (1 # 100)).
Proof.
  eexists. split; [vm_compute; reflexivity|].
  unfold within. intros (_ & H & _). vm_compute in H. apply H. reflexivity.
Qed.






End CalcFacts.

(** ** utils.py: the text helper and the listing *)

Module UtilsFacts.

Import OS Utils.

(** *** White space is collapsed *)

Lemma split_ws_from_words s : forall cur,
  Forall (fun c => isspace c = false) cur ->
  Forall is_word (split_ws_from cur s).
Proof.
  induction s as [|c rest IH]; intros cur Hcur; simpl.
  - destruct cur as [|x cur']; constructor; [|constructor].
    split.
    + intros E. apply (f_equal (@List.length _)) in E. rewrite length_rev in E. discriminate.
    + apply Forall_rev. assumption.
  - destruct (isspace c) eqn:Ec.
    + destruct cur as [|x cur'].
      * apply IH. constructor.
      * constructor; [|apply IH; constructor].
        split.
        -- intros E. apply (f_equal (@List.length _)) in E. rewrite length_rev in E. discriminate.
        -- apply Forall_rev. assumption.
    + apply IH. constructor; assumption.
Qed.

Lemma split_ws_words s : Forall is_word (split_ws s).
Proof. apply split_ws_from_words. constructor. Qed.

Lemma split_ws_from_word w : forall cur rest,
  Forall (fun c => isspace c = false) w ->
  split_ws_from cur (w ++ rest) = split_ws_from (List.rev w ++ cur) rest.
Proof.
  induction w as [|c w IH]; intros cur rest Hw; [reflexivity|].
  inversion Hw as [|? ? Hc Hw']; subst. simpl. rewrite Hc.
  rewrite IH by assumption. rewrite <- app_assoc. reflexivity.
Qed.

Lemma split_ws_from_space cur rest :
  cur <> [] -> split_ws_from cur (32%N :: rest) = List.rev cur :: split_ws_from [] rest.
Proof. destruct cur; [contradiction|reflexivity]. Qed.

Lemma rev_nonempty {A : Type} (w : list A) : w <> [] -> List.rev w <> [].
Proof.
  intros H E. apply (f_equal (@List.rev _)) in E. rewrite rev_involutive in E. contradiction.
Qed.

Lemma split_ws_join words :
  Forall is_word words -> split_ws (join (u " ") words) = words.
Proof.
  induction 1 as [|w ws [Hne Hw] Hws IH]; [reflexivity|].
  unfold split_ws in *.
  destruct ws as [|w' ws'].
  - simpl. rewrite <- (app_nil_r w) at 1. rewrite split_ws_from_word by assumption.
    simpl. rewrite app_nil_r, rev_involutive.
    destruct (List.rev w) eqn:E; [|reflexivity].
    apply (f_equal (@List.rev _)) in E. rewrite rev_involutive in E. contradiction.
  - change (join (u " ") (w :: w' :: ws')) with (w ++ 32%N :: join (u " ") (w' :: ws')).
    rewrite split_ws_from_word by assumption. rewrite app_nil_r.
    rewrite split_ws_from_space by (apply rev_nonempty; assumption).
    rewrite rev_involutive, IH. reflexivity.
Qed.

Lemma single_spaced_word w : forall prev rest,
  Forall (fun c => isspace c = false) w -> w <> [] ->
  single_spaced_from prev (w ++ rest) = single_spaced_from false rest.
Proof.
  induction w as [|c w IH]; intros prev rest Hw Hne; [contradiction|].
  inversion Hw as [|? ? Hc Hw']; subst. simpl. rewrite Hc.
  destruct w as [|c' w'']; [reflexivity|].
  apply IH; [assumption|discriminate].
Qed.

Lemma join_normalized words :
  Forall is_word words -> normalized (join (u " ") words) = true.
Proof.
  intros H.
  assert (G : forall prev, words <> [] ->
            single_spaced_from prev (join (u " ") words) = true).
  { induction H as [|w ws [Hne Hw] Hws IH]; intros prev Hnil; [contradiction|].
    destruct ws as [|w' ws'].
    - simpl. rewrite <- (app_nil_r w). rewrite single_spaced_word by assumption. reflexivity.
    - change (join (u " ") (w :: w' :: ws')) with (w ++ 32%N :: join (u " ") (w' :: ws')).
      rewrite single_spaced_word by assumption.
      change (single_spaced_from false (32%N :: join (u " ") (w' :: ws')))
        with (single_spaced_from true (join (u " ") (w' :: ws'))).
      apply IH. discriminate. }
  unfold normalized. destruct words as [|w ws]; [reflexivity|].
  specialize (G true ltac:(discriminate)).
  destruct (join (u " ") (w :: ws)); [reflexivity|exact G].
Qed.

(** *** Truncation at the last space *)

Lemma rsplit_once_none sep s :
  Forall (fun c => (c =? sep)%N = false) s -> rsplit_once sep s = None.
Proof.
  induction 1 as [|c s Hc _ IH]; simpl; [reflexivity|]. rewrite IH, Hc. reflexivity.
Qed.

Lemma rsplit_once_last sep a b :
  Forall (fun c => (c =? sep)%N = false) b ->
  rsplit_once sep (a ++ sep :: b) = Some (a, b).
Proof.
  intros Hb. induction a as [|c a IH]; simpl.
  - rewrite rsplit_once_none by assumption. rewrite N.eqb_refl. reflexivity.
  - rewrite IH. reflexivity.
Qed.

Lemma word_space_free w : is_word w -> space_free w.
Proof.
  intros [_ H]. eapply List.Forall_impl; [|exact H].
  intros c Hc. apply N.eqb_neq. intros ->. discriminate.
Qed.

Lemma firstn_space_free n s : space_free s -> space_free (List.firstn n s).
Proof.
  unfold space_free. intros H. revert n.
  induction H; intros [|n]; simpl; constructor; auto.
Qed.

(** A prefix of the collapsed text is a space-free piece of the first word,
    or some complete words, a space, and a space-free piece of the next. *)
Lemma firstn_join_words words : Forall is_word words -> forall n,
  space_free (List.firstn n (join (u " ") words))
  \/ exists m p, (1 <= m)%nat /\ space_free p /\
       List.firstn n (join (u " ") words)
       = join (u " ") (List.firstn m words) ++ 32%N :: p.
Proof.
  induction 1 as [|w ws Hw Hws IH]; intros n.
  - left. simpl. rewrite firstn_nil. constructor.
  - destruct ws as [|w' ws'].
    + left. simpl. apply firstn_space_free, word_space_free. assumption.
    + change (join (u " ") (w :: w' :: ws')) with (w ++ 32%N :: join (u " ") (w' :: ws')).
      rewrite firstn_app.
      destruct (n - List.length w)%nat as [|k] eqn:Ek.
      * left. simpl. rewrite app_nil_r. apply firstn_space_free, word_space_free. assumption.
      * rewrite firstn_all2 by lia. cbn [List.firstn].
        right. destruct (IH k) as [Hp | (m & p & Hm & Hp & E)].
        -- exists 1%nat, (List.firstn k (join (u " ") (w' :: ws'))).
           split; [lia|]. split; [exact Hp|]. reflexivity.
        -- exists (S m), p. split; [lia|]. split; [exact Hp|].
           rewrite E. cbn [List.firstn].
           destruct m as [|m']; [lia|]. cbn [List.firstn].
           change (join (u " ") (w :: w' :: List.firstn m' ws'))
             with (w ++ 32%N :: join (u " ") (w' :: List.firstn m' ws')).
           rewrite <- app_assoc. reflexivity.
Qed.

Lemma slice_to_prefix k s : exists n, slice_to k s = List.firstn n s.
Proof. unfold slice_to. destruct (0 <=? k)%Z; eexists; reflexivity. Qed.

Lemma summarize_short_cut text max_length :
  text <> [] ->
  let words := split_ws text in
  let collapsed := join (u " ") words in
  let cut := slice_to max_length collapsed in
  (max_length < Z.of_nat (List.length collapsed))%Z ->
  exists head, summarize_short text max_length = head ++ u "..." /\
    ((space_free cut /\ head = cut)
     \/ exists m p, (1 <= m)%nat /\ space_free p /\
          cut = join (u " ") (List.firstn m words) ++ 32%N :: p /\
          head = join (u " ") (List.firstn m words)).
Proof.
  intros Hne words collapsed cut Hlt.
  unfold summarize_short. destruct text as [|c0 t0]; [contradiction|].
  fold words. fold collapsed.
  destruct (Z.of_nat (List.length collapsed) <=? max_length)%Z eqn:E;
    [apply Z.leb_le in E; lia|].
  fold cut. eexists. split; [reflexivity|].
  destruct (slice_to_prefix max_length collapsed) as [n Hn]. fold cut in Hn.
  destruct (firstn_join_words words (split_ws_words _) n) as [Hs | (m & p & Hm & Hp & Ecut)].
  - change (join (u " ") words) with collapsed in Hs. rewrite <- Hn in Hs.
    left. split; [exact Hs|]. unfold rsplit1. rewrite rsplit_once_none by exact Hs. reflexivity.
  - change (join (u " ") words) with collapsed in Ecut at 1. rewrite <- Hn in Ecut.
    right. exists m, p. split; [exact Hm|]. split; [exact Hp|]. split; [exact Ecut|].
    unfold rsplit1. rewrite Ecut. rewrite rsplit_once_last by exact Hp. reflexivity.
Qed.

(** C8, as the code has it: white space is collapsed to single spaces and
    trimmed; a collapsed text no longer than the bound is returned as it is;
    otherwise the prefix of that length loses everything from its last space
    on, which leaves complete words, or is kept whole when it has no space,
    and the ellipsis is appended; the empty text gives the empty text. *)
Theorem summarize_short_spec (text : str) (max_length : Z) :
  let words := split_ws text in
  let collapsed := join (u " ") words in
  let cut := slice_to max_length collapsed in
  (text = [] -> summarize_short text max_length = [])
  /\ (Forall is_word words /\ split_ws collapsed = words /\ normalized collapsed = true)
  /\ ((Z.of_nat (List.length collapsed) <= max_length)%Z ->
      summarize_short text max_length = collapsed)
  /\ ((0 <= max_length)%Z -> cut = List.firstn (Z.to_nat max_length) collapsed)
  /\ (text <> [] -> (max_length < Z.of_nat (List.length collapsed))%Z ->
      exists head, summarize_short text max_length = head ++ u "..." /\
        ((space_free cut /\ head = cut)
         \/ exists m p, (1 <= m)%nat /\ space_free p /\
              cut = join (u " ") (List.firstn m words) ++ 32%N :: p /\
              head = join (u " ") (List.firstn m words) /\
              ends_at_word_boundary collapsed head)).
Proof.
  intros words collapsed cut.
  pose proof (split_ws_words text) as Hw. fold words in Hw.
  split; [|split; [|split; [|split]]].
  - intros ->. reflexivity.
  - split; [exact Hw|]. split; [apply split_ws_join; exact Hw|apply join_normalized; exact Hw].
  - intros Hle. unfold summarize_short. destruct text as [|c t]; [reflexivity|].
    fold words. fold collapsed. apply Z.leb_le in Hle. rewrite Hle. reflexivity.
  - intros Hk. unfold cut, slice_to. apply Z.leb_le in Hk. rewrite Hk. reflexivity.
  - intros Hne Hlt.
    destruct (summarize_short_cut text max_length Hne Hlt) as (head & Hr & Hc).
    exists head. split; [exact Hr|].
    destruct Hc as [Hc | (m & p & Hm & Hp & Ecut & Eh)]; [left; exact Hc|].
    right. exists m, p. repeat (split; [assumption|]).
    exists m. unfold collapsed at 1. rewrite split_ws_join by exact Hw. exact Eh.
Qed.

Lemma summarize_short_spec_witness :
  u "a b c d e" <> []
  /\ (3 < Z.of_nat (List.length (join (u " ") (split_ws (u "a b c d e")))))%Z
  /\ exists head, summarize_short (u "a b c d e") 3 = head ++ u "...".
Proof.
  assert (Hne : u "a b c d e" <> []) by (vm_compute; discriminate).
  assert (Hlt : (3 < Z.of_nat (List.length (join (u " ") (split_ws (u "a b c d e")))))%Z)
    by (vm_compute; reflexivity).
  split; [exact Hne|]. split; [exact Hlt|].
  destruct (proj2 (proj2 (proj2 (proj2 (summarize_short_spec (u "a b c d e") 3)))) Hne Hlt)
    as (head & Hr & _).
  exists head. exact Hr.
Defined.

(** C8, as stated, fails: a first word longer than the bound is cut in the
    middle. *)
Lemma summarize_short_cuts_mid_word :
  summarize_short (u "abcdefgh") 3 = u "abc" ++ u "..."
  /\ ~ ends_at_word_boundary (join (u " ") (split_ws (u "abcdefgh"))) (u "abc").
Proof.
  split; [vm_compute; reflexivity|].
  intros [m H]. destruct m as [|m]; [vm_compute in H; discriminate|].
  destruct m; vm_compute in H; discriminate.
Qed.

(** *** The listing *)

Lemma str_ltb_asym a : forall b, str_ltb a b = true -> str_ltb b a = false.
Proof.
  induction a as [|x a IH]; intros [|y b]; simpl; try reflexivity; try discriminate.
  destruct (N.ltb_spec x y), (N.ltb_spec y x), (N.eqb_spec x y), (N.eqb_spec y x);
    simpl; try lia; try reflexivity; try discriminate.
  apply IH.
Qed.

Lemma str_geb_trans a : forall b c,
  str_ltb a b = false -> str_ltb b c = false -> str_ltb a c = false.
Proof.
  induction a as [|x a IH]; intros [|y b] [|z c]; simpl; try reflexivity; try discriminate.
  destruct (N.ltb_spec x y), (N.ltb_spec y z), (N.ltb_spec x z),
           (N.eqb_spec x y), (N.eqb_spec y z), (N.eqb_spec x z);
    simpl; try lia; try reflexivity; try discriminate.
  apply IH.
Qed.

Section SortFacts.

Context {A : Type} (key : A -> str).

Lemma insert_desc_perm x l : Permutation (insert_desc key x l) (x :: l).
Proof.
  induction l as [|y l IH]; simpl; [reflexivity|].
  destruct (str_ltb (key x) (key y)); [|reflexivity].
  rewrite IH. apply perm_swap.
Qed.

Lemma sort_desc_perm l : Permutation (sort_desc key l) l.
Proof.
  induction l as [|x l IH]; simpl; [reflexivity|].
  rewrite insert_desc_perm. apply perm_skip. exact IH.
Qed.

Lemma insert_desc_sorted x l :
  StronglySorted (key_geb key) l -> StronglySorted (key_geb key) (insert_desc key x l).
Proof.
  induction 1 as [|y l Hl IH Hy]; simpl; [repeat constructor|].
  destruct (str_ltb (key x) (key y)) eqn:E.
  - constructor; [exact IH|].
    assert (Hx : List.Forall (key_geb key y) (x :: l)).
    { constructor; [|exact Hy]. apply str_ltb_asym. exact E. }
    rewrite List.Forall_forall in *. intros z Hz. apply Hx.
    eapply Permutation_in; [apply insert_desc_perm|exact Hz].
  - constructor; [constructor; assumption|].
    constructor; [exact E|].
    eapply List.Forall_impl; [|exact Hy].
    intros z Hz. unfold key_geb in *. eapply str_geb_trans; eassumption.
Qed.

Lemma sort_desc_sorted l : StronglySorted (key_geb key) (sort_desc key l).
Proof.
  induction l as [|x l IH]; simpl; [constructor|]. apply insert_desc_sorted. exact IH.
Qed.

End SortFacts.

Section ListingFacts.

Variable isoformat : Q -> str.
Variable strftime_readable : Q -> str.

Lemma collect_spec fs output_dir names : forall acc,
  (forall name, In name names -> is_json_name name = true ->
     exists st, stat fs (path_join output_dir name) = Ok st) ->
  exists infos,
    collect isoformat strftime_readable fs output_dir names acc = Ok (acc ++ infos)
    /\ Forall2 (info_of isoformat strftime_readable fs output_dir) (List.filter is_json_name names) infos.
Proof.
  induction names as [|name rest IH]; intros acc Hstat.
  - exists []. simpl. rewrite app_nil_r. split; [reflexivity|constructor].
  - cbn [collect List.filter]. fold (is_json_name name).
    destruct (is_json_name name) eqn:E.
    + destruct (Hstat name (or_introl eq_refl) E) as [st Hst].
      rewrite Hst. cbn [bind].
      destruct (IH (acc ++ [conversation_info isoformat strftime_readable output_dir name st]))
        as (infos & Hc & Hf).
      { intros n Hn. apply Hstat. right. exact Hn. }
      exists (conversation_info isoformat strftime_readable output_dir name st :: infos).
      split.
      * rewrite Hc. rewrite <- app_assoc. reflexivity.
      * constructor; [|exact Hf]. exists st. split; [exact Hst|reflexivity].
    + apply IH. intros n Hn. apply Hstat. right. exact Hn.
Qed.


End ListingFacts.



End UtilsFacts.

(** ** agents.py *)

Module AgentsFacts.

Import Calc Agents PyNumFacts.
Open Scope Q_scope.

Lemma substring_mid (a x b : str) : substring x (a ++ x ++ b).
Proof. exists a, b. reflexivity. Qed.

Lemma substring_app_l (x s t : str) : substring x s -> substring x (s ++ t).
Proof.
  intros (a & b & ->). exists a, (b ++ t). rewrite <- !app_assoc. reflexivity.
Qed.

Lemma substring_app_r (x s t : str) : substring x t -> substring x (s ++ t).
Proof.
  intros (a & b & ->). exists (s ++ a), b. rewrite <- !app_assoc. reflexivity.
Qed.

Lemma substring_trans (x y z : str) : substring x y -> substring y z -> substring x z.
Proof.
  intros (a & b & ->) (c & d & ->). exists (c ++ a), (b ++ d).
  rewrite <- !app_assoc. reflexivity.
Qed.

Lemma human_message_has_prompt prompt : substring prompt (human_message prompt).
Proof. unfold human_message. apply substring_mid. Qed.

Section PipelineFacts.

Variable llm : nat -> str -> str -> LlmOutcome.
Variable now_isoformat : nat -> str.
Variable fmt_comma : Q -> str.

Lemma risk_prompt_has_advice user_data sip_calc ratio advice :
  substring advice (risk_prompt fmt_comma user_data sip_calc ratio advice).
Proof. unfold risk_prompt. apply substring_mid. Qed.

Lemma planner_prompt_has_advice user_data sip_calc advice risk :
  substring advice (planner_prompt fmt_comma user_data sip_calc advice risk).
Proof. unfold planner_prompt. apply substring_mid. Qed.

Lemma planner_prompt_has_risk user_data sip_calc advice risk :
  substring risk (planner_prompt fmt_comma user_data sip_calc advice risk).
Proof.
  unfold planner_prompt. apply substring_app_r, substring_app_r. apply substring_mid.
Qed.

Lemma respond_output self prompt context w :
  fst (fst (respond llm now_isoformat self prompt context w))
  = stage_output (llm (List.length (llm_calls w))
                      (system_message self context) (human_message prompt)).
Proof.
  unfold respond.
  destruct (llm _ _ _) as [[c|s]|d tb]; reflexivity.
Qed.

Lemma respond_calls self prompt context w :
  llm_calls (snd (respond llm now_isoformat self prompt context w))
  = llm_calls w ++ [(system_message self context, human_message prompt)].
Proof.
  unfold respond.
  destruct (llm _ _ _) as [[c|s]|d tb]; reflexivity.
Qed.

Lemma length_snoc {A : Type} (l : list A) (x : A) : List.length (l ++ [x]) = S (List.length l).
Proof. rewrite length_app. simpl. lia. Qed.

Lemma lstrip_nil_iff s : lstrip s = [] <-> Forall (fun c => isspace c = true) s.
Proof.
  induction s as [|c s IH]; simpl.
  - split; [constructor|reflexivity].
  - destruct (isspace c) eqn:E.
    + rewrite IH. split; [constructor; assumption|]. inversion 1; assumption.
    + split; [discriminate|]. inversion 1; congruence.
Qed.

Lemma lstrip_all_space s :
  Forall (fun c => isspace c = true) (lstrip s) -> Forall (fun c => isspace c = true) s.
Proof.
  induction s as [|c s IH]; simpl; [trivial|].
  destruct (isspace c) eqn:E; [|trivial].
  intros H. constructor; auto.
Qed.

Lemma strip_nil_iff s : strip s = [] <-> Forall (fun c => isspace c = true) s.
Proof.
  unfold strip. split.
  - intros H. apply (f_equal (@List.rev _)) in H. rewrite rev_involutive in H. simpl in H.
    apply lstrip_nil_iff in H. apply Forall_rev in H. rewrite rev_involutive in H.
    apply lstrip_all_space. exact H.
  - intros H. apply lstrip_nil_iff in H. rewrite H. reflexivity.
Qed.

Lemma run_flow_ok user_data sip_calc w :
  ~ monthly_income user_data == 0 ->
  let k := List.length (llm_calls w) in
  let s1 := system_message AdvisorAgent advisor_context in
  let h1 := human_message (advisor_prompt fmt_comma user_data sip_calc) in
  let a := stage_output (llm k s1 h1) in
  let ratio := monthly_sip sip_calc / monthly_income user_data * 100 in
  let s2 := system_message RiskAnalystAgent risk_context in
  let h2 := human_message (risk_prompt fmt_comma user_data sip_calc ratio a) in
  let r := stage_output (llm (S k) s2 h2) in
  let s3 := system_message PlannerAgent planner_context in
  let h3 := human_message (planner_prompt fmt_comma user_data sip_calc a r) in
  let p := stage_output (llm (S (S k)) s3 h3) in
  exists run,
    run_flow llm now_isoformat fmt_comma user_data sip_calc w = Ok run
    /\ outputs run = (a, r, p)
    /\ llm_calls (world_after run) = llm_calls w ++ [(s1, h1); (s2, h2); (s3, h3)].
Proof.
  intros Hinc k s1 h1 a ratio s2 h2 r s3 h3 p.
  unfold run_flow, advisor_analyze, risk_analyze, create_plan.
  pose proof (respond_output AdvisorAgent (advisor_prompt fmt_comma user_data sip_calc)
                advisor_context w) as Ho1.
  pose proof (respond_calls AdvisorAgent (advisor_prompt fmt_comma user_data sip_calc)
                advisor_context w) as Hc1.
  destruct (respond llm now_isoformat AdvisorAgent _ advisor_context w) as [[a' ag1] w1].
  cbn [fst snd] in Ho1, Hc1. fold k s1 h1 in Ho1, Hc1. fold a in Ho1. subst a'.
  rewrite py_div_ok by exact Hinc. cbn [bind]. fold ratio.
  pose proof (respond_output RiskAnalystAgent (risk_prompt fmt_comma user_data sip_calc ratio a)
                risk_context w1) as Ho2.
  pose proof (respond_calls RiskAnalystAgent (risk_prompt fmt_comma user_data sip_calc ratio a)
                risk_context w1) as Hc2.
  destruct (respond llm now_isoformat RiskAnalystAgent _ risk_context w1) as [[r' ag2] w2].
  cbn [fst snd] in Ho2, Hc2. rewrite Hc1 in Ho2, Hc2. rewrite length_snoc in Ho2.
  fold k s2 h2 in Ho2, Hc2. fold r in Ho2. subst r'.
  pose proof (respond_output PlannerAgent (planner_prompt fmt_comma user_data sip_calc a r)
                planner_context w2) as Ho3.
  pose proof (respond_calls PlannerAgent (planner_prompt fmt_comma user_data sip_calc a r)
                planner_context w2) as Hc3.
  destruct (respond llm now_isoformat PlannerAgent _ planner_context w2) as [[p' ag3] w3].
  cbn [fst snd] in Ho3, Hc3. rewrite Hc2 in Ho3, Hc3. rewrite !length_snoc in Ho3.
  fold k s3 h3 in Ho3, Hc3. fold p in Ho3. subst p'.
  eexists. split; [reflexivity|]. split; [reflexivity|].
  cbn [world_after]. rewrite Hc3. rewrite <- !app_assoc. reflexivity.
Qed.

Lemma run_flow_zero_income user_data sip_calc w :
  monthly_income user_data == 0 ->
  run_flow llm now_isoformat fmt_comma user_data sip_calc w = Raise ZeroDivisionError.
Proof.
  intros Hz. unfold run_flow, advisor_analyze, risk_analyze.
  destruct (respond llm now_isoformat AdvisorAgent _ _ w) as [[a' ag1] w1].
  rewrite py_div_zero by exact Hz. reflexivity.
Qed.

(** C4, as the code has it: when the income is not zero the flow returns,
    the generator has been invoked exactly three times, for the advisor, the
    risk analyst and the planner in this order, each output is what the
    invocation of its stage gave, the advisor's output is a substring of the
    risk prompt, and both earlier outputs are substrings of the planner
    prompt. *)
Theorem flow_threads_outputs_in_order user_data sip_calc w :
  ~ monthly_income user_data == 0 ->
  let k := List.length (llm_calls w) in
  let s1 := system_message AdvisorAgent advisor_context in
  let s2 := system_message RiskAnalystAgent risk_context in
  let s3 := system_message PlannerAgent planner_context in
  exists run a r p h1 h2 h3,
    run_flow llm now_isoformat fmt_comma user_data sip_calc w = Ok run
    /\ run_multi_agent_flow llm now_isoformat fmt_comma user_data sip_calc w = Ok (a, r, p)
    /\ llm_calls (world_after run) = llm_calls w ++ [(s1, h1); (s2, h2); (s3, h3)]
    /\ a = stage_output (llm k s1 h1)
    /\ r = stage_output (llm (S k) s2 h2)
    /\ p = stage_output (llm (S (S k)) s3 h3)
    /\ substring a h2 /\ substring a h3 /\ substring r h3.
Proof.
  intros Hinc k s1 s2 s3.
  destruct (run_flow_ok user_data sip_calc w Hinc) as (run & Hrun & Hout & Hcalls).
  cbv zeta in Hout, Hcalls. fold k s1 s2 s3 in Hout, Hcalls.
  eexists run, _, _, _, _, _, _.
  split; [exact Hrun|]. split.
  { unfold run_multi_agent_flow. rewrite Hrun. cbn [bind]. rewrite Hout. reflexivity. }
  split; [exact Hcalls|].
  split; [reflexivity|]. split; [reflexivity|]. split; [reflexivity|].
  split; [|split].
  - eapply substring_trans; [apply risk_prompt_has_advice|apply human_message_has_prompt].
  - eapply substring_trans; [apply planner_prompt_has_advice|apply human_message_has_prompt].
  - eapply substring_trans; [apply planner_prompt_has_risk|apply human_message_has_prompt].
Qed.

(** C10: the percentage is computed by an unguarded division before
    [respond] is entered; with a positive income it is defined and the flow
    returns its three texts whatever the generator does, and with a zero
    income the flow raises [ZeroDivisionError] whatever the generator does. *)
Theorem positive_income_keeps_flow_total :
  (forall user_data sip_calc w,
     0 < monthly_income user_data ->
     py_div (monthly_sip sip_calc) (monthly_income user_data)
     = Ok (monthly_sip sip_calc / monthly_income user_data)
     /\ exists a r p,
         run_multi_agent_flow llm now_isoformat fmt_comma user_data sip_calc w = Ok (a, r, p))
  /\ (forall user_data sip_calc w,
       monthly_income user_data == 0 ->
       risk_analyze llm now_isoformat fmt_comma RiskAnalystAgent user_data sip_calc
         (stage_output (llm (List.length (llm_calls w))
                            (system_message AdvisorAgent advisor_context)
                            (human_message (advisor_prompt fmt_comma user_data sip_calc))))
         (snd (advisor_analyze llm now_isoformat fmt_comma AdvisorAgent user_data sip_calc w))
       = Raise ZeroDivisionError
       /\ run_multi_agent_flow llm now_isoformat fmt_comma user_data sip_calc w
          = Raise ZeroDivisionError).
Proof.
  split.
  - intros user_data sip_calc w Hpos.
    assert (Hinc : ~ monthly_income user_data == 0) by lra.
    split; [apply py_div_ok; exact Hinc|].
    destruct (run_flow_ok user_data sip_calc w Hinc) as (run & Hrun & Hout & _).
    eexists _, _, _. unfold run_multi_agent_flow. rewrite Hrun. cbn [bind].
    rewrite Hout. reflexivity.
  - intros user_data sip_calc w Hz. split.
    + unfold risk_analyze. rewrite py_div_zero by exact Hz. reflexivity.
    + unfold run_multi_agent_flow. rewrite run_flow_zero_income by exact Hz. reflexivity.
Qed.

(** What [respond] does when the generator raises. *)
Lemma respond_on_failure self prompt context w detail tb :
  llm (List.length (llm_calls w)) (system_message self context) (human_message prompt)
  = Fails detail tb ->
  exists entry w',
    respond llm now_isoformat self prompt context w
    = (error_text detail,
       {| role := role self;
          conversation_history := conversation_history self ++ [entry];
          system_prompt := system_prompt self |},
       w')
    /\ entry_get (u "role") entry = Some (role self)
    /\ entry_get (u "error") entry = Some detail
    /\ entry_get (u "timestamp") entry = Some (now_isoformat (clock_reads w))
    /\ entry_get (u "response") entry = None
    /\ substring detail (error_text detail)
    /\ error_text detail <> [].
Proof.
  intros Hfail. unfold respond. rewrite Hfail.
  eexists _, _. split; [reflexivity|].
  repeat split; try (vm_compute; reflexivity).
  - exists (u "त्रुटि: "), []. rewrite app_nil_r. reflexivity.
  - vm_compute. discriminate.
Qed.


End PipelineFacts.

Lemma flow_threads_outputs_in_order_witness :
  ~ monthly_income (sample_user 50000) == 0
  /\ exists a r p,
      run_multi_agent_flow steady_llm (fun _ => []) (fun _ => []) (sample_user 50000)
        sample_sip world0 = Ok (a, r, p).
Proof.
  assert (H : ~ monthly_income (sample_user 50000) == 0)
    by (intros E; vm_compute in E; discriminate E).
  split; [exact H|].
  destruct (flow_threads_outputs_in_order steady_llm (fun _ => []) (fun _ => [])
              (sample_user 50000) sample_sip world0 H)
    as (run & a & r & p & _ & _ & _ & _ & E & _).
  exists a, r, p. exact E.
Defined.

(** C4, as stated, fails: with an income of zero the risk stage raises
    before it builds its prompt, and the flow does not return. *)
Lemma flow_stops_on_zero_income :
  run_flow steady_llm (fun _ => []) (fun _ => []) (sample_user 0) sample_sip world0
  = Raise ZeroDivisionError
  /\ ~ exists run,
        run_flow steady_llm (fun _ => []) (fun _ => []) (sample_user 0) sample_sip world0
        = Ok run.
Proof.
  assert (E : run_flow steady_llm (fun _ => []) (fun _ => []) (sample_user 0) sample_sip world0
              = Raise ZeroDivisionError).
  { apply run_flow_zero_income. reflexivity. }
  split; [exact E|]. intros [run H]. rewrite E in H. discriminate H.
Qed.

Lemma positive_income_keeps_flow_total_witness :
  0 < monthly_income (sample_user 50000) /\ monthly_income (sample_user 0) == 0
  /\ (exists a r p,
        run_multi_agent_flow llm_failing_second (fun _ => []) (fun _ => [])
          (sample_user 50000) sample_sip world0 = Ok (a, r, p))
  /\ run_multi_agent_flow llm_failing_second (fun _ => []) (fun _ => [])
       (sample_user 0) sample_sip world0 = Raise ZeroDivisionError.
Proof.
  assert (Hp : 0 < monthly_income (sample_user 50000)) by reflexivity.
  assert (Hz : monthly_income (sample_user 0) == 0) by reflexivity.
  split; [exact Hp|]. split; [exact Hz|]. split.
  - exact (proj2 (proj1 (positive_income_keeps_flow_total llm_failing_second
                           (fun _ => []) (fun _ => [])) _ sample_sip world0 Hp)).
  - exact (proj2 (proj2 (positive_income_keeps_flow_total llm_failing_second
                           (fun _ => []) (fun _ => [])) _ sample_sip world0 Hz)).
Defined.



End AgentsFacts.

(** ** The [json] module and text files *)

Module JsonFacts.

Import Json.

(** *** UTF-8 *)

Ltac nsolve :=
  repeat match goal with
         | H : (_ <? _)%N = true |- _ => apply N.ltb_lt in H
         | H : (_ <? _)%N = false |- _ => apply N.ltb_ge in H
         | H : (_ <=? _)%N = true |- _ => apply N.leb_le in H
         | H : (_ <=? _)%N = false |- _ => apply N.leb_gt in H
         | H : (_ =? _)%N = true |- _ => apply N.eqb_eq in H
         | H : (_ =? _)%N = false |- _ => apply N.eqb_neq in H
         | H : _ && _ = true |- _ => apply andb_prop in H; destruct H
         | H : _ || _ = false |- _ => apply orb_false_elim in H; destruct H
         end.

Lemma utf8_decode_encode_char (c : char) :
  is_scalar c = true ->
  exists bs, utf8_encode_char c = Ok bs /\
    forall rest, utf8_decode (bs ++ rest) = let* s := utf8_decode rest in Ok (c :: s).
Proof.
  intros Hc. unfold utf8_encode_char.
  destruct (c <? 128)%N eqn:E1.
  { eexists. split; [reflexivity|]. intros rest. cbn [app utf8_decode]. rewrite E1. reflexivity. }
  destruct (c <? 2048)%N eqn:E2.
  { eexists. split; [reflexivity|]. intros rest. cbn [app utf8_decode].
    nsolve.
    assert (Hq : (2 <= c / 64 < 32)%N).
    { split; [apply N.div_le_lower_bound|apply N.Div0.div_lt_upper_bound]; lia. }
    assert (Hr : (c mod 64 < 64)%N) by (apply N.mod_upper_bound; lia).
    pose proof (N.div_mod c 64 ltac:(lia)) as Hd.
    remember (c mod 64)%N as r eqn:Er. remember (c / 64)%N as q eqn:Eq. clear Er Eq.
    replace (192 + q <? 128)%N with false by (symmetry; apply N.ltb_ge; lia).
    replace ((194 <=? 192 + q) && (192 + q <=? 223))%N with true
      by (symmetry; apply andb_true_intro; split; apply N.leb_le; lia).
    replace (is_cont (128 + r)) with true
      by (symmetry; unfold is_cont; apply andb_true_intro; split; apply N.leb_le; lia).
    replace ((192 + q - 192) * 64 + (128 + r - 128))%N with c by lia.
    reflexivity. }
  destruct (c <? 65536)%N eqn:E3.
  { destruct ((55296 <=? c) && (c <=? 57343))%N eqn:Es.
    { exfalso. unfold is_scalar in Hc. nsolve.
      apply orb_prop in Hc as [Hc|Hc]; nsolve; lia. }
    eexists. split; [reflexivity|]. intros rest. cbn [app utf8_decode].
    nsolve.
    assert (Hq : (c / 4096 < 16)%N) by (apply N.Div0.div_lt_upper_bound; lia).
    assert (Hq2 : (c / 64 / 64 = c / 4096)%N) by (rewrite N.Div0.div_div; reflexivity).
    pose proof (N.div_mod c 64 ltac:(lia)) as Hd.
    pose proof (N.div_mod (c / 64) 64 ltac:(lia)) as Hd2. rewrite Hq2 in Hd2.
    assert (Hr : (c mod 64 < 64)%N) by (apply N.mod_upper_bound; lia).
    assert (Hr2 : ((c / 64) mod 64 < 64)%N) by (apply N.mod_upper_bound; lia).
    assert (Hsur : ~ (55296 <= c <= 57343)%N).
    { apply andb_false_iff in Es as [Es|Es]; nsolve; lia. }
    remember ((c / 64) mod 64)%N as m eqn:Em. remember (c mod 64)%N as r eqn:Er.
    remember (c / 4096)%N as q eqn:Eq. remember (c / 64)%N as k eqn:Ek.
    clear Em Er Eq Ek Hq2.
    replace (224 + q <? 128)%N with false by (symmetry; apply N.ltb_ge; lia).
    replace ((194 <=? 224 + q) && (224 + q <=? 223))%N with false
      by (symmetry; apply andb_false_iff; right; apply N.leb_gt; lia).
    replace ((224 <=? 224 + q) && (224 + q <=? 239))%N with true
      by (symmetry; apply andb_true_intro; split; apply N.leb_le; lia).
    replace (is_cont (128 + m)) with true
      by (symmetry; unfold is_cont; apply andb_true_intro; split; apply N.leb_le; lia).
    replace (is_cont (128 + r)) with true
      by (symmetry; unfold is_cont; apply andb_true_intro; split; apply N.leb_le; lia).
    replace (negb (224 + q =? 224) || (160 <=? 128 + m))%N with true.
    2:{ symmetry. destruct (N.eqb_spec (224 + q) 224); [|reflexivity].
        simpl. apply N.leb_le. lia. }
    replace (negb (224 + q =? 237) || (128 + m <=? 159))%N with true.
    2:{ symmetry. destruct (N.eqb_spec (224 + q) 237); [|reflexivity].
        simpl. apply N.leb_le. lia. }
    replace ((224 + q - 224) * 4096 + (128 + m - 128) * 64 + (128 + r - 128))%N with c by lia.
    reflexivity. }
  destruct (c <? 1114112)%N eqn:E4.
  2:{ exfalso. unfold is_scalar in Hc. nsolve.
      apply orb_prop in Hc as [Hc|Hc]; nsolve; lia. }
  eexists. split; [reflexivity|]. intros rest. cbn [app utf8_decode].
  nsolve.
  assert (Hq1 : (c / 64 / 64 = c / 4096)%N) by (rewrite N.Div0.div_div; reflexivity).
  assert (Hq2 : (c / 4096 / 64 = c / 262144)%N) by (rewrite N.Div0.div_div; reflexivity).
  assert (Hq3 : (c / 262144 < 5)%N) by (apply N.Div0.div_lt_upper_bound; lia).
  pose proof (N.div_mod c 64 ltac:(lia)) as Hd.
  pose proof (N.div_mod (c / 64) 64 ltac:(lia)) as Hd2. rewrite Hq1 in Hd2.
  pose proof (N.div_mod (c / 4096) 64 ltac:(lia)) as Hd3. rewrite Hq2 in Hd3.
  assert (Hr : (c mod 64 < 64)%N) by (apply N.mod_upper_bound; lia).
  assert (Hr2 : ((c / 64) mod 64 < 64)%N) by (apply N.mod_upper_bound; lia).
  assert (Hr3 : ((c / 4096) mod 64 < 64)%N) by (apply N.mod_upper_bound; lia).
  clear Hq1 Hq2.
  remember ((c / 4096) mod 64)%N as m2 eqn:Em2. remember ((c / 64) mod 64)%N as m eqn:Em.
  remember (c mod 64)%N as r eqn:Er. remember (c / 262144)%N as q eqn:Eq.
  remember (c / 4096)%N as k2 eqn:Ek2. remember (c / 64)%N as k eqn:Ek.
  clear Em2 Em Er Eq Ek2 Ek.
  replace (240 + q <? 128)%N with false by (symmetry; apply N.ltb_ge; lia).
  replace ((194 <=? 240 + q) && (240 + q <=? 223))%N with false
    by (symmetry; apply andb_false_iff; right; apply N.leb_gt; lia).
  replace ((224 <=? 240 + q) && (240 + q <=? 239))%N with false
    by (symmetry; apply andb_false_iff; right; apply N.leb_gt; lia).
  replace ((240 <=? 240 + q) && (240 + q <=? 244))%N with true
    by (symmetry; apply andb_true_intro; split; apply N.leb_le; lia).
  replace (is_cont (128 + m2)) with true
    by (symmetry; unfold is_cont; apply andb_true_intro; split; apply N.leb_le; lia).
  replace (is_cont (128 + m)) with true
    by (symmetry; unfold is_cont; apply andb_true_intro; split; apply N.leb_le; lia).
  replace (is_cont (128 + r)) with true
    by (symmetry; unfold is_cont; apply andb_true_intro; split; apply N.leb_le; lia).
  replace (negb (240 + q =? 240) || (144 <=? 128 + m2))%N with true.
  2:{ symmetry. destruct (N.eqb_spec (240 + q) 240); [|reflexivity].
      simpl. apply N.leb_le. lia. }
  replace (negb (240 + q =? 244) || (128 + m2 <=? 143))%N with true.
  2:{ symmetry. destruct (N.eqb_spec (240 + q) 244); [|reflexivity].
      simpl. apply N.leb_le. lia. }
  replace ((240 + q - 240) * 262144 + (128 + m2 - 128) * 4096 + (128 + m - 128) * 64
           + (128 + r - 128))%N with c by lia.
  reflexivity.
Qed.

Lemma utf8_decode_encode (s : str) :
  Forall (fun c => is_scalar c = true) s ->
  exists bs, utf8_encode s = Ok bs /\ utf8_decode bs = Ok s.
Proof.
  induction 1 as [|c s Hc _ (bs' & He & Hd)].
  - exists []. split; reflexivity.
  - destruct (utf8_decode_encode_char c Hc) as (bs & Hec & Hdc).
    exists (bs ++ bs'). split.
    + cbn [utf8_encode]. rewrite Hec, He. reflexivity.
    + rewrite Hdc, Hd. reflexivity.
Qed.

Lemma universal_newlines_id (s : str) :
  Forall (fun c => c <> 13%N) s -> universal_newlines s = s.
Proof.
  induction 1 as [|c s Hc _ IH]; [reflexivity|].
  cbn [universal_newlines]. apply N.eqb_neq in Hc. rewrite Hc, IH. reflexivity.
Qed.

(** *** Strings *)

Lemma hex_pair_roundtrip (c : N) :
  (c < 32)%N ->
  decode_hex4 48%N 48%N (hex_digit (c / 16)%N) (hex_digit (c mod 16)%N) = Some c.
Proof.
  intros Hc.
  assert (H : forallb hex_pair_ok (List.map N.of_nat (List.seq 0%nat 32%nat)) = true)
    by (vm_compute; reflexivity).
  rewrite forallb_forall in H.
  specialize (H c). unfold hex_pair_ok in H.
  destruct (decode_hex4 _ _ _ _) as [v|].
  - f_equal. apply N.eqb_eq. apply H.
    apply in_map_iff. exists (N.to_nat c). split; [lia|]. apply in_seq. lia.
  - discriminate H.
    apply in_map_iff. exists (N.to_nat c). split; [lia|]. apply in_seq. lia.
Qed.

Lemma scanstring_escape_char (c : char) (tail : str) :
  scanstring (escape_char c ++ tail) = cons_char c (scanstring tail).
Proof.
  unfold escape_char.
  destruct (c =? 92)%N eqn:E92; [apply N.eqb_eq in E92; subst; reflexivity|].
  destruct (c =? 34)%N eqn:E34; [apply N.eqb_eq in E34; subst; reflexivity|].
  destruct (c =? 8)%N eqn:E8; [apply N.eqb_eq in E8; subst; reflexivity|].
  destruct (c =? 12)%N eqn:E12; [apply N.eqb_eq in E12; subst; reflexivity|].
  destruct (c =? 10)%N eqn:E10; [apply N.eqb_eq in E10; subst; reflexivity|].
  destruct (c =? 13)%N eqn:E13; [apply N.eqb_eq in E13; subst; reflexivity|].
  destruct (c =? 9)%N eqn:E9; [apply N.eqb_eq in E9; subst; reflexivity|].
  destruct (c <? 32)%N eqn:E32.
  - apply N.ltb_lt in E32.
    change (u "\u00" ++ [hex_digit (c / 16)%N; hex_digit (c mod 16)%N])
      with [92%N; 117%N; 48%N; 48%N; hex_digit (c / 16)%N; hex_digit (c mod 16)%N].
    cbn [app scanstring].
    change (92 =? 34)%N with false. change (92 =? 92)%N with true.
    change (117 =? 117)%N with true. cbv iota.
    rewrite hex_pair_roundtrip by exact E32.
    replace ((55296 <=? c) && (c <=? 56319))%N with false
      by (symmetry; apply andb_false_iff; left; apply N.leb_gt; lia).
    reflexivity.
  - cbn [app scanstring]. rewrite E34, E92, E32. reflexivity.
Qed.

Lemma scanstring_escaped (s : str) (rest : str) :
  scanstring (List.flat_map escape_char s ++ 34%N :: rest) = Ok (s, rest).
Proof.
  induction s as [|c s IH]; [reflexivity|].
  cbn [List.flat_map]. rewrite <- app_assoc. rewrite scanstring_escape_char, IH. reflexivity.
Qed.

Lemma scan_basestring (s : str) (rest : str) :
  exists body, encode_basestring s ++ rest = 34%N :: body /\ scanstring body = Ok (s, rest).
Proof.
  exists (List.flat_map escape_char s ++ 34%N :: rest). split.
  - unfold encode_basestring. cbn [app]. rewrite <- app_assoc. reflexivity.
  - apply scanstring_escaped.
Qed.

(** *** Numbers *)

Lemma span_digits_app (ds r : str) :
  all_digits ds -> no_digit_head r -> span_digits (ds ++ r) = (ds, r).
Proof.
  intros Hds Hr. induction Hds as [|c ds Hc _ IH].
  - destruct r as [|c r]; [reflexivity|]. simpl in *. rewrite Hr. reflexivity.
  - cbn [app span_digits]. rewrite Hc, IH. reflexivity.
Qed.

Lemma is_digit_range (c : char) : is_digit c = true <-> (48 <= c <= 57)%N.
Proof.
  unfold is_digit. rewrite andb_true_iff, !N.leb_le. reflexivity.
Qed.

Lemma terminated_heads (rest : str) :
  terminated rest = true ->
  no_digit_head rest /\
  match rest with
  | [] => True
  | c :: _ => (c =? 46)%N = false /\ (c =? 101)%N = false /\ (c =? 69)%N = false
  end.
Proof.
  destruct rest as [|c r]; cbn [terminated no_digit_head]; [split; exact I|].
  intros H. apply negb_true_iff in H.
  apply orb_false_elim in H as [H H3]. apply orb_false_elim in H as [H H2].
  apply orb_false_elim in H as [H0 H1]. repeat split; assumption.
Qed.

Lemma match_integer_literal (i tail : str) :
  int_part i -> no_digit_head tail -> match_integer (i ++ tail) = Some (i, tail).
Proof.
  intros (sign & ds & -> & Hsign & Hds) Htail.
  rewrite <- app_assoc.
  destruct Hds as [-> | (d & ds' & -> & Hd & Hd0 & Hds')].
  - destruct Hsign as [-> | ->]; reflexivity.
  - apply N.eqb_neq in Hd0.
    assert (Hd45 : (d =? 45)%N = false).
    { apply is_digit_range in Hd. apply N.eqb_neq. lia. }
    destruct Hsign as [-> | ->]; unfold match_integer; cbn [app].
    + rewrite Hd45, Hd0, Hd. rewrite span_digits_app by assumption. reflexivity.
    + change (45 =? 45)%N with true. cbv iota.
      rewrite Hd0, Hd. rewrite span_digits_app by assumption. reflexivity.
Qed.

Lemma match_frac_literal (f tail : str) :
  frac_part f -> no_digit_head tail ->
  match tail with [] => True | c :: _ => (c =? 46)%N = false end ->
  match_frac (f ++ tail) = (f, tail).
Proof.
  intros [-> | (ds & -> & Hne & Hds)] Htail Hdot.
  - destruct tail as [|c r]; [reflexivity|]. cbn [app match_frac]. rewrite Hdot. reflexivity.
  - cbn [app match_frac]. change (46 =? 46)%N with true. cbv iota.
    rewrite span_digits_app by assumption.
    destruct ds; [contradiction|reflexivity].
Qed.

Lemma match_exp_literal (e tail : str) :
  exp_part e -> no_digit_head tail ->
  match tail with [] => True | c :: _ => (c =? 101)%N = false /\ (c =? 69)%N = false end ->
  match_exp (e ++ tail) = (e, tail).
Proof.
  intros [-> | (ec & sign & ds & -> & Hec & Hsign & Hne & Hds)] Htail He.
  - destruct tail as [|c r]; [reflexivity|]. cbn [app match_exp].
    destruct He as [-> ->]. reflexivity.
  - cbn [app match_exp].
    replace ((ec =? 101) || (ec =? 69))%N with true
      by (destruct Hec as [-> | ->]; reflexivity).
    rewrite <- app_assoc.
    destruct ds as [|d ds']; [contradiction|].
    assert (Hd : is_digit d = true) by (inversion Hds; assumption).
    destruct Hsign as [-> | [-> | ->]]; cbn [app].
    + apply is_digit_range in Hd.
      replace ((d =? 45) || (d =? 43))%N with false
        by (symmetry; apply orb_false_intro; apply N.eqb_neq; lia).
      change (d :: ds' ++ tail) with ((d :: ds') ++ tail).
      rewrite (span_digits_app (d :: ds') tail) by assumption. reflexivity.
    + change ((43 =? 45) || (43 =? 43))%N with true. cbv iota.
      change (d :: ds' ++ tail) with ((d :: ds') ++ tail).
      rewrite (span_digits_app (d :: ds') tail) by assumption. reflexivity.
    + change ((45 =? 45) || (45 =? 43))%N with true. cbv iota.
      change (d :: ds' ++ tail) with ((d :: ds') ++ tail).
      rewrite (span_digits_app (d :: ds') tail) by assumption. reflexivity.
Qed.

Lemma part_heads (f e rest : str) :
  frac_part f -> exp_part e -> terminated rest = true ->
  no_digit_head (f ++ e ++ rest) /\ no_digit_head (e ++ rest) /\
  match e ++ rest with [] => True | c :: _ => (c =? 46)%N = false end.
Proof.
  intros Hf He Hrest.
  destruct (terminated_heads rest Hrest) as [Hr Hr'].
  assert (Hee : no_digit_head (e ++ rest) /\
                match e ++ rest with [] => True | c :: _ => (c =? 46)%N = false end).
  { destruct He as [-> | (ec & sign & ds & -> & Hec & _)].
    - split; [exact Hr|]. destruct rest; [exact I|apply Hr'].
    - cbn [app no_digit_head]. destruct Hec as [-> | ->]; split; reflexivity. }
  destruct Hee as [He1 He2]. split; [|split; assumption].
  destruct Hf as [-> | (ds & -> & _)]; [exact He1|reflexivity].
Qed.

Lemma match_number_literal (i f e rest : str) :
  int_part i -> frac_part f -> exp_part e -> terminated rest = true ->
  match_number (i ++ f ++ e ++ rest) = Some (i, f, e, rest).
Proof.
  intros Hi Hf He Hrest.
  destruct (part_heads f e rest Hf He Hrest) as (H1 & H2 & H3).
  destruct (terminated_heads rest Hrest) as [Hr Hr'].
  unfold match_number.
  rewrite match_integer_literal by assumption.
  rewrite match_frac_literal by assumption.
  rewrite match_exp_literal; [reflexivity|assumption|assumption|].
  destruct rest; [exact I|]. split; apply Hr'.
Qed.

Lemma digits_value_snoc (ds : str) (d : char) :
  digits_value (ds ++ [d]) = (digits_value ds * 10 + (d - 48))%N.
Proof. unfold digits_value. rewrite fold_left_app. reflexivity. Qed.

Lemma digits_fuel_spec (k : nat) : forall n,
  (n < 2 ^ N.of_nat (S k))%N ->
  digits_value (digits_fuel (S k) n []) = n
  /\ (n = 0%N -> digits_fuel (S k) n [] = [48%N])
  /\ ((0 < n)%N -> exists d ds', digits_fuel (S k) n [] = d :: ds'
                     /\ is_digit d = true /\ d <> 48%N /\ all_digits ds').
Proof.
  induction k as [|k IH]; intros n Hn.
  - change (2 ^ N.of_nat 1)%N with 2%N in Hn.
    assert (Hc : n = 0%N \/ n = 1%N) by lia.
    destruct Hc as [-> | ->]; (split; [reflexivity|]); split; try reflexivity; try lia.
    intros _. exists 49%N, []. repeat split; try reflexivity; try discriminate. constructor.
  - change (digits_fuel (S (S k)) n [])
      with (if (n <? 10)%N then [(48 + n mod 10)%N]
            else digits_fuel (S k) (n / 10)%N [(48 + n mod 10)%N]).
    destruct (n <? 10)%N eqn:E.
    + apply N.ltb_lt in E. rewrite N.mod_small by exact E.
      split; [|split].
      * unfold digits_value. cbn [fold_left]. lia.
      * intros ->. reflexivity.
      * intros Hpos. exists (48 + n)%N, []. split; [reflexivity|].
        split; [apply is_digit_range; lia|]. split; [lia|constructor].
    + apply N.ltb_ge in E.
      assert (Hq : (n / 10 < 2 ^ N.of_nat (S k))%N).
      { apply N.Div0.div_lt_upper_bound.
        rewrite Nat2N.inj_succ, N.pow_succ_r' in Hn.
        assert (0 < 2 ^ N.of_nat (S k))%N by (apply N.neq_0_lt_0, N.pow_nonzero; discriminate).
        lia. }
      assert (Hq0 : (0 < n / 10)%N).
      { apply N.div_str_pos. lia. }
      destruct (IH (n / 10)%N Hq) as (Hv & _ & Hs).
      destruct (Hs Hq0) as (d & ds' & Hd & Hdd & Hd0 & Hds').
      assert (Hm : (n mod 10 < 10)%N) by (apply N.mod_upper_bound; discriminate).
      pose proof (N.div_mod n 10 ltac:(discriminate)) as Hdm.
      rewrite CalcFacts.digits_fuel_app. split; [|split].
      * rewrite digits_value_snoc, Hv.
        remember (n mod 10)%N as r. remember (n / 10)%N as q. lia.
      * intros ->. lia.
      * intros _. exists d, (ds' ++ [(48 + n mod 10)%N]). rewrite Hd.
        split; [reflexivity|]. split; [exact Hdd|]. split; [exact Hd0|].
        apply Forall_app. split; [exact Hds'|]. constructor; [|constructor].
        apply is_digit_range. remember (n mod 10)%N as r. lia.
Qed.

Lemma str_of_N_spec (n : N) :
  digits_value (str_of_N n) = n
  /\ (n = 0%N -> str_of_N n = [48%N])
  /\ ((0 < n)%N -> exists d ds', str_of_N n = d :: ds'
                     /\ is_digit d = true /\ d <> 48%N /\ all_digits ds').
Proof.
  unfold str_of_N. apply digits_fuel_spec.
  rewrite Nat2N.inj_succ, N2Nat.id.
  destruct (N.eq_dec n 0%N) as [-> | Hn]; [reflexivity|].
  apply N.log2_spec. lia.
Qed.

Lemma str_of_N_shape (n : N) :
  str_of_N n = [48%N]
  \/ exists d ds', str_of_N n = d :: ds' /\ is_digit d = true /\ d <> 48%N /\ all_digits ds'.
Proof.
  destruct (str_of_N_spec n) as (_ & H0 & Hp).
  destruct (N.eq_dec n 0%N) as [-> | Hn]; [left; apply H0; reflexivity|].
  right. apply Hp. lia.
Qed.

Lemma str_of_Z_int_part (z : Z) : int_part (str_of_Z z).
Proof.
  unfold str_of_Z. destruct (z <? 0)%Z.
  - exists [45%N], (str_of_N (Z.to_N (- z))). split; [reflexivity|].
    split; [right; reflexivity|]. apply str_of_N_shape.
  - exists [], (str_of_N (Z.to_N z)). split; [reflexivity|].
    split; [left; reflexivity|]. apply str_of_N_shape.
Qed.

Lemma int_of_str_of_Z (z : Z) : int_of_str (str_of_Z z) = z.
Proof.
  unfold str_of_Z. destruct (z <? 0)%Z eqn:E.
  - apply Z.ltb_lt in E. cbn [int_of_str]. change (45 =? 45)%N with true. cbv iota.
    destruct (str_of_N_spec (Z.to_N (- z))) as (Hv & _). rewrite Hv. lia.
  - apply Z.ltb_ge in E.
    destruct (str_of_N_spec (Z.to_N z)) as (Hv & _).
    assert (G : forall s, digits_value s = Z.to_N z ->
                (s = [48%N] \/ exists d ds', s = d :: ds' /\ is_digit d = true
                                             /\ d <> 48%N /\ all_digits ds') ->
                int_of_str s = z).
    { intros s Hs [-> | (d & ds' & -> & Hd & _)].
      - cbn [int_of_str]. change (48 =? 45)%N with false. cbv iota. rewrite Hs. lia.
      - cbn [int_of_str]. apply is_digit_range in Hd.
        replace (d =? 45)%N with false by (symmetry; apply N.eqb_neq; lia).
        rewrite Hs. lia. }
    apply G; [exact Hv|apply str_of_N_shape].
Qed.

(** *** Values *)

Section ValueFacts.

Variable pyfloat : Type.
Variable float_repr : pyfloat -> str.
Variable float_of_str : str -> pyfloat.

Local Notation "'value'" := (pyval pyfloat).
Local Notation "'enc'" := (iterencode pyfloat float_repr).
Local Notation "'scan'" := (scan_once pyfloat float_of_str).
Local Notation "'well_stored'" := (storable float_repr float_of_str).
Local Notation "'scanned_back'" := (scans_back float_repr float_of_str).

Lemma pyval_induction (P : value -> Prop) :
  P PNone -> (forall b, P (PBool b)) -> (forall z, P (PInt z)) ->
  (forall x, P (PFloat x)) -> (forall s, P (PStr s)) ->
  (forall items, Forall P items -> P (PList items)) ->
  (forall items, Forall P items -> P (PTuple items)) ->
  (forall entries, Forall (fun kv => P (snd kv)) entries -> P (PDict entries)) ->
  forall o, P o.
Proof.
  intros HN HB HI HF HS HL HT HD.
  fix IH 1. intros [ | b | z | x | s | items | items | entries].
  - exact HN.
  - apply HB.
  - apply HI.
  - apply HF.
  - apply HS.
  - apply HL. induction items as [|v items IHitems]; constructor; [apply IH|exact IHitems].
  - apply HT. induction items as [|v items IHitems]; constructor; [apply IH|exact IHitems].
  - apply HD. induction entries as [|[k v] entries IHentries]; constructor;
      [apply IH|exact IHentries].
Qed.

Lemma storable_items (items : list value) :
  List.fold_right (fun v acc => storable float_repr float_of_str v /\ acc) True items
  <-> Forall (storable float_repr float_of_str) items.
Proof.
  induction items as [|v items IH]; simpl.
  - split; [constructor|trivial].
  - rewrite IH. split; [intros [? ?]; constructor; assumption|inversion 1; split; assumption].
Qed.

Lemma storable_entries (entries : list (str * value)) :
  List.fold_right (fun kv acc => (encodable (fst kv)
                                  /\ storable float_repr float_of_str (snd kv)) /\ acc)
                  True entries
  <-> Forall (fun kv => encodable (fst kv)
                        /\ storable float_repr float_of_str (snd kv)) entries.
Proof.
  induction entries as [|kv entries IH]; simpl.
  - split; [constructor|trivial].
  - rewrite IH. split; [intros [? ?]; constructor; assumption|inversion 1; split; assumption].
Qed.

Lemma join_tail_text (sep t : str) (ts : list str) :
  join sep (t :: ts) = t ++ tail_text sep ts.
Proof.
  revert t. induction ts as [|t' ts IH]; intros t.
  - simpl. rewrite app_nil_r. reflexivity.
  - change (join sep (t :: t' :: ts)) with (t ++ sep ++ join sep (t' :: ts)).
    rewrite IH. cbn [tail_text List.flat_map]. rewrite <- !app_assoc. reflexivity.
Qed.

Lemma skip_ws_newline_indent (level : nat) (s : str) :
  skip_ws (newline_indent level ++ s) = skip_ws s.
Proof.
  unfold newline_indent. cbn [app skip_ws]. change (is_ws 10%N) with true. cbv iota.
  induction (2 * level)%nat as [|n IH]; [reflexivity|].
  cbn [List.repeat app skip_ws]. change (is_ws 32%N) with true. cbv iota. exact IH.
Qed.

Lemma skip_ws_head (c : char) (s : str) : is_ws c = false -> skip_ws (c :: s) = c :: s.
Proof. intros H. cbn [skip_ws]. rewrite H. reflexivity. Qed.

Lemma int_part_head (i : str) :
  int_part i -> exists c tl, i = c :: tl /\ (c = 45%N \/ is_digit c = true).
Proof.
  intros (sign & ds & -> & Hsign & Hds).
  destruct Hsign as [-> | ->].
  - destruct Hds as [-> | (d & ds' & -> & Hd & _)].
    + exists 48%N, []. split; [reflexivity|right; reflexivity].
    + exists d, ds'. split; [reflexivity|right; exact Hd].
  - eexists 45%N, _. split; [reflexivity|left; reflexivity].
Qed.

Lemma enc_head (v : value) (level : nat) :
  storable float_repr float_of_str v ->
  exists c tl, enc v level = c :: tl /\ value_head c.
Proof.
  unfold value_head.
  destruct v as [ | [|] | z | x | s | items | items | entries]; intros Hv.
  - eexists _, _. split; [reflexivity|]. tauto.
  - eexists _, _. split; [reflexivity|]. tauto.
  - eexists _, _. split; [reflexivity|]. tauto.
  - destruct (int_part_head _ (str_of_Z_int_part z)) as (c & tl & E & Hc).
    exists c, tl. split; [exact E|]. tauto.
  - destruct Hv as [(i & f & e & E & Hi & _) _].
    destruct (int_part_head _ Hi) as (c & tl & Ei & Hc).
    exists c, (tl ++ f ++ e). split; [|tauto].
    cbn [iterencode]. rewrite E, Ei. reflexivity.
  - eexists _, _. split; [reflexivity|]. tauto.
  - destruct items; eexists _, _; (split; [reflexivity|]); tauto.
  - destruct items; eexists _, _; (split; [reflexivity|]); tauto.
  - destruct entries; eexists _, _; (split; [reflexivity|]); tauto.
Qed.

Lemma value_head_facts (c : char) :
  value_head c -> is_ws c = false /\ (c =? 93)%N = false /\ (c =? 65279)%N = false.
Proof.
  unfold value_head. intros H.
  repeat (destruct H as [-> | H]; [repeat split; reflexivity|]).
  apply is_digit_range in H. unfold is_ws.
  repeat split; repeat (apply orb_false_intro); apply N.eqb_neq; lia.
Qed.

Lemma scan_number (i f e rest : str) (fuel : nat) :
  int_part i -> frac_part f -> exp_part e -> terminated rest = true ->
  scan (S fuel) (i ++ f ++ e ++ rest)
  = match f, e with
    | [], [] => Ok (PInt (int_of_str i), rest)
    | _, _ => Ok (PFloat (float_of_str (i ++ f ++ e)), rest)
    end.
Proof.
  intros Hi Hf He Hrest.
  pose proof (match_number_literal i f e rest Hi Hf He Hrest) as Hm.
  destruct (int_part_head i Hi) as (c & tl & Ei & Hc).
  rewrite Ei in *. cbn [app] in *.
  assert (Hcs : (c =? 34)%N = false /\ (c =? 123)%N = false /\ (c =? 91)%N = false
                /\ (110 =? c)%N = false /\ (116 =? c)%N = false /\ (102 =? c)%N = false).
  { destruct Hc as [-> | Hc]; [repeat split; reflexivity|].
    apply is_digit_range in Hc. repeat split; apply N.eqb_neq; lia. }
  destruct Hcs as (H1 & H2 & H3 & H4 & H5 & H6).
  cbn [scan_once]. rewrite H1, H2, H3.
  change (starts_with (u "null") (c :: tl ++ f ++ e ++ rest))
    with (if (110 =? c)%N then starts_with (u "ull") (tl ++ f ++ e ++ rest) else None).
  change (starts_with (u "true") (c :: tl ++ f ++ e ++ rest))
    with (if (116 =? c)%N then starts_with (u "rue") (tl ++ f ++ e ++ rest) else None).
  change (starts_with (u "false") (c :: tl ++ f ++ e ++ rest))
    with (if (102 =? c)%N then starts_with (u "alse") (tl ++ f ++ e ++ rest) else None).
  rewrite H4, H5, H6. rewrite Hm. reflexivity.
Qed.

Lemma enc_nonempty (v : value) (level : nat) :
  well_stored v -> (1 <= List.length (enc v level))%nat.
Proof.
  intros Hv. destruct (enc_head v level Hv) as (c & tl & E & _). rewrite E. simpl. lia.
Qed.

Lemma skip_ws_enc (v : value) (level : nat) (s : str) :
  well_stored v -> skip_ws (enc v level ++ s) = enc v level ++ s.
Proof.
  intros Hv. destruct (enc_head v level Hv) as (c & tl & E & Hc).
  rewrite E. cbn [app]. apply skip_ws_head. apply value_head_facts. exact Hc.
Qed.

Lemma array_loop_S (fuel : nat) (s : str) (values : list value) :
  array_loop pyfloat float_of_str (S fuel) s values
  = let* p := scan fuel s in
    match skip_ws (snd p) with
    | 93%N :: r => Ok (PList (values ++ [fst p]), r)
    | 44%N :: r => array_loop pyfloat float_of_str fuel (skip_ws r) (values ++ [fst p])
    | _ => Raise JSONDecodeError
    end.
Proof. reflexivity. Qed.

Lemma object_loop_S (fuel : nat) (s : str) (pairs : list (str * value)) :
  object_loop pyfloat float_of_str (S fuel) s pairs
  = let* k := scanstring s in
    match skip_ws (snd k) with
    | 58%N :: r =>
      let* p := scan fuel (skip_ws r) in
      match skip_ws (snd p) with
      | 125%N :: r' => Ok (PDict (dict_of_pairs pyfloat (pairs ++ [(fst k, fst p)])), r')
      | 44%N :: r' =>
        match skip_ws r' with
        | 34%N :: r'' => object_loop pyfloat float_of_str fuel r'' (pairs ++ [(fst k, fst p)])
        | _ => Raise JSONDecodeError
        end
      | _ => Raise JSONDecodeError
      end
    | _ => Raise JSONDecodeError
    end.
Proof. reflexivity. Qed.

Lemma array_loop_items (level : nat) (closing rest : str) :
  skip_ws closing = 93%N :: rest -> terminated closing = true ->
  forall (vs : list value) (v : value) (acc : list value) (fuel : nat),
    Forall scanned_back (v :: vs) -> Forall (fun v => well_stored v) (v :: vs) ->
    (List.length (enc v level
                  ++ tail_text (sep_at level) (List.map (fun v => enc v level) vs)) < fuel)%nat ->
    array_loop pyfloat float_of_str fuel
      (enc v level ++ tail_text (sep_at level) (List.map (fun v => enc v level) vs) ++ closing)
      acc
    = Ok (PList (acc ++ List.map jsonify (v :: vs)), rest).
Proof.
  intros Hclose Hterm.
  induction vs as [|v2 vs IH]; intros v acc fuel Hscan Hstore Hfuel.
  - destruct fuel as [|fuel]; [lia|].
    inversion Hscan as [|? ? Hv _]; subst.
    cbn [List.map tail_text List.flat_map app] in *. rewrite app_nil_r in Hfuel.
    rewrite array_loop_S. rewrite (Hv level closing fuel Hterm) by lia.
    cbn [bind fst snd]. rewrite Hclose. reflexivity.
  - destruct fuel as [|fuel]; [lia|].
    inversion Hscan as [|? ? Hv Hscan']; subst.
    inversion Hstore as [|? ? Hsv Hstore']; subst.
    inversion Hstore' as [|? ? Hsv2 _]; subst.
    cbn [List.map tail_text List.flat_map] in *.
    fold (tail_text (sep_at level) (List.map (fun v => enc v level) vs)) in *.
    rewrite !length_app in Hfuel. cbn [sep_at List.length] in Hfuel.
    pose proof (enc_nonempty v level Hsv) as Hn.
    rewrite array_loop_S.
    rewrite <- !app_assoc.
    rewrite (Hv level _ fuel) by (try reflexivity; lia).
    cbn [bind fst snd sep_at app].
    rewrite skip_ws_head by reflexivity.
    rewrite skip_ws_newline_indent.
    rewrite skip_ws_enc by exact Hsv2.
    rewrite (IH v2 (acc ++ [jsonify v]) fuel Hscan' Hstore').
    + rewrite <- app_assoc. reflexivity.
    + rewrite length_app. lia.
Qed.

Lemma item_text_body (level : nat) (kv : str * value) :
  item_text float_repr level kv = 34%N :: item_body float_repr level kv.
Proof.
  unfold item_text, item_body, encode_basestring. cbn [app].
  rewrite <- app_assoc. reflexivity.
Qed.

Lemma object_loop_items (level : nat) (closing rest : str) :
  skip_ws closing = 125%N :: rest -> terminated closing = true ->
  forall (es : list (str * value)) (kv : str * value) (acc : list (str * value)) (fuel : nat),
    Forall (fun kv => scanned_back (snd kv)) (kv :: es) ->
    Forall (fun kv => well_stored (snd kv)) (kv :: es) ->
    (List.length (item_body float_repr level kv
                  ++ tail_text (sep_at level) (List.map (item_text float_repr level) es)) < fuel)%nat ->
    object_loop pyfloat float_of_str fuel
      (item_body float_repr level kv ++ tail_text (sep_at level) (List.map (item_text float_repr level) es) ++ closing)
      acc
    = Ok (PDict (dict_of_pairs pyfloat (acc ++ List.map jsonify_item (kv :: es))), rest).
Proof.
  intros Hclose Hterm.
  induction es as [|kv2 es IH]; intros [k v] acc fuel Hscan Hstore Hfuel.
  - destruct fuel as [|fuel]; [lia|].
    inversion Hscan as [|? ? Hv _]; subst. cbn [snd] in Hv.
    cbn [List.map tail_text List.flat_map app] in *. rewrite app_nil_r in Hfuel.
    unfold item_body in *. cbn [fst snd] in *.
    rewrite length_app in Hfuel. cbn [List.length] in Hfuel.
    rewrite object_loop_S. rewrite <- app_assoc. cbn [app].
    rewrite scanstring_escaped. cbn [bind fst snd].
    rewrite skip_ws_head by reflexivity.
    change (skip_ws (32%N :: enc v level ++ closing)) with (skip_ws (enc v level ++ closing)).
    inversion Hstore as [|? ? Hsv _]; subst. cbn [snd] in Hsv.
    rewrite skip_ws_enc by exact Hsv.
    rewrite (Hv level closing fuel Hterm) by lia.
    cbn [bind fst snd]. rewrite Hclose. reflexivity.
  - destruct fuel as [|fuel]; [lia|].
    inversion Hscan as [|? ? Hv Hscan']; subst. cbn [snd] in Hv.
    inversion Hstore as [|? ? Hsv Hstore']; subst. cbn [snd] in Hsv.
    cbn [List.map tail_text List.flat_map] in *.
    fold (tail_text (sep_at level) (List.map (item_text float_repr level) es)) in *.
    rewrite item_text_body in *.
    unfold item_body at 1. unfold item_body at 1 in Hfuel. cbn [fst snd] in *.
    rewrite ?length_app in Hfuel. cbn [sep_at List.length] in Hfuel.
    rewrite ?length_app in Hfuel.
    rewrite object_loop_S. rewrite <- !app_assoc. cbn [app].
    rewrite scanstring_escaped. cbn [bind fst snd].
    rewrite skip_ws_head by reflexivity.
    match goal with
    | |- context [skip_ws (32%N :: ?X)] => change (skip_ws (32%N :: X)) with (skip_ws X)
    end.
    rewrite skip_ws_enc by exact Hsv.
    rewrite (Hv level _ fuel) by (try reflexivity; lia).
    cbn [bind fst snd sep_at app].
    rewrite skip_ws_head by reflexivity.
    rewrite skip_ws_newline_indent.
    rewrite skip_ws_head by reflexivity.
    rewrite (IH kv2 (acc ++ [(k, jsonify v)]) fuel Hscan' Hstore').
    + rewrite <- app_assoc. reflexivity.
    + rewrite length_app. lia.
Qed.

Lemma dict_set_fresh (k : str) (v : value) (d : list (str * value)) :
  ~ In k (List.map fst d) -> dict_set pyfloat k v d = d ++ [(k, v)].
Proof.
  induction d as [|[k' v'] d IH]; intros Hk; [reflexivity|].
  cbn [dict_set app]. unfold str_eqb.
  rewrite bool_decide_eq_false_2 by (intros ->; apply Hk; left; reflexivity).
  rewrite IH; [reflexivity|]. intros H. apply Hk. right. exact H.
Qed.

Lemma dict_of_pairs_nodup (pairs : list (str * value)) :
  List.NoDup (List.map fst pairs) -> dict_of_pairs pyfloat pairs = pairs.
Proof.
  unfold dict_of_pairs.
  assert (G : forall l d, List.NoDup (List.map fst (d ++ l)) ->
              List.fold_left (fun d kv => dict_set pyfloat (fst kv) (snd kv) d) l d = d ++ l).
  { induction l as [|[k v] l IH]; intros d Hnd.
    - rewrite app_nil_r. reflexivity.
    - cbn [List.fold_left fst snd].
      rewrite dict_set_fresh.
      + rewrite IH; rewrite <- app_assoc; [reflexivity|exact Hnd].
      + rewrite map_app in Hnd. cbn [List.map fst] in Hnd.
        apply NoDup_remove_2 in Hnd. intros H. apply Hnd. apply in_or_app. left. exact H. }
  intros H. apply (G pairs []). exact H.
Qed.

Lemma scan_once_S (fuel : nat) (c : char) (rest : str) :
  scan (S fuel) (c :: rest)
  = if (c =? 34)%N then let* p := scanstring rest in Ok (PStr (fst p), snd p)
    else if (c =? 123)%N then
      match skip_ws rest with
      | 125%N :: r => Ok (PDict [], r)
      | 34%N :: r => object_loop pyfloat float_of_str fuel r []
      | _ => Raise JSONDecodeError
      end
    else if (c =? 91)%N then
      match skip_ws rest with
      | c' :: r' => if (c' =? 93)%N then Ok (PList [], r')
                    else array_loop pyfloat float_of_str fuel (skip_ws rest) []
      | [] => array_loop pyfloat float_of_str fuel (skip_ws rest) []
      end
    else scan (S fuel) (c :: rest).
Proof.
  destruct (c =? 34)%N eqn:E1; [cbn [scan_once]; rewrite E1; reflexivity|].
  destruct (c =? 123)%N eqn:E2; [cbn [scan_once]; rewrite E1, E2; reflexivity|].
  destruct (c =? 91)%N eqn:E3; [cbn [scan_once]; rewrite E1, E2, E3; reflexivity|].
  reflexivity.
Qed.

Lemma terminated_newline_indent (level : nat) (s : str) :
  terminated (newline_indent level ++ s) = true.
Proof. reflexivity. Qed.

Lemma scan_array (items : list value) (level : nat) (rest : str) (fuel : nat) :
  items <> [] ->
  Forall scanned_back items -> Forall (fun v => well_stored v) items ->
  let text := u "[" ++ newline_indent (S level)
              ++ join (u "," ++ newline_indent (S level))
                      (List.map (fun v => enc v (S level)) items)
              ++ newline_indent level ++ u "]" in
  (List.length text <= fuel)%nat ->
  scan fuel (text ++ rest) = Ok (PList (List.map jsonify items), rest).
Proof.
  intros Hne Hscan Hstore text Hfuel. subst text.
  destruct items as [|v vs]; [contradiction|].
  change (u "," ++ newline_indent (S level)) with (sep_at (S level)) in *.
  cbn [List.map] in *. rewrite join_tail_text in *.
  change (u "[" ++ ?X) with (91%N :: X) in *.
  destruct fuel as [|fuel]; [simpl in Hfuel; lia|].
  cbn [app]. rewrite scan_once_S.
  change (91 =? 34)%N with false. change (91 =? 123)%N with false.
  change (91 =? 91)%N with true. cbv iota.
  rewrite <- !app_assoc.
  rewrite skip_ws_newline_indent.
  inversion Hstore as [|? ? Hsv _]; subst.
  rewrite skip_ws_enc by exact Hsv.
  destruct (enc_head v (S level) Hsv) as (c & tl & E & Hc).
  destruct (value_head_facts c Hc) as (_ & Hc93 & _).
  rewrite E at 1. cbn [app]. rewrite Hc93.
  change (u "]" ++ rest) with (93%N :: rest).
  rewrite (array_loop_items (S level) (newline_indent level ++ 93%N :: rest) rest).
  - reflexivity.
  - rewrite skip_ws_newline_indent. reflexivity.
  - reflexivity.
  - exact Hscan.
  - exact Hstore.
  - cbn [List.length] in Hfuel. rewrite !length_app in Hfuel. rewrite length_app.
    assert (1 <= List.length (newline_indent (S level)))%nat by (cbn [newline_indent List.length]; lia).
    lia.
Qed.

Lemma scan_object (entries : list (str * value)) (level : nat) (rest : str) (fuel : nat) :
  entries <> [] ->
  Forall (fun kv => scanned_back (snd kv)) entries ->
  Forall (fun kv => well_stored (snd kv)) entries ->
  List.NoDup (List.map fst entries) ->
  let text := u "{" ++ newline_indent (S level)
              ++ join (u "," ++ newline_indent (S level))
                      (List.map (fun kv => encode_basestring (fst kv) ++ u ": "
                                           ++ enc (snd kv) (S level)) entries)
              ++ newline_indent level ++ u "}" in
  (List.length text <= fuel)%nat ->
  scan fuel (text ++ rest) = Ok (PDict (List.map jsonify_item entries), rest).
Proof.
  intros Hne Hscan Hstore Hnd text Hfuel. subst text.
  destruct entries as [|kv es]; [contradiction|].
  change (u "," ++ newline_indent (S level)) with (sep_at (S level)) in *.
  change (fun kv : str * value => encode_basestring (fst kv) ++ u ": " ++ enc (snd kv) (S level))
    with (item_text float_repr (S level)) in *.
  cbn [List.map] in *. rewrite join_tail_text in *.
  change (u "{" ++ ?X) with (123%N :: X) in *.
  destruct fuel as [|fuel]; [simpl in Hfuel; lia|].
  cbn [app]. rewrite scan_once_S.
  change (123 =? 34)%N with false. change (123 =? 123)%N with true. cbv iota.
  rewrite <- !app_assoc.
  rewrite skip_ws_newline_indent.
  rewrite item_text_body in *. cbn [app].
  rewrite skip_ws_head by reflexivity.
  change (u "}" ++ rest) with (125%N :: rest).
  rewrite (object_loop_items (S level) (newline_indent level ++ 125%N :: rest) rest).
  - cbn [app]. rewrite dict_of_pairs_nodup; [reflexivity|].
    change (jsonify_item kv :: List.map jsonify_item es) with (List.map jsonify_item (kv :: es)).
    rewrite map_map. exact Hnd.
  - rewrite skip_ws_newline_indent. reflexivity.
  - reflexivity.
  - exact Hscan.
  - exact Hstore.
  - cbn [List.length] in Hfuel. rewrite !length_app in Hfuel. cbn [List.length] in Hfuel.
    rewrite length_app.
    assert (1 <= List.length (newline_indent (S level)))%nat by (cbn [newline_indent List.length]; lia).
    unfold str, char in *. lia.
Qed.

Theorem scan_encoded (v : value) : well_stored v -> scanned_back v.
Proof.
  induction v as [ | b | z | x | s | items IH | items IH | entries IH] using pyval_induction;
    intros Hv level rest fuel Hrest Hfuel.
  - destruct fuel as [|fuel]; [simpl in Hfuel; lia|]. reflexivity.
  - destruct fuel as [|fuel]; [destruct b; simpl in Hfuel; lia|]. destruct b; reflexivity.
  - destruct fuel as [|fuel];
      [pose proof (enc_nonempty (PInt z) level I); lia|].
    cbn [iterencode jsonify].
    pose proof (scan_number (str_of_Z z) [] [] rest fuel (str_of_Z_int_part z)
                  (or_introl eq_refl) (or_introl eq_refl) Hrest) as H.
    cbn [app] in H. rewrite H. rewrite int_of_str_of_Z. reflexivity.
  - destruct fuel as [|fuel];
      [pose proof (enc_nonempty (PFloat x) level Hv); lia|].
    cbn [iterencode jsonify].
    destruct Hv as [(i & f & e & E & Hi & Hf & He & Hfe) Hround].
    rewrite E. rewrite <- !app_assoc.
    rewrite (scan_number i f e rest fuel Hi Hf He Hrest).
    rewrite <- E, Hround.
    destruct f; [destruct e; [destruct Hfe; contradiction|reflexivity]|reflexivity].
  - destruct fuel as [|fuel]; [simpl in Hfuel; lia|].
    cbn [iterencode jsonify].
    destruct (scan_basestring s rest) as (body & E & Hb).
    rewrite E, scan_once_S. change (34 =? 34)%N with true. cbv iota.
    rewrite Hb. reflexivity.
  - cbn [storable] in Hv. apply storable_items in Hv.
    destruct items as [|v vs].
    + destruct fuel as [|fuel]; [simpl in Hfuel; lia|]. reflexivity.
    + apply scan_array; try assumption; [discriminate|].
      rewrite List.Forall_forall in *. intros w Hw. apply IH; [exact Hw|]. apply Hv. exact Hw.
  - cbn [storable] in Hv. apply storable_items in Hv.
    destruct items as [|v vs].
    + destruct fuel as [|fuel]; [simpl in Hfuel; lia|]. reflexivity.
    + apply scan_array; try assumption; [discriminate|].
      rewrite List.Forall_forall in *. intros w Hw. apply IH; [exact Hw|]. apply Hv. exact Hw.
  - cbn [storable] in Hv. destruct Hv as [Hnd Hv]. apply storable_entries in Hv.
    destruct entries as [|kv es].
    + destruct fuel as [|fuel]; [simpl in Hfuel; lia|]. reflexivity.
    + apply scan_object; try assumption; [discriminate| |].
      * rewrite List.Forall_forall in *. intros w Hw. apply IH; [exact Hw|]. apply Hv. exact Hw.
      * rewrite List.Forall_forall in *. intros w Hw. apply Hv. exact Hw.
Qed.

Theorem loads_dumps (v : value) :
  well_stored v ->
  loads pyfloat float_of_str (dumps pyfloat float_repr v) = Ok (jsonify v).
Proof.
  intros Hv. unfold loads, dumps.
  destruct (enc_head v 0 Hv) as (c & tl & E & Hc).
  destruct (value_head_facts c Hc) as (Hws & _ & Hbom).
  rewrite E at 1. rewrite Hbom.
  replace (skip_ws (enc v 0)) with (enc v 0 ++ [])
    by (rewrite app_nil_r, E; symmetry; apply skip_ws_head; exact Hws).
  rewrite (scan_encoded v Hv 0%nat [] _ eq_refl (Nat.le_succ_diag_r _)).
  reflexivity.
Qed.

Lemma jsonify_native (v : value) : json_native v -> jsonify v = v.
Proof.
  induction v as [ | b | z | x | s | items IH | items IH | entries IH] using pyval_induction;
    intros Hv; try reflexivity.
  - cbn [jsonify]. f_equal. cbn [json_native] in Hv.
    induction IH as [|v vs Hv1 _ IHvs]; [reflexivity|].
    cbn [List.fold_right] in Hv. destruct Hv as [Hn Hns].
    cbn [List.map]. rewrite Hv1 by exact Hn. rewrite IHvs by exact Hns. reflexivity.
  - destruct Hv.
  - cbn [jsonify]. f_equal. cbn [json_native] in Hv.
    induction IH as [|[k v] es Hv1 _ IHes]; [reflexivity|].
    cbn [List.fold_right snd] in Hv. destruct Hv as [Hn Hns].
    cbn [List.map fst snd] in *. rewrite Hv1 by exact Hn. rewrite IHes by exact Hns.
    reflexivity.
Qed.

(** *** The characters of an encoded value *)

Lemma plain_ascii (c : char) : (32 <= c <= 126)%N -> plain c.
Proof.
  intros H. split; [|lia]. unfold is_scalar.
  apply orb_true_intro. left. apply N.ltb_lt. lia.
Qed.

Lemma plain_newline : plain 10%N.
Proof. split; [reflexivity|discriminate]. Qed.

Lemma plain_all_ascii (s : str) :
  forallb (fun c => (32 <=? c) && (c <=? 126))%N s = true -> Forall plain s.
Proof.
  intros H. apply List.Forall_forall. intros c Hc.
  rewrite forallb_forall in H. specialize (H c Hc).
  apply andb_prop in H as [H1 H2]. apply N.leb_le in H1, H2. apply plain_ascii. lia.
Qed.

Lemma plain_hex_digit (n : N) : (n < 16)%N -> plain (hex_digit n).
Proof.
  intros H. apply plain_ascii. unfold hex_digit.
  destruct (n <? 10)%N eqn:E; [apply N.ltb_lt in E|apply N.ltb_ge in E]; lia.
Qed.

Lemma plain_escape_char (c : char) : is_scalar c = true -> Forall plain (escape_char c).
Proof.
  intros Hc. unfold escape_char.
  repeat match goal with
         | |- Forall plain (if ?b then _ else _) =>
           destruct b eqn:?; [apply plain_all_ascii; vm_compute; reflexivity|]
         end.
  destruct (c <? 32)%N eqn:E.
  - apply N.ltb_lt in E.
    change (u "\u00" ++ [hex_digit (c / 16)%N; hex_digit (c mod 16)%N])
      with ([92%N; 117%N; 48%N; 48%N] ++ [hex_digit (c / 16)%N; hex_digit (c mod 16)%N]).
    apply Forall_app. split; [apply plain_all_ascii; reflexivity|].
    constructor; [|constructor; [|constructor]]; apply plain_hex_digit.
    + apply N.Div0.div_lt_upper_bound. lia.
    + apply N.mod_upper_bound. discriminate.
  - apply N.ltb_ge in E. constructor; [|constructor]. split; [exact Hc|lia].
Qed.

Lemma plain_basestring (s : str) : encodable s -> Forall plain (encode_basestring s).
Proof.
  intros Hs. unfold encode_basestring.
  constructor; [apply plain_ascii; lia|].
  apply Forall_app. split; [|constructor; [apply plain_ascii; lia|constructor]].
  induction Hs as [|c s Hc _ IH]; [constructor|].
  cbn [List.flat_map]. apply Forall_app. split; [apply plain_escape_char; exact Hc|exact IH].
Qed.

Lemma plain_digits (ds : str) : all_digits ds -> Forall plain ds.
Proof.
  intros H. eapply List.Forall_impl; [|exact H].
  intros c Hc. apply is_digit_range in Hc. apply plain_ascii. lia.
Qed.

Lemma plain_int_part (i : str) : int_part i -> Forall plain i.
Proof.
  intros (sign & ds & -> & Hsign & Hds). apply Forall_app. split.
  - destruct Hsign as [-> | ->]; [constructor|].
    constructor; [apply plain_ascii; lia|constructor].
  - destruct Hds as [-> | (d & ds' & -> & Hd & _ & Hds')].
    + constructor; [apply plain_ascii; lia|constructor].
    + apply plain_digits. constructor; assumption.
Qed.

Lemma plain_float_literal (t : str) : float_literal t -> Forall plain t.
Proof.
  intros (i & f & e & -> & Hi & Hf & He & _).
  apply Forall_app. split; [apply plain_int_part; exact Hi|].
  apply Forall_app. split.
  - destruct Hf as [-> | (ds & -> & _ & Hds)]; [constructor|].
    constructor; [apply plain_ascii; lia|apply plain_digits; exact Hds].
  - destruct He as [-> | (ec & sign & ds & -> & Hec & Hsign & _ & Hds)]; [constructor|].
    constructor; [destruct Hec as [-> | ->]; apply plain_ascii; lia|].
    apply Forall_app. split; [|apply plain_digits; exact Hds].
    destruct Hsign as [-> | [-> | ->]]; [constructor| |];
      (constructor; [apply plain_ascii; lia|constructor]).
Qed.

Lemma plain_newline_indent (level : nat) : Forall plain (newline_indent level).
Proof.
  unfold newline_indent. constructor; [apply plain_newline|].
  induction (2 * level)%nat; constructor; [apply plain_ascii; lia|assumption].
Qed.

Lemma Forall_join {P : char -> Prop} (sep : str) (texts : list str) :
  Forall P sep -> Forall (Forall P) texts -> Forall P (join sep texts).
Proof.
  intros Hsep Ht. induction Ht as [|t ts Hp _ IH]; [constructor|].
  destruct ts as [|t' ts']; [exact Hp|].
  change (join sep (t :: t' :: ts')) with (t ++ sep ++ join sep (t' :: ts')).
  apply Forall_app. split; [exact Hp|]. apply Forall_app. split; [exact Hsep|exact IH].
Qed.

Lemma plain_enc (v : value) : well_stored v -> forall level, Forall plain (enc v level).
Proof.
  induction v as [ | b | z | x | s | items IH | items IH | entries IH] using pyval_induction;
    intros Hv level.
  - apply plain_all_ascii. reflexivity.
  - destruct b; apply plain_all_ascii; reflexivity.
  - apply plain_int_part, str_of_Z_int_part.
  - apply plain_float_literal. apply Hv.
  - apply plain_basestring. exact Hv.
  - cbn [storable] in Hv. apply storable_items in Hv. cbn [iterencode].
    destruct items as [|v vs]; [apply plain_all_ascii; reflexivity|].
    apply Forall_app. split; [apply plain_all_ascii; reflexivity|].
    apply Forall_app. split; [apply plain_newline_indent|].
    apply Forall_app. split.
    + apply Forall_join.
      * apply Forall_app. split; [apply plain_all_ascii; reflexivity|apply plain_newline_indent].
      * apply List.Forall_forall. intros t Ht. apply in_map_iff in Ht as (w & <- & Hw).
        rewrite List.Forall_forall in IH, Hv. apply IH; [exact Hw|apply Hv; exact Hw].
    + apply Forall_app. split; [apply plain_newline_indent|apply plain_all_ascii; reflexivity].
  - cbn [storable] in Hv. apply storable_items in Hv. cbn [iterencode].
    destruct items as [|v vs]; [apply plain_all_ascii; reflexivity|].
    apply Forall_app. split; [apply plain_all_ascii; reflexivity|].
    apply Forall_app. split; [apply plain_newline_indent|].
    apply Forall_app. split.
    + apply Forall_join.
      * apply Forall_app. split; [apply plain_all_ascii; reflexivity|apply plain_newline_indent].
      * apply List.Forall_forall. intros t Ht. apply in_map_iff in Ht as (w & <- & Hw).
        rewrite List.Forall_forall in IH, Hv. apply IH; [exact Hw|apply Hv; exact Hw].
    + apply Forall_app. split; [apply plain_newline_indent|apply plain_all_ascii; reflexivity].
  - cbn [storable] in Hv. destruct Hv as [_ Hv]. apply storable_entries in Hv.
    cbn [iterencode].
    destruct entries as [|kv es]; [apply plain_all_ascii; reflexivity|].
    apply Forall_app. split; [apply plain_all_ascii; reflexivity|].
    apply Forall_app. split; [apply plain_newline_indent|].
    apply Forall_app. split.
    + apply Forall_join.
      * apply Forall_app. split; [apply plain_all_ascii; reflexivity|apply plain_newline_indent].
      * apply List.Forall_forall. intros t Ht. apply in_map_iff in Ht as (w & <- & Hw).
        rewrite List.Forall_forall in IH, Hv. destruct (Hv w Hw) as [Hk Hs].
        apply Forall_app. split; [apply plain_basestring; exact Hk|].
        apply Forall_app. split; [apply plain_all_ascii; reflexivity|].
        apply IH; assumption.
    + apply Forall_app. split; [apply plain_newline_indent|apply plain_all_ascii; reflexivity].
Qed.

(** An encoded value survives a UTF-8 text file. *)
Lemma text_file_roundtrip (text : str) :
  Forall plain text ->
  exists bytes, utf8_encode text = Ok bytes
                /\ utf8_decode bytes = Ok text /\ universal_newlines text = text.
Proof.
  intros H.
  destruct (utf8_decode_encode text) as (bytes & He & Hd).
  { eapply List.Forall_impl; [|exact H]. intros c [Hc _]. exact Hc. }
  exists bytes. split; [exact He|]. split; [exact Hd|].
  apply universal_newlines_id. eapply List.Forall_impl; [|exact H]. intros c [_ Hc]. exact Hc.
Qed.

End ValueFacts.

End JsonFacts.

(** ** utils.py: the transcript store *)

Module StoreFacts.

Import OS Utils Json Store JsonFacts.

Lemma Forall_split_ws_from {P : char -> Prop} (s : str) : forall cur,
  Forall P cur -> Forall P s -> Forall (Forall P) (split_ws_from cur s).
Proof.
  induction s as [|c s IH]; intros cur Hcur Hs; cbn [split_ws_from].
  - destruct cur; constructor; [apply Forall_rev; exact Hcur|constructor].
  - inversion Hs as [|? ? Hc Hs']; subst.
    destruct (isspace c).
    + destruct cur; [apply IH; [constructor|exact Hs']|].
      constructor; [apply Forall_rev; exact Hcur|apply IH; [constructor|exact Hs']].
    + apply IH; [constructor; assumption|exact Hs'].
Qed.

Lemma Forall_rsplit_once {P : char -> Prop} (sep : char) (s : str) : forall a b,
  rsplit_once sep s = Some (a, b) -> Forall P s -> Forall P a.
Proof.
  induction s as [|c s IH]; intros a b H Hs; [discriminate|].
  inversion Hs as [|? ? Hc Hs']; subst. cbn [rsplit_once] in H.
  destruct (rsplit_once sep s) as [[a' b']|].
  - injection H as <- <-. constructor; [exact Hc|]. eapply IH; [reflexivity|exact Hs'].
  - destruct (c =? sep)%N; [|discriminate]. injection H as <- <-. constructor.
Qed.

Lemma Forall_firstn_str {P : char -> Prop} (n : nat) (s : str) :
  Forall P s -> Forall P (List.firstn n s).
Proof.
  intros H. revert n. induction H; intros [|n]; cbn [List.firstn]; constructor; auto.
Qed.

Lemma Forall_summarize_short {P : char -> Prop} (text : str) (max_length : Z) :
  P 32%N -> P 46%N -> Forall P text -> Forall P (summarize_short text max_length).
Proof.
  intros Hsp Hdot Ht. unfold summarize_short.
  destruct text as [|c t]; [constructor|].
  assert (Hj : Forall P (join (u " ") (split_ws (c :: t)))).
  { apply Forall_join; [repeat constructor; exact Hsp|].
    apply Forall_split_ws_from; [constructor|exact Ht]. }
  destruct (_ <=? _)%Z; [exact Hj|].
  apply Forall_app. split; [|repeat constructor; exact Hdot].
  assert (Hc : Forall P (slice_to max_length (join (u " ") (split_ws (c :: t))))).
  { unfold slice_to. destruct (0 <=? max_length)%Z; apply Forall_firstn_str; exact Hj. }
  unfold rsplit1.
  destruct (rsplit_once 32%N _) as [[a b]|] eqn:E; cbn [List.nth]; [|exact Hc].
  eapply Forall_rsplit_once; [exact E|exact Hc].
Qed.

Lemma path_join_neq (dir name : str) :
  dir <> [] -> (exists c tl, name = c :: tl /\ (c =? 47)%N = false) ->
  path_join dir name <> dir.
Proof.
  intros Hdir (c & tl & -> & Hc) E.
  unfold path_join in E. rewrite Hc in E.
  destruct dir as [|d dir']; [contradiction|].
  apply (f_equal (@List.length _)) in E.
  destruct (endswith (d :: dir') (u "/")); rewrite !length_app in E; cbn [List.length] in E; lia.
Qed.

Lemma distinct_NoDup (l : list str) : distinct l = true -> List.NoDup l.
Proof.
  induction l as [|x l IH]; cbn [distinct]; intros H; constructor.
  - apply andb_prop in H as [H _]. apply negb_true_iff in H.
    intros Hin. assert (E : existsb (str_eqb x) l = true).
    { apply existsb_exists. exists x. split; [exact Hin|].
      unfold str_eqb. apply bool_decide_eq_true_2. reflexivity. }
    congruence.
  - apply IH. apply andb_prop in H as [_ H]. exact H.
Qed.

Lemma encodable_check (s : str) : forallb is_scalar s = true -> encodable s.
Proof.
  intros H. apply List.Forall_forall. intros c Hc.
  rewrite forallb_forall in H. apply H. exact Hc.
Qed.

Ltac solve_literal :=
  first [ apply distinct_NoDup; vm_compute; reflexivity
        | apply encodable_check; vm_compute; reflexivity ].

Lemma encodable_summary (text : str) (n : Z) :
  encodable text -> encodable (summarize_short text n).
Proof. intros H. apply Forall_summarize_short; [reflexivity|reflexivity|exact H]. Qed.

Section SaveLoad.

Variable pyfloat : Type.
Variable float_repr : pyfloat -> str.
Variable float_of_str : str -> pyfloat.
Variable clock : nat -> Q.
Variable isoformat : Q -> str.
Variable strftime_readable : Q -> str.
Variable strftime_stamp : Q -> str.

Local Notation "'value'" := (pyval pyfloat).
Local Notation "'well_stored'" := (storable float_repr float_of_str).
Local Notation "'record_of'" := (conversation_data pyfloat isoformat strftime_readable).

Lemma storable_agent_record (role output : str) :
  encodable role -> encodable output -> well_stored (agent_record pyfloat role output).
Proof.
  intros Hr Ho. unfold agent_record. cbn [storable List.map fst snd List.fold_right].
  split; [solve_literal|].
  repeat split; try exact Hr; try exact Ho; try (apply encodable_summary; exact Ho);
    solve_literal.
Qed.

Lemma storable_record (t0 t1 : Q) (user_data sip_calc : value)
  (advisor_output risk_output planner_output : str) :
  well_stored user_data -> well_stored sip_calc ->
  encodable advisor_output -> encodable risk_output -> encodable planner_output ->
  encodable (isoformat t0) -> encodable (strftime_readable t1) ->
  well_stored (record_of t0 t1 user_data sip_calc advisor_output risk_output planner_output).
Proof.
  intros Hu Hs Ha Hr Hp Hi Hd. unfold conversation_data.
  cbn [storable List.map fst snd List.fold_right].
  split; [solve_literal|].
  repeat match goal with
         | |- _ /\ _ => split
         | |- True => exact I
         end;
    try assumption;
    try (apply storable_agent_record; [solve_literal|assumption]);
    solve_literal.
Qed.

Lemma native_record (t0 t1 : Q) (user_data sip_calc : value)
  (advisor_output risk_output planner_output : str) :
  json_native user_data -> json_native sip_calc ->
  json_native (record_of t0 t1 user_data sip_calc advisor_output risk_output planner_output).
Proof.
  intros Hu Hs. unfold conversation_data, agent_record.
  cbn [json_native List.fold_right snd]. tauto.
Qed.

Lemma transcript_name_head (t : Q) :
  exists c tl, transcript_name strftime_stamp t = c :: tl /\ (c =? 47)%N = false.
Proof.
  exists 102%N, (u "inance_plan_" ++ strftime_stamp t ++ u ".json").
  split; reflexivity.
Qed.

Lemma makedirs_ok (files : FileSystem) (dir : str) (now : Q) :
  dir <> [] -> (forall m c, files !! dir <> Some (File m c)) ->
  exists files', makedirs files dir now = Ok files'
                 /\ forall path, path <> dir -> files' !! path = files !! path.
Proof.
  intros Hdir Hfile. unfold makedirs.
  destruct dir as [|d dir']; [contradiction|].
  destruct (files !! _) as [[st names|m c]|] eqn:E.
  - exists files. split; [reflexivity|]. intros; reflexivity.
  - exfalso. apply (Hfile m c). first [reflexivity|exact E].
  - eexists. split; [reflexivity|]. intros path Hp.
    apply lookup_insert_ne. congruence.
Qed.

Lemma add_name_lookup (files : FileSystem) (dir name path : str) :
  path <> dir -> add_name files dir name !! path = files !! path.
Proof.
  intros Hp. unfold add_name.
  destruct (files !! _) as [[st names|m c]|]; try reflexivity.
  destruct (bool_decide _); [reflexivity|]. apply lookup_insert_ne. congruence.
Qed.


End SaveLoad.

Lemma all_digits_check (ds : str) : forallb is_digit ds = true -> all_digits ds.
Proof.
  intros H. apply List.Forall_forall. intros c Hc.
  rewrite forallb_forall in H. apply H. exact Hc.
Qed.

(** A decimal numeral with a fraction is a float literal. *)
Lemma float_literal_decimal (d : char) (ds fs : str) :
  is_digit d = true -> d <> 48%N -> forallb is_digit ds = true ->
  fs <> [] -> forallb is_digit fs = true ->
  float_literal ((d :: ds) ++ 46%N :: fs).
Proof.
  intros Hd Hd0 Hds Hne Hfs.
  exists (d :: ds), (46%N :: fs), []. split; [rewrite app_nil_r; reflexivity|].
  split.
  { exists [], (d :: ds). split; [reflexivity|]. split; [left; reflexivity|].
    right. exists d, ds. repeat split; try assumption. apply all_digits_check. exact Hds. }
  split.
  { right. exists fs. repeat split; try assumption. apply all_digits_check. exact Hfs. }
  split; [left; reflexivity|]. left. discriminate.
Qed.

Lemma sample_calc_storable : storable (fun x : literal_float => x) (fun x => x) sample_calc.
Proof.
  unfold sample_calc. cbn [storable List.map fst snd List.fold_right].
  split; [solve_literal|].
  repeat match goal with
         | |- _ /\ _ => split
         | |- True => exact I
         | |- encodable _ => solve_literal
         | |- float_ok _ _ _ => split; [|reflexivity]
         end.
  - apply (float_literal_decimal 49%N (u "2244") (u "45")); try reflexivity; discriminate.
  - apply (float_literal_decimal 55%N (u "34666") (u "86")); try reflexivity; discriminate.
Qed.

Lemma user_with_list_storable :
  storable (fun x : literal_float => x) (fun x => x) user_with_list.
Proof.
  unfold user_with_list. cbn [storable List.map fst snd List.fold_right].
  split; [solve_literal|].
  repeat match goal with
         | |- _ /\ _ => split
         | |- True => exact I
         | |- encodable _ => solve_literal
         end.
Qed.



End StoreFacts.
(** ** calc.py: the payments, the figures and the text of an amount *)

Module CalcMore.

Import Calc Schedule PyNumFacts CalcFacts.
Open Scope Q_scope.

(** *** Rounding, and the ways a calculator ends *)

Lemma round_half_even_comp (x y : Q) : x == y -> round_half_even x = round_half_even y.
Proof.
  intros H. unfold round_half_even.
  rewrite (Qfloor_comp _ _ H).
  assert (E : Qcompare (x - inject_Z (Qfloor y)) (1 # 2) = Qcompare (y - inject_Z (Qfloor y)) (1 # 2)).
  { apply Qcompare_comp; [rewrite H; reflexivity|reflexivity]. }
  rewrite E. reflexivity.
Qed.

Lemma round2_comp (x y : Q) : x == y -> round2 x = round2 y.
Proof.
  intros H. unfold round2. rewrite (round_half_even_comp (x * 100) (y * 100)); [reflexivity|].
  rewrite H. reflexivity.
Qed.

Lemma round_half_even_close (x : Q) :
  inject_Z (round_half_even x) - x <= 1 # 2 /\ x - inject_Z (round_half_even x) <= 1 # 2.
Proof.
  unfold round_half_even.
  pose proof (Qfloor_le x) as Hl. pose proof (Qlt_floor x) as Hu.
  rewrite inject_Z_plus in Hu. change (inject_Z 1) with 1 in Hu.
  destruct (Qcompare (x - inject_Z (Qfloor x)) (1 # 2)) eqn:E.
  - apply Qeq_alt in E. destruct (Z.even _); [|rewrite inject_Z_plus; change (inject_Z 1) with 1]; lra.
  - apply Qlt_alt in E. lra.
  - apply Qgt_alt in E. rewrite inject_Z_plus. change (inject_Z 1) with 1. lra.
Qed.

Lemma guard_false (years : Z) (x : Q) :
  (years <=? 0)%Z || Qle_bool x 0 = false <-> (0 < years)%Z /\ 0 < x.
Proof.
  rewrite orb_false_iff. split.
  - intros [H1 H2]. apply Z.leb_gt in H1. split; [exact H1|].
    apply Qnot_le_lt. intros H. apply Qle_bool_iff in H. congruence.
  - intros [H1 H2]. split; [apply Z.leb_gt; exact H1|].
    destruct (Qle_bool x 0) eqn:E; [|reflexivity]. apply Qle_bool_iff in E. lra.
Qed.

Lemma Qeq_bool_false (x y : Q) : Qeq_bool x y = false <-> ~ x == y.
Proof.
  split.
  - intros E H. apply Qeq_bool_iff in H. congruence.
  - intros H. destruct (Qeq_bool x y) eqn:E; [|reflexivity]. apply Qeq_bool_iff in E. contradiction.
Qed.

(** The four ways [calculate_sip] ends. *)
Lemma calculate_sip_cases (future_value : Q) (years : Z) (annual_rate : Q) :
  let r := annual_rate / 12 / 100 in
  let n := (years * 12)%Z in
  let made pmt := {| monthly_sip := round2 pmt;
                     total_investment := round2 (pmt * inject_Z n);
                     expected_returns := round2 (future_value - pmt * inject_Z n);
                     total_value := round2 future_value |} in
  (((years <= 0)%Z \/ future_value <= 0)
   /\ calculate_sip future_value years annual_rate = Ok sip_zero)
  \/ ((0 < years)%Z /\ 0 < future_value /\
      ((r == 0 /\ calculate_sip future_value years annual_rate
                  = Ok (made (future_value / inject_Z n)))
       \/ (~ r == 0 /\ (1 + r) ^ n - 1 == 0
           /\ calculate_sip future_value years annual_rate = Raise ZeroDivisionError)
       \/ (~ r == 0 /\ ~ (1 + r) ^ n - 1 == 0
           /\ calculate_sip future_value years annual_rate
              = Ok (made (future_value * r / ((1 + r) ^ n - 1)))))).
Proof.
  intros r n made. unfold calculate_sip. fold r n.
  destruct ((years <=? 0)%Z || Qle_bool future_value 0) eqn:G.
  - left. split; [|reflexivity].
    apply orb_true_iff in G. destruct G as [G|G].
    + left. apply Z.leb_le. exact G.
    + right. apply Qle_bool_iff. exact G.
  - right. apply guard_false in G. destruct G as [Hy Hf].
    split; [exact Hy|]. split; [exact Hf|].
    destruct (Qeq_bool r 0) eqn:E.
    + left. apply Qeq_bool_iff in E. split; [exact E|].
      rewrite py_div_ok; [reflexivity|].
      intros H. assert (Hn : n = 0%Z) by (apply inject_Z_injective; exact H). unfold n in Hn. lia.
    + right. apply Qeq_bool_false in E.
      destruct (Qeq_bool ((1 + r) ^ n - 1) 0) eqn:D.
      * left. apply Qeq_bool_iff in D. split; [exact E|]. split; [exact D|].
        rewrite py_div_zero by exact D. reflexivity.
      * right. apply Qeq_bool_false in D. split; [exact E|]. split; [exact D|].
        rewrite py_div_ok by exact D. reflexivity.
Qed.

Lemma calculate_emi_cases (principal : Q) (years : Z) (annual_rate : Q) :
  let r := annual_rate / 12 / 100 in
  let n := (years * 12)%Z in
  let made emi := {| monthly_emi := round2 emi;
                     total_payment := round2 (emi * inject_Z n);
                     total_interest := round2 (emi * inject_Z n - principal) |} in
  (((years <= 0)%Z \/ principal <= 0)
   /\ calculate_emi principal years annual_rate = Ok emi_zero)
  \/ ((0 < years)%Z /\ 0 < principal /\
      ((r == 0 /\ calculate_emi principal years annual_rate
                  = Ok (made (principal / inject_Z n)))
       \/ (~ r == 0 /\ (1 + r) ^ n - 1 == 0
           /\ calculate_emi principal years annual_rate = Raise ZeroDivisionError)
       \/ (~ r == 0 /\ ~ (1 + r) ^ n - 1 == 0
           /\ calculate_emi principal years annual_rate
              = Ok (made (principal * r * (1 + r) ^ n / ((1 + r) ^ n - 1)))))).
Proof.
  intros r n made. unfold calculate_emi. fold r n.
  destruct ((years <=? 0)%Z || Qle_bool principal 0) eqn:G.
  - left. split; [|reflexivity].
    apply orb_true_iff in G. destruct G as [G|G].
    + left. apply Z.leb_le. exact G.
    + right. apply Qle_bool_iff. exact G.
  - right. apply guard_false in G. destruct G as [Hy Hf].
    split; [exact Hy|]. split; [exact Hf|].
    destruct (Qeq_bool r 0) eqn:E.
    + left. apply Qeq_bool_iff in E. split; [exact E|].
      rewrite py_div_ok; [reflexivity|].
      intros H. assert (Hn : n = 0%Z) by (apply inject_Z_injective; exact H). unfold n in Hn. lia.
    + right. apply Qeq_bool_false in E.
      destruct (Qeq_bool ((1 + r) ^ n - 1) 0) eqn:D.
      * left. apply Qeq_bool_iff in D. split; [exact E|]. split; [exact D|].
        rewrite py_div_zero by exact D. reflexivity.
      * right. apply Qeq_bool_false in D. split; [exact E|]. split; [exact D|].
        rewrite py_div_ok by exact D. reflexivity.
Qed.

Lemma Qmake_100 (z : Z) : z # 100 == inject_Z z / 100.
Proof. rewrite <- (Qmake_Qdiv z 100). reflexivity. Qed.

Lemma round2_close (x : Q) : round2 x - x <= 5 # 1000 /\ x - round2 x <= 5 # 1000.
Proof.
  unfold round2. rewrite Qmake_100.
  destruct (round_half_even_close (x * 100)) as [H1 H2].
  set (R := inject_Z (round_half_even (x * 100))) in *.
  unfold Qdiv. change (/ 100) with (1 # 100). split; lra.
Qed.

Lemma round2_sum_close (a b c : Q) :
  a + b == c -> Qabs (round2 a + round2 b - round2 c) <= 1 # 100.
Proof.
  intros H. unfold round2. rewrite !Qmake_100.
  destruct (round_half_even_close (a * 100)) as [A1 A2].
  destruct (round_half_even_close (b * 100)) as [B1 B2].
  destruct (round_half_even_close (c * 100)) as [C1 C2].
  set (A := round_half_even (a * 100)) in *.
  set (B := round_half_even (b * 100)) in *.
  set (C := round_half_even (c * 100)) in *.
  assert (Hz : (-1 <= A + B - C <= 1)%Z).
  { assert (Hq : inject_Z (A + B - C) < 2 /\ - (2) < inject_Z (A + B - C)).
    { unfold Z.sub. rewrite !inject_Z_plus, inject_Z_opp. split; lra. }
    destruct Hq as [Hq1 Hq2].
    change 2 with (inject_Z 2) in Hq1. rewrite <- Zlt_Qlt in Hq1.
    change (- (2)) with (inject_Z (-2)) in Hq2. rewrite <- Zlt_Qlt in Hq2. lia. }
  assert (E : inject_Z A / 100 + inject_Z B / 100 - inject_Z C / 100
              == inject_Z (A + B - C) / 100).
  { unfold Z.sub. rewrite !inject_Z_plus, inject_Z_opp. field. }
  rewrite E.
  assert (L : inject_Z (-1) <= inject_Z (A + B - C)) by (rewrite <- Zle_Qle; lia).
  assert (U : inject_Z (A + B - C) <= inject_Z 1) by (rewrite <- Zle_Qle; lia).
  change (inject_Z (-1)) with (- (1)) in L. change (inject_Z 1) with 1 in U.
  set (X := inject_Z (A + B - C)) in *.
  setoid_replace (X / 100) with (X * (1 # 100)) using relation Qeq by reflexivity.
  clearbody X. clear - L U. apply Qabs_Qle_condition.
  change (inject_Z 1 / 100) with (1 # 100). split; lra.
Qed.


Lemma times_months (x : Q) (n : Z) : (0 < n)%Z -> x / inject_Z n * inject_Z n == x.
Proof.
  intros Hn. field. intros H. change 0 with (inject_Z 0) in H.
  apply (proj1 (inject_Z_injective _ _)) in H. lia.
Qed.


Lemma minus_one_even_power (n : Z) : (0 < n)%Z -> (1 + (-2400) / 12 / 100) ^ (n * 12) - 1 == 0.
Proof.
  intros Hn.
  assert (E : 1 + (-2400) / 12 / 100 == - (1)) by reflexivity.
  rewrite E. rewrite Z.mul_comm. rewrite Qpower_mult.
  assert (E12 : (- (1)) ^ 12 == 1) by reflexivity.
  rewrite E12. rewrite Qpower_1. reflexivity.
Qed.

(** X5: at the annual rate -2400 the monthly rate is -2, the number of months
    is even, [(1 + r) ** n] is 1, and both calculators raise
    [ZeroDivisionError] for every positive amount and number of years. *)
Theorem rate_minus_2400_divides_by_zero (amount : Q) (years : Z) :
  (0 < years)%Z -> 0 < amount ->
  calculate_sip amount years (-2400) = Raise ZeroDivisionError
  /\ calculate_emi amount years (-2400) = Raise ZeroDivisionError.
Proof.
  intros Hy Ha. split.
  - destruct (calculate_sip_cases amount years (-2400))
      as [[G _]|(_ & _ & [[N _]|[(_ & _ & E)|(_ & N & _)]])].
    + exfalso. destruct G; [lia|lra].
    + exfalso. revert N. vm_compute. discriminate.
    + exact E.
    + exfalso. apply N. apply minus_one_even_power. exact Hy.
  - destruct (calculate_emi_cases amount years (-2400))
      as [[G _]|(_ & _ & [[N _]|[(_ & _ & E)|(_ & N & _)]])].
    + exfalso. destruct G; [lia|lra].
    + exfalso. revert N. vm_compute. discriminate.
    + exact E.
    + exfalso. apply N. apply minus_one_even_power. exact Hy.
Qed.

Lemma accumulated_closed (pmt r : Q) (k : nat) :
  accumulated pmt r k * r == pmt * ((1 + r) ^ Z.of_nat k - 1).
Proof.
  induction k as [|k IH].
  - change (Z.of_nat 0) with 0%Z. rewrite Qpower_0_r. cbn [accumulated]. ring.
  - rewrite Qpower_succ_nat. cbn [accumulated].
    set (p := (1 + r) ^ Z.of_nat k) in *. set (a := accumulated pmt r k) in *.
    clearbody p a.
    assert (E : (a * (1 + r) + pmt) * r == a * r * (1 + r) + pmt * r) by ring.
    rewrite E, IH. ring.
Qed.

Lemma accumulated_zero_rate (pmt r : Q) (k : nat) :
  r == 0 -> accumulated pmt r k == inject_Z (Z.of_nat k) * pmt.
Proof.
  intros Hr. induction k as [|k IH].
  - cbn [accumulated]. change (inject_Z (Z.of_nat 0)) with 0. ring.
  - cbn [accumulated]. rewrite Nat2Z.inj_succ. unfold Z.succ. rewrite inject_Z_plus.
    change (inject_Z 1) with 1. rewrite IH, Hr. ring.
Qed.

Lemma outstanding_closed (principal r emi : Q) (k : nat) :
  outstanding principal r emi k * r
  == principal * r * (1 + r) ^ Z.of_nat k - emi * ((1 + r) ^ Z.of_nat k - 1).
Proof.
  induction k as [|k IH].
  - change (Z.of_nat 0) with 0%Z. rewrite Qpower_0_r. cbn [outstanding]. ring.
  - rewrite Qpower_succ_nat. cbn [outstanding].
    set (p := (1 + r) ^ Z.of_nat k) in *. set (a := outstanding principal r emi k) in *.
    clearbody p a.
    assert (E : (a * (1 + r) - emi) * r == a * r * (1 + r) - emi * r) by ring.
    rewrite E, IH. ring.
Qed.

Lemma outstanding_zero_rate (principal r emi : Q) (k : nat) :
  r == 0 -> outstanding principal r emi k == principal - inject_Z (Z.of_nat k) * emi.
Proof.
  intros Hr. induction k as [|k IH].
  - cbn [outstanding]. change (inject_Z (Z.of_nat 0)) with 0. ring.
  - cbn [outstanding]. rewrite Nat2Z.inj_succ. unfold Z.succ. rewrite inject_Z_plus.
    change (inject_Z 1) with 1. rewrite IH, Hr. ring.
Qed.



(** *** The text of an amount determines the amount *)

Lemma filter_join_commas (groups : list str) :
  Forall (Forall (fun c => (c =? 44)%N = false)) groups ->
  List.filter (fun c => negb (c =? 44)%N) (join (u ",") groups) = List.concat groups.
Proof.
  assert (K : forall g, Forall (fun c => (c =? 44)%N = false) g ->
              List.filter (fun c => negb (c =? 44)%N) g = g).
  { induction 1 as [|c g Hc _ IH]; [reflexivity|]. cbn [List.filter]. rewrite Hc. cbn [negb].
    rewrite IH. reflexivity. }
  induction 1 as [|g gs Hg Hgs IH]; [reflexivity|].
  destruct gs as [|g' gs'].
  - cbn [join List.concat]. rewrite app_nil_r. apply K. exact Hg.
  - change (join (u ",") (g :: g' :: gs')) with (g ++ 44%N :: join (u ",") (g' :: gs')).
    rewrite List.filter_app. cbn [List.filter]. change (44 =? 44)%N with true. cbn [negb].
    rewrite IH, K by exact Hg. reflexivity.
Qed.

Lemma is_digit_not_comma c : is_digit c = true -> (c =? 44)%N = false.
Proof.
  unfold is_digit. intros H. apply andb_prop in H as [H1 H2].
  apply N.leb_le in H1. apply N.eqb_neq. lia.
Qed.

Lemma Forall_concat_groups {P : char -> Prop} (groups : list str) :
  Forall P (List.concat groups) -> Forall (Forall P) groups.
Proof.
  induction groups as [|g gs IH]; [constructor|].
  cbn [List.concat]. intros H. apply Forall_app in H as [H1 H2].
  constructor; [exact H1|apply IH; exact H2].
Qed.

(** Deleting the commas of the grouped digits gives the digits back. *)
Lemma uncomma_groups (digits : str) :
  Forall (fun c => is_digit c = true) digits ->
  List.filter (fun c => negb (c =? 44)%N) (join (u ",") (spec_groups digits)) = digits.
Proof.
  intros Hd. rewrite filter_join_commas.
  - apply spec_groups_shape.
  - apply Forall_concat_groups. rewrite (proj1 (spec_groups_shape digits)).
    eapply List.Forall_impl; [|exact Hd]. apply is_digit_not_comma.
Qed.

Lemma filter_id {A : Type} (f : A -> bool) (l : list A) :
  Forall (fun c => f c = true) l -> List.filter f l = l.
Proof.
  induction 1 as [|c g Hc _ IH]; [reflexivity|]. cbn [List.filter]. rewrite Hc, IH. reflexivity.
Qed.

(** The text of a non-negative amount without its commas: the rupee sign,
    the integer digits, and the two decimals unless they are 00. *)
Lemma format_inr_uncomma (amount : Q) :
  0 <= amount ->
  let digits := str_of_Z (cents_of amount / 100) in
  let frac := two_digits (cents_of amount mod 100) in
  List.filter (fun c => negb (c =? 44)%N) (format_inr amount)
  = rupee :: digits ++ (if str_eqb frac (u "00") then [] else 46%N :: frac).
Proof.
  intros H digits frac.
  destruct (format_inr_of_nonneg amount H) as (_ & _ & E). fold digits frac in E.
  rewrite E.
  assert (Hc : (0 <= cents_of amount)%Z) by (apply round_half_even_nonneg; lra).
  assert (Hd : Forall (fun c => is_digit c = true) digits).
  { apply str_of_Z_nonneg_digits. apply Z.div_pos; lia. }
  assert (Hf : Forall (fun c => is_digit c = true) frac).
  { apply two_digits_digits. apply Z.mod_pos_bound. lia. }
  cbn [List.filter]. change (rupee =? 44)%N with false. cbn [negb].
  rewrite List.filter_app, uncomma_groups by exact Hd. f_equal. f_equal.
  destruct (str_eqb frac (u "00")); [reflexivity|].
  change (u "." ++ frac) with (46%N :: frac). cbn [List.filter].
  change (46 =? 44)%N with false. cbn [negb]. f_equal.
  apply filter_id. eapply List.Forall_impl; [|exact Hf].
  intros c Hcd. rewrite (is_digit_not_comma c Hcd). reflexivity.
Qed.

Lemma app_dot_inj (d1 d2 s1 s2 : str) :
  Forall (fun c => (c =? 46)%N = false) d1 ->
  Forall (fun c => (c =? 46)%N = false) d2 ->
  (s1 = [] \/ exists t, s1 = 46%N :: t) ->
  (s2 = [] \/ exists t, s2 = 46%N :: t) ->
  d1 ++ s1 = d2 ++ s2 -> d1 = d2 /\ s1 = s2.
Proof.
  intros H1. revert d2. induction H1 as [|c d1 Hc _ IH]; intros d2 H2 S1 S2 E.
  - destruct H2 as [|c2 d2 Hc2 _].
    + split; [reflexivity|exact E].
    + exfalso. cbn [app] in E. destruct S1 as [->|[t ->]]; [discriminate|].
      injection E as E _. subst c2. discriminate.
  - destruct H2 as [|c2 d2 Hc2 H2].
    + exfalso. cbn [app] in E. destruct S2 as [->|[t ->]]; [discriminate|].
      injection E as E _. subst c. discriminate.
    + cbn [app] in E. injection E as -> E.
      destruct (IH d2 H2 S1 S2 E) as [-> ->]. split; reflexivity.
Qed.

Lemma two_digits_inj (m1 m2 : Z) :
  (0 <= m1 < 100)%Z -> (0 <= m2 < 100)%Z -> two_digits m1 = two_digits m2 -> m1 = m2.
Proof.
  intros H1 H2 E. unfold two_digits in E. injection E as Ea Eb.
  rewrite (Z.div_mod m1 10), (Z.div_mod m2 10) by lia.
  assert (A1 : (0 <= m1 / 10 < 10)%Z) by (split; [apply Z.div_pos|apply Z.div_lt_upper_bound]; lia).
  assert (A2 : (0 <= m2 / 10 < 10)%Z) by (split; [apply Z.div_pos|apply Z.div_lt_upper_bound]; lia).
  assert (B1 : (0 <= m1 mod 10 < 10)%Z) by (apply Z.mod_pos_bound; lia).
  assert (B2 : (0 <= m2 mod 10 < 10)%Z) by (apply Z.mod_pos_bound; lia).
  remember (m1 / 10)%Z as a1. remember (m2 / 10)%Z as a2.
  remember (m1 mod 10)%Z as b1. remember (m2 mod 10)%Z as b2.
  lia.
Qed.

Lemma nonneg_text_determines_cents (a b : Q) :
  0 <= a -> 0 <= b -> format_inr a = format_inr b -> cents_of a = cents_of b.
Proof.
  intros Ha Hb E.
  apply (f_equal (List.filter (fun c => negb (c =? 44)%N))) in E.
  rewrite !format_inr_uncomma in E by assumption.
  injection E as E.
  assert (Hca : (0 <= cents_of a)%Z) by (apply round_half_even_nonneg; lra).
  assert (Hcb : (0 <= cents_of b)%Z) by (apply round_half_even_nonneg; lra).
  assert (Ma : (0 <= cents_of a mod 100 < 100)%Z) by (apply Z.mod_pos_bound; lia).
  assert (Mb : (0 <= cents_of b mod 100 < 100)%Z) by (apply Z.mod_pos_bound; lia).
  apply app_dot_inj in E.
  - destruct E as [Ed Ef].
    apply (f_equal Json.int_of_str) in Ed. rewrite !JsonFacts.int_of_str_of_Z in Ed.
    assert (Em : (cents_of a mod 100 = cents_of b mod 100)%Z).
    { apply two_digits_inj; [exact Ma|exact Mb|].
      unfold str_eqb in Ef.
      destruct (bool_decide (two_digits (cents_of a mod 100) = u "00")) eqn:Ea;
      destruct (bool_decide (two_digits (cents_of b mod 100) = u "00")) eqn:Eb.
      - apply bool_decide_eq_true in Ea, Eb. congruence.
      - discriminate.
      - discriminate.
      - congruence. }
    rewrite (Z.div_mod (cents_of a) 100), (Z.div_mod (cents_of b) 100) by lia.
    rewrite Ed, Em. reflexivity.
  - eapply List.Forall_impl; [|apply str_of_Z_nonneg_digits; apply Z.div_pos; lia].
    apply is_digit_not_dot.
  - eapply List.Forall_impl; [|apply str_of_Z_nonneg_digits; apply Z.div_pos; lia].
    apply is_digit_not_dot.
  - match goal with |- (if ?c then _ else _) = [] \/ _ => destruct c end;
      [left; reflexivity|right; eexists; reflexivity].
  - match goal with |- (if ?c then _ else _) = [] \/ _ => destruct c end;
      [left; reflexivity|right; eexists; reflexivity].
Qed.

Lemma nonneg_text_of_cents (a b : Q) :
  0 <= a -> 0 <= b -> cents_of a = cents_of b -> format_inr a = format_inr b.
Proof.
  intros Ha Hb E.
  destruct (format_inr_of_nonneg a Ha) as (_ & _ & ->).
  destruct (format_inr_of_nonneg b Hb) as (_ & _ & ->).
  rewrite E. reflexivity.
Qed.

Lemma nonneg_text_head (a : Q) : 0 <= a -> exists rest, format_inr a = rupee :: rest.
Proof.
  intros Ha. destruct (format_inr_of_nonneg a Ha) as (_ & _ & ->). eexists. reflexivity.
Qed.


(** X7: the text starts with a minus sign exactly when the amount is
    negative, also when the amount rounds to zero, which is then shown as
    [-₹0]. *)
Theorem format_inr_keeps_the_sign (amount : Q) :
  (amount < 0 <-> exists rest, format_inr amount = 45%N :: rest)
  /\ (amount < 0 -> cents_of (Qabs amount) = 0%Z -> format_inr amount = u "-₹0").
Proof.
  split; [split|].
  - intros H. destruct (format_inr_negative amount H) as [_ E]. eexists. exact E.
  - intros [rest E]. destruct (Qlt_le_dec amount 0) as [N|N]; [exact N|].
    destruct (nonneg_text_head amount N) as [r E2]. rewrite E2 in E. discriminate.
  - intros H Hc. destruct (format_inr_negative amount H) as [_ E]. rewrite E.
    destruct (format_inr_of_nonneg (Qabs amount) (Qabs_nonneg amount)) as (_ & _ & ->).
    rewrite Hc. reflexivity.
Qed.

(** *** Worked cases *)





Lemma rate_minus_2400_divides_by_zero_witness :
  (0 < 5)%Z /\ 0 < 1000000
  /\ calculate_sip 1000000 5 (-2400) = Raise ZeroDivisionError
  /\ calculate_emi 1000000 5 (-2400) = Raise ZeroDivisionError.
Proof.
  assert (Hy : (0 < 5)%Z) by reflexivity.
  assert (Hf : 0 < 1000000) by reflexivity.
  split; [exact Hy|]. split; [exact Hf|].
  exact (rate_minus_2400_divides_by_zero 1000000 5 Hy Hf).
Defined.


Lemma format_inr_keeps_the_sign_witness :
  - (1 # 1000) < 0 /\ cents_of (Qabs (- (1 # 1000))) = 0%Z
  /\ format_inr (- (1 # 1000)) = u "-₹0".
Proof.
  assert (H1 : - (1 # 1000) < 0) by reflexivity.
  assert (H2 : cents_of (Qabs (- (1 # 1000))) = 0%Z) by (vm_compute; reflexivity).
  split; [exact H1|]. split; [exact H2|].
  exact (proj2 (format_inr_keeps_the_sign (- (1 # 1000))) H1 H2).
Defined.

End CalcMore.
(** ** utils.py: more on the text helper and the listing *)

Module UtilsMore.

Import OS Utils CalcFacts UtilsFacts.
Open Scope Q_scope.

(** *** The summary of a text *)

Lemma rsplit_once_app sep s : forall a b,
  rsplit_once sep s = Some (a, b) -> s = a ++ sep :: b.
Proof.
  induction s as [|c s IH]; intros a b H; [discriminate|].
  cbn [rsplit_once] in H. destruct (rsplit_once sep s) as [[a' b']|].
  - injection H as <- <-. rewrite (IH a' b' eq_refl). reflexivity.
  - destruct (c =? sep)%N eqn:E; [|discriminate].
    injection H as <- <-. apply N.eqb_eq in E. subst c. reflexivity.
Qed.

(** The first piece of [s.rsplit(sep, 1)] is a prefix of [s]. *)
Lemma rsplit1_head_prefix sep s : exists rest, s = List.nth 0 (rsplit1 sep s) [] ++ rest.
Proof.
  unfold rsplit1. destruct (rsplit_once sep s) as [[a b]|] eqn:E.
  - exists (sep :: b). apply rsplit_once_app. exact E.
  - exists []. cbn [List.nth]. rewrite app_nil_r. reflexivity.
Qed.

Lemma slice_to_length (k : Z) (s : str) :
  (0 <= k)%Z -> (Z.of_nat (List.length (slice_to k s)) <= k)%Z.
Proof.
  intros Hk. unfold slice_to. apply Z.leb_le in Hk. rewrite Hk.
  rewrite length_firstn. apply Z.leb_le in Hk. lia.
Qed.

(** X8: for a bound that is not negative the summary is at most three
    characters longer than the bound. *)
Theorem summarize_short_length (text : str) (max_length : Z) :
  (0 <= max_length)%Z ->
  (Z.of_nat (List.length (summarize_short text max_length)) <= max_length + 3)%Z.
Proof.
  intros Hk. unfold summarize_short. destruct text as [|c t]; [simpl; lia|].
  set (collapsed := join (u " ") (split_ws (c :: t))).
  destruct (Z.of_nat (List.length collapsed) <=? max_length)%Z eqn:E.
  - apply Z.leb_le in E. lia.
  - destruct (rsplit1_head_prefix 32%N (slice_to max_length collapsed)) as [rest Hr].
    pose proof (slice_to_length max_length collapsed Hk) as Hl.
    rewrite Hr in Hl. rewrite length_app in Hl.
    rewrite length_app. change (List.length (u "...")) with 3%nat. lia.
Qed.

Lemma split_ws_from_all_space s :
  Forall (fun c => isspace c = true) s -> split_ws_from [] s = [].
Proof.
  induction 1 as [|c s Hc _ IH]; [reflexivity|]. cbn [split_ws_from]. rewrite Hc. exact IH.
Qed.

(** X9: a text that is not empty and is all white space is summarized as
    the empty text when the bound is not negative, and as the bare ellipsis
    when it is. *)
Theorem summarize_short_of_white_space (text : str) (max_length : Z) :
  text <> [] -> Forall (fun c => isspace c = true) text ->
  summarize_short text max_length = if (0 <=? max_length)%Z then [] else u "...".
Proof.
  intros Hne Hs. unfold summarize_short. destruct text as [|c t]; [contradiction|].
  unfold split_ws. rewrite split_ws_from_all_space by exact Hs.
  cbn [join List.length]. change (Z.of_nat 0) with 0%Z.
  destruct (0 <=? max_length)%Z; [reflexivity|].
  unfold slice_to. rewrite !firstn_nil. destruct (0 <=? max_length)%Z; reflexivity.
Qed.

Lemma Forall_prefix {A : Type} (P : A -> Prop) (n : nat) (l : list A) :
  Forall P l -> Forall P (List.firstn n l).
Proof. intros H. revert n. induction H; intros [|n]; simpl; constructor; auto. Qed.

Lemma join_chars words :
  Forall is_word words ->
  Forall (fun c => isspace c = false \/ c = 32%N) (join (u " ") words).
Proof.
  induction 1 as [|w ws [_ Hw] Hws IH]; [constructor|].
  destruct ws as [|w' ws'].
  - cbn [join]. eapply List.Forall_impl; [|exact Hw]. intros c Hc. left. exact Hc.
  - change (join (u " ") (w :: w' :: ws')) with (w ++ 32%N :: join (u " ") (w' :: ws')).
    apply Forall_app. split.
    + eapply List.Forall_impl; [|exact Hw]. intros c Hc. left. exact Hc.
    + constructor; [right; reflexivity|exact IH].
Qed.

Lemma space_free_prefix_no_white words n :
  Forall is_word words -> space_free (List.firstn n (join (u " ") words)) ->
  Forall (fun c => isspace c = false) (List.firstn n (join (u " ") words)).
Proof.
  intros Hw Hs. pose proof (join_chars words Hw) as Hc.
  apply (Forall_prefix _ n) in Hc. unfold space_free in Hs.
  revert Hs Hc. generalize (List.firstn n (join (u " ") words)). intros s Hs Hc.
  induction Hs as [|c s Hc1 _ IH]; [constructor|].
  inversion Hc as [|? ? Hc2 Hc3]; subst. constructor; [|apply IH; exact Hc3].
  destruct Hc2 as [Hc2| ->]; [exact Hc2|discriminate].
Qed.

(** Text that ends a list of words: it extends the last word, or is a word
    of its own when there is none. *)
Lemma join_words_then_text words t :
  Forall is_word words -> Forall (fun c => isspace c = false) t -> t <> [] ->
  exists words', Forall is_word words' /\ join (u " ") words ++ t = join (u " ") words'.
Proof.
  intros Hw Ht Hne.
  destruct words as [|w0 ws0] eqn:Ew.
  - exists [t]. split; [repeat constructor; assumption|reflexivity].
  - destruct (@exists_last _ words) as (init & w & E); [rewrite Ew; discriminate|].
    rewrite <- Ew, E. rewrite <- Ew, E in Hw. apply Forall_app in Hw as [Hi Hl].
    apply Forall_inv in Hl. destruct Hl as [Hwne Hww].
    assert (Hwt : is_word (w ++ t)).
    { split; [destruct w; [contradiction|discriminate]|apply Forall_app; split; assumption]. }
    exists (init ++ [w ++ t]). split.
    + apply Forall_app. split; [exact Hi|repeat constructor; apply Hwt].
    + destruct init as [|i0 init'].
      * reflexivity.
      * rewrite !join_snoc by discriminate. rewrite <- !app_assoc. reflexivity.
Qed.

Lemma firstn_words m words : Forall is_word words -> Forall is_word (List.firstn m words).
Proof. apply Forall_prefix. Qed.

Lemma ellipsis_word : Forall (fun c => isspace c = false) (u "...") /\ u "..." <> [].
Proof. split; [repeat constructor|discriminate]. Qed.

(** Every result of [summarize_short] is a list of words joined by single
    spaces. *)
Lemma summarize_short_words (text : str) (max_length : Z) :
  exists words, Forall is_word words
                /\ summarize_short text max_length = join (u " ") words.
Proof.
  destruct text as [|c t] eqn:Et; [exists []; split; [constructor|reflexivity]|].
  rewrite <- Et. assert (Hne : text <> []) by (rewrite Et; discriminate). clear Et c t.
  pose proof (split_ws_words text) as Hw.
  destruct (Z.leb_spec (Z.of_nat (List.length (join (u " ") (split_ws text)))) max_length) as [Hle|Hlt].
  - exists (split_ws text). split; [exact Hw|].
    unfold summarize_short. destruct text as [|c t]; [contradiction|].
    apply Z.leb_le in Hle. rewrite Hle. reflexivity.
  - destruct (summarize_short_cut text max_length Hne Hlt) as (head & Hr & Hc).
    rewrite Hr. destruct ellipsis_word as [He1 He2].
    destruct Hc as [[Hs ->] | (m & p & _ & _ & _ & ->)].
    + destruct (slice_to_prefix max_length (join (u " ") (split_ws text))) as [n Hn].
      rewrite Hn in *.
      exists [List.firstn n (join (u " ") (split_ws text)) ++ u "..."]. split; [|reflexivity].
      repeat constructor.
      * destruct (List.firstn n _); discriminate.
      * apply Forall_app. split; [|exact He1].
        apply space_free_prefix_no_white; assumption.
    + apply join_words_then_text; [apply firstn_words; exact Hw|exact He1|exact He2].
Qed.

(** X10: every white-space character of a summary is a single space between
    two words; collapsing the white space of a summary changes nothing, and
    summarizing a summary again, with a bound it fits in, gives it back. *)
Theorem summarize_short_is_single_spaced (text : str) (max_length : Z) :
  normalized (summarize_short text max_length) = true
  /\ join (u " ") (split_ws (summarize_short text max_length)) = summarize_short text max_length
  /\ forall bound,
       (Z.of_nat (List.length (summarize_short text max_length)) <= bound)%Z ->
       summarize_short (summarize_short text max_length) bound = summarize_short text max_length.
Proof.
  destruct (summarize_short_words text max_length) as (words & Hw & E).
  assert (Hj : join (u " ") (split_ws (summarize_short text max_length))
               = summarize_short text max_length).
  { rewrite E. rewrite split_ws_join by exact Hw. reflexivity. }
  split; [rewrite E; apply join_normalized; exact Hw|]. split; [exact Hj|].
  intros bound Hb.
  set (r := summarize_short text max_length) in *.
  unfold summarize_short at 1. destruct r as [|c t] eqn:Er; [reflexivity|].
  rewrite Hj. apply Z.leb_le in Hb. rewrite Hb. reflexivity.
Qed.

(** *** The order and the failures of the listing *)

Lemma str_ltb_irrefl a : str_ltb a a = false.
Proof.
  destruct (str_ltb a a) eqn:E; [|reflexivity].
  pose proof (str_ltb_asym a a E). congruence.
Qed.

Section StableSort.

Context {A : Type} (key : A -> str).

Lemma insert_desc_stable (t : str) (x : A) (l : list A) :
  List.filter (fun e => str_eqb (key e) t) (insert_desc key x l)
  = List.filter (fun e => str_eqb (key e) t) (x :: l).
Proof.
  induction l as [|y l IH]; [reflexivity|].
  cbn [insert_desc]. destruct (str_ltb (key x) (key y)) eqn:E; [|reflexivity].
  cbn [List.filter] in *. rewrite IH.
  destruct (str_eqb (key x) t) eqn:Ex; [|reflexivity].
  destruct (str_eqb (key y) t) eqn:Ey; [|reflexivity].
  apply bool_decide_eq_true in Ex, Ey. rewrite Ex, Ey, str_ltb_irrefl in E. discriminate.
Qed.

Lemma sort_desc_stable (t : str) (l : list A) :
  List.filter (fun e => str_eqb (key e) t) (sort_desc key l)
  = List.filter (fun e => str_eqb (key e) t) l.
Proof.
  induction l as [|x l IH]; [reflexivity|].
  cbn [sort_desc]. rewrite insert_desc_stable. cbn [List.filter]. rewrite IH. reflexivity.
Qed.

End StableSort.

Section ListingMore.

Variable isoformat : Q -> str.
Variable strftime_readable : Q -> str.

Lemma Forall2_info_names fs output_dir names infos :
  Forall2 (info_of isoformat strftime_readable fs output_dir) names infos ->
  List.map filename infos = names.
Proof.
  induction 1 as [|n e ns es (st & _ & ->) _ IH]; [reflexivity|].
  cbn [List.map]. rewrite IH. reflexivity.
Qed.

(** X11: the listing keeps, among the entries with the same time stamp, the
    order in which [os.listdir] reported their files. *)
Theorem list_conversations_is_stable fs output_dir names :
  listdir fs output_dir = Ok names ->
  (forall name, In name names -> is_json_name name = true ->
     exists st, stat fs (path_join output_dir name) = Ok st) ->
  exists infos entries,
    collect isoformat strftime_readable fs output_dir names [] = Ok infos
    /\ List.map filename infos = List.filter is_json_name names
    /\ list_conversations isoformat strftime_readable fs output_dir = Ok entries
    /\ forall t,
         List.filter (fun e => str_eqb (timestamp e) t) entries
         = List.filter (fun e => str_eqb (timestamp e) t) infos.
Proof.
  intros Hl Hstat.
  destruct (collect_spec isoformat strftime_readable fs output_dir names [] Hstat)
    as (infos & Hc & Hf).
  cbn [app] in Hc.
  exists infos, (sort_desc timestamp infos).
  split; [exact Hc|]. split; [eapply Forall2_info_names; exact Hf|]. split.
  - unfold list_conversations.
    assert (He : path_exists fs output_dir = true).
    { unfold path_exists, listdir in *. destruct (fs !! output_dir); [reflexivity|discriminate]. }
    rewrite He, Hl. cbn [negb bind]. rewrite Hc. reflexivity.
  - intros t. apply sort_desc_stable.
Qed.

Lemma collect_dangling fs output_dir names : forall acc name,
  In name names -> is_json_name name = true ->
  fs !! path_join output_dir name = None ->
  collect isoformat strftime_readable fs output_dir names acc = Raise FileNotFoundError.
Proof.
  induction names as [|n rest IH]; intros acc name Hin Hj Hnone; [destruct Hin|].
  cbn [collect]. fold (is_json_name n).
  destruct (is_json_name n) eqn:En.
  - unfold stat at 1. destruct (fs !! path_join output_dir n) as [[st ns|m c]|] eqn:El.
    + cbn [bind]. destruct Hin as [->|Hin]; [congruence|]. eapply IH; eassumption.
    + cbn [bind]. destruct Hin as [->|Hin]; [congruence|]. eapply IH; eassumption.
    + reflexivity.
  - destruct Hin as [->|Hin]; [congruence|]. eapply IH; eassumption.
Qed.


End ListingMore.

(** *** Worked cases *)

Lemma summarize_short_length_witness :
  (0 <= 10)%Z
  /\ (Z.of_nat (List.length (summarize_short (u "one two three four five") 10)) <= 10 + 3)%Z.
Proof.
  assert (H : (0 <= 10)%Z) by (vm_compute; discriminate).
  split; [exact H|]. exact (summarize_short_length (u "one two three four five") 10 H).
Defined.

Lemma summarize_short_of_white_space_witness :
  [32%N; 10%N; 9%N] <> []
  /\ Forall (fun c => isspace c = true) [32%N; 10%N; 9%N]
  /\ summarize_short [32%N; 10%N; 9%N] 5 = []
  /\ summarize_short [32%N; 10%N; 9%N] (-1) = u "...".
Proof.
  assert (Hne : [32%N; 10%N; 9%N] <> []) by discriminate.
  assert (Hs : Forall (fun c => isspace c = true) [32%N; 10%N; 9%N])
    by (repeat constructor).
  split; [exact Hne|]. split; [exact Hs|]. split.
  - exact (summarize_short_of_white_space [32%N; 10%N; 9%N] 5 Hne Hs).
  - exact (summarize_short_of_white_space [32%N; 10%N; 9%N] (-1) Hne Hs).
Defined.

Lemma summarize_short_is_single_spaced_witness :
  (Z.of_nat (List.length (summarize_short (u "one  two three four five") 10)) <= 13)%Z
  /\ summarize_short (summarize_short (u "one  two three four five") 10) 13
     = summarize_short (u "one  two three four five") 10.
Proof.
  assert (H : (Z.of_nat (List.length (summarize_short (u "one  two three four five") 10))
               <= 13)%Z) by (vm_compute; discriminate).
  split; [exact H|].
  exact (proj2 (proj2 (summarize_short_is_single_spaced (u "one  two three four five") 10))
               13%Z H).
Defined.

Lemma list_conversations_is_stable_witness :
  listdir Examples.three_transcripts (u "logs") = Ok [u "b.json"; u "c.json"; u "a.json"]
  /\ exists infos entries,
       List.map filename infos = [u "b.json"; u "c.json"; u "a.json"]
       /\ list_conversations Examples.two_isoformats (fun _ => [])
            Examples.three_transcripts (u "logs") = Ok entries
       /\ List.map filename entries = [u "c.json"; u "b.json"; u "a.json"]
       /\ List.filter (fun e => str_eqb (timestamp e) (u "2025-11-30T10:30:00")) entries
          = List.filter (fun e => str_eqb (timestamp e) (u "2025-11-30T10:30:00")) infos.
Proof.
  assert (Hl : listdir Examples.three_transcripts (u "logs")
               = Ok [u "b.json"; u "c.json"; u "a.json"]) by (vm_compute; reflexivity).
  assert (Hs : forall name, In name [u "b.json"; u "c.json"; u "a.json"] ->
                 is_json_name name = true ->
                 exists st, stat Examples.three_transcripts (path_join (u "logs") name)
                            = Ok st).
  { intros name [<-|[<-|[<-|[]]]] _; eexists; vm_compute; reflexivity. }
  split; [exact Hl|].
  destruct (list_conversations_is_stable Examples.two_isoformats (fun _ => [])
              Examples.three_transcripts (u "logs") _ Hl Hs)
    as (infos & entries & _ & Hn & He & Hst).
  exists infos, entries. split; [exact Hn|]. split; [exact He|]. split; [|apply Hst].
  assert (E : exists l,
            list_conversations Examples.two_isoformats (fun _ => [])
              Examples.three_transcripts (u "logs") = Ok l
            /\ List.map filename l = [u "c.json"; u "b.json"; u "a.json"])
    by (vm_compute; eexists; split; reflexivity).
  destruct E as (l & El & Em). rewrite He in El. injection El as <-. exact Em.
Defined.


End UtilsMore.
(** ** utils.py: more on the transcript store *)

Module StoreMore.

Import OS Utils Json Store UtilsFacts JsonFacts StoreFacts.
Open Scope Q_scope.

Lemma endswith_app (a s : str) : endswith (a ++ s) s = true.
Proof.
  unfold endswith, last_k, str_eqb. rewrite length_app.
  apply andb_true_intro. split; [apply Nat.leb_le; lia|].
  apply bool_decide_eq_true_2.
  replace (List.length a + List.length s - List.length s)%nat with (List.length a) by lia.
  rewrite skipn_app, skipn_all, Nat.sub_diag. reflexivity.
Qed.

Lemma utf8_encode_error (s : str) (e : exn) : utf8_encode s = Raise e -> e = UnicodeEncodeError.
Proof.
  induction s as [|c s IH]; [discriminate|].
  cbn [utf8_encode]. unfold utf8_encode_char.
  repeat match goal with
         | |- context [if ?b then _ else _] => destruct b
         end; cbn [bind];
    try (intros H; injection H as <-; reflexivity);
    destruct (utf8_encode s); cbn [bind]; try discriminate; intros H; apply IH; exact H.
Qed.

Lemma utf8_encode_refuses (s : str) (c : char) :
  In c s -> is_scalar c = false -> utf8_encode s = Raise UnicodeEncodeError.
Proof.
  intros Hin Hc.
  destruct (utf8_encode s) as [bs|e] eqn:E; [|f_equal; eapply utf8_encode_error; exact E].
  exfalso. revert bs E. induction s as [|d s IH]; intros bs E; [destruct Hin|].
  cbn [utf8_encode] in E.
  destruct (utf8_encode_char d) as [b1|] eqn:Ed; [|discriminate]. cbn [bind] in E.
  destruct (utf8_encode s) as [b2|] eqn:Es; [|discriminate].
  destruct Hin as [->|Hin]; [|eapply IH; [exact Hin|reflexivity]].
  unfold utf8_encode_char in Ed. unfold is_scalar in Hc.
  apply orb_false_iff in Hc as [H1 H2]. apply N.ltb_ge in H1.
  replace (c <? 128)%N with false in Ed by (symmetry; apply N.ltb_ge; lia).
  replace (c <? 2048)%N with false in Ed by (symmetry; apply N.ltb_ge; lia).
  apply andb_false_iff in H2.
  destruct (c <? 65536)%N eqn:E3.
  - apply N.ltb_lt in E3.
    replace ((55296 <=? c)%N && (c <=? 57343)%N) with true in Ed; [discriminate|].
    symmetry. apply andb_true_intro. split; [apply N.leb_le; lia|].
    apply N.leb_le. destruct H2 as [H2|H2]; [apply N.ltb_ge in H2; exact H2|].
    apply N.ltb_ge in H2. lia.
  - apply N.ltb_ge in E3. destruct H2 as [H2|H2].
    + apply N.ltb_ge in H2. lia.
    + rewrite H2 in Ed. discriminate.
Qed.

Lemma escape_char_high (c : char) : (128 <= c)%N -> escape_char c = [c].
Proof.
  intros Hc. unfold escape_char.
  repeat match goal with
         | |- (if (c =? ?n)%N then _ else _) = _ =>
           replace (c =? n)%N with false by (symmetry; apply N.eqb_neq; lia)
         end.
  replace (c <? 32)%N with false by (symmetry; apply N.ltb_ge; lia). reflexivity.
Qed.

Lemma in_basestring (s : str) (c : char) :
  In c s -> (128 <= c)%N -> In c (encode_basestring s).
Proof.
  intros Hin Hc. unfold encode_basestring. right. apply in_or_app. left.
  apply in_flat_map. exists c. split; [exact Hin|]. rewrite escape_char_high by exact Hc.
  left. reflexivity.
Qed.

Lemma in_join (sep : str) (parts : list str) (part : str) (c : char) :
  In part parts -> In c part -> In c (join sep parts).
Proof.
  induction parts as [|p ps IH]; intros Hp Hc; [destruct Hp|].
  destruct ps as [|p' ps'].
  - destruct Hp as [->|[]]. exact Hc.
  - change (join sep (p :: p' :: ps')) with (p ++ sep ++ join sep (p' :: ps')).
    destruct Hp as [->|Hp]; apply in_or_app; [left; exact Hc|right].
    apply in_or_app. right. apply IH; assumption.
Qed.

Lemma not_scalar_high (c : char) : is_scalar c = false -> (128 <= c)%N.
Proof.
  unfold is_scalar. intros H. apply orb_false_iff in H as [H _]. apply N.ltb_ge in H. lia.
Qed.

Section SaveMore.

Variable pyfloat : Type.
Variable float_repr : pyfloat -> str.
Variable float_of_str : str -> pyfloat.
Variable clock : nat -> Q.
Variable isoformat : Q -> str.
Variable strftime_readable : Q -> str.
Variable strftime_stamp : Q -> str.

Local Notation "'value'" := (pyval pyfloat).
Local Notation "'well_stored'" := (storable float_repr float_of_str).
Local Notation "'record_of'" := (conversation_data pyfloat isoformat strftime_readable).
Local Notation "'save'" :=
  (save_conversation pyfloat float_repr clock isoformat strftime_readable strftime_stamp).
Local Notation "'enc'" := (iterencode pyfloat float_repr).
Local Notation "'name_at'" := (transcript_name strftime_stamp).

Lemma in_encoded_dict (entries : list (str * value)) (k : str) (v : value) (c : char)
  (level : nat) :
  In (k, v) entries -> In c (enc v (S level)) -> In c (enc (PDict entries) level).
Proof.
  intros Hin Hc.
  assert (E : enc (PDict entries) level
              = 123%N :: newline_indent (S level)
                ++ join (u "," ++ newline_indent (S level))
                        (List.map (fun kv => encode_basestring (fst kv) ++ u ": "
                                             ++ enc (snd kv) (S level)) entries)
                ++ newline_indent level ++ u "}").
  { destruct entries; [destruct Hin|reflexivity]. }
  rewrite E. right. apply in_or_app. right. apply in_or_app. left.
  eapply in_join.
  - apply in_map_iff. exists (k, v). split; [reflexivity|exact Hin].
  - cbn [fst snd]. apply in_or_app. right. apply in_or_app. right. exact Hc.
Qed.

Lemma in_agent_record (role output : str) (c : char) (level : nat) :
  In c output -> (128 <= c)%N -> In c (enc (agent_record pyfloat role output) level).
Proof.
  intros Hin Hc. unfold agent_record.
  apply (in_encoded_dict _ (u "output") (PStr output)).
  - right. left. reflexivity.
  - cbn [iterencode]. apply in_basestring; assumption.
Qed.

(** A character of an output that is beyond ASCII is written as it is. *)
Lemma in_record (t0 t1 : Q) (user_data sip_calc : value)
  (advisor_output risk_output planner_output : str) (c : char) :
  In c advisor_output \/ In c risk_output \/ In c planner_output -> (128 <= c)%N ->
  In c (dumps pyfloat float_repr
          (record_of t0 t1 user_data sip_calc advisor_output risk_output planner_output)).
Proof.
  intros Hin Hc. unfold dumps, conversation_data.
  eapply (in_encoded_dict _ (u "agent_outputs")).
  - right. right. right. right. left. reflexivity.
  - destruct Hin as [Hin|[Hin|Hin]].
    + eapply (in_encoded_dict _ (u "advisor")); [left; reflexivity|].
      apply in_agent_record; assumption.
    + eapply (in_encoded_dict _ (u "risk_analyst")); [right; left; reflexivity|].
      apply in_agent_record; assumption.
    + eapply (in_encoded_dict _ (u "planner")); [right; right; left; reflexivity|].
      apply in_agent_record; assumption.
Qed.

(** What [os.makedirs(path, exist_ok=True)] leaves when it returns. *)
Lemma makedirs_inv (files files1 : FileSystem) (dir : str) (now : Q) :
  makedirs files dir now = Ok files1 ->
  dir <> []
  /\ (forall path, path <> dir -> files1 !! path = files !! path)
  /\ ((exists st names, files !! dir = Some (Dir st names) /\ files1 = files)
      \/ (files !! dir = None
          /\ files1 = <[ dir := Dir {| st_mtime := now; st_size := 4096 |} [] ]> files)).
Proof.
  unfold makedirs. destruct dir as [|d dir']; [discriminate|].
  destruct (files !! _) as [[st names|m c]|] eqn:E; intros H; try discriminate;
    injection H as <-; (split; [discriminate|]).
  - split; [reflexivity|]. left. exists st, names. split; reflexivity.
  - split; [intros path Hp; apply lookup_insert_ne; congruence|]. right. split; reflexivity.
Qed.

(** What a call of [save_conversation] that returns has done. *)
Lemma save_conversation_inv (user_data sip_calc : value)
  (advisor_output risk_output planner_output output_dir : str) (w : World)
  (filename : str) (w' : World) :
  save user_data sip_calc advisor_output risk_output planner_output output_dir w
  = Ok (filename, w') ->
  let k := clock_reads w in
  let name := name_at (clock (S (S k))) in
  let data := record_of (clock k) (clock (S k)) user_data sip_calc
                advisor_output risk_output planner_output in
  exists files1 bytes,
    makedirs (fs w) output_dir (clock (S k)) = Ok files1
    /\ utf8_encode (dumps pyfloat float_repr data) = Ok bytes
    /\ filename = path_join output_dir name
    /\ filename <> output_dir
    /\ (forall st names, fs w !! filename <> Some (Dir st names))
    /\ w' = {| fs := <[ filename := File (clock (S (S k))) bytes ]>
                       (add_name files1 output_dir name);
               clock_reads := S (S (S k)) |}.
Proof.
  intros H k name data. unfold save_conversation in H. fold k in H.
  destruct (makedirs (fs w) output_dir (clock (S k))) as [files1|] eqn:Hmk; [|discriminate].
  cbn [bind] in H. unfold write_text in H.
  change (u "finance_plan_" ++ strftime_stamp (clock (S (S k))) ++ u ".json") with name in H.
  fold data in H.
  destruct (makedirs_inv _ _ _ _ Hmk) as (Hdir & Hsame & _).
  assert (Hneq : path_join output_dir name <> output_dir).
  { apply path_join_neq; [exact Hdir|apply transcript_name_head]. }
  rewrite (Hsame _ Hneq) in H.
  destruct (utf8_encode (dumps pyfloat float_repr data)) as [bytes|] eqn:Henc.
  - exists files1, bytes. split; [reflexivity|]. split; [reflexivity|].
    destruct (fs w !! path_join output_dir name) as [[st names|m c]|] eqn:E;
      cbn [bind] in H; try discriminate; injection H as <- <-;
      (split; [reflexivity|]); (split; [exact Hneq|]); (split; [|reflexivity]);
      intros st' names'; rewrite E; discriminate.
  - destruct (fs w !! path_join output_dir name) as [[st names|m c]|]; discriminate.
Qed.

(** And a call that meets no obstacle returns. *)
Lemma save_conversation_ok (user_data sip_calc : value)
  (advisor_output risk_output planner_output output_dir : str) (w : World) (bytes : list N) :
  let k := clock_reads w in
  let name := name_at (clock (S (S k))) in
  let data := record_of (clock k) (clock (S k)) user_data sip_calc
                advisor_output risk_output planner_output in
  output_dir <> [] ->
  (forall m c, fs w !! output_dir <> Some (File m c)) ->
  (forall st names, fs w !! path_join output_dir name <> Some (Dir st names)) ->
  utf8_encode (dumps pyfloat float_repr data) = Ok bytes ->
  exists w', save user_data sip_calc advisor_output risk_output planner_output output_dir w
             = Ok (path_join output_dir name, w').
Proof.
  intros k name data Hdir Hfile Htarget Henc.
  destruct (makedirs_ok (fs w) output_dir (clock (S k)) Hdir Hfile) as (files1 & Hmk & Hsame).
  assert (Hneq : path_join output_dir name <> output_dir).
  { apply path_join_neq; [exact Hdir|apply transcript_name_head]. }
  unfold save_conversation. fold k. rewrite Hmk. cbn [bind]. unfold write_text.
  change (u "finance_plan_" ++ strftime_stamp (clock (S (S k))) ++ u ".json") with name.
  fold data. rewrite (Hsame _ Hneq), Henc.
  destruct (fs w !! path_join output_dir name) as [[st names|m c]|] eqn:E.
  - exfalso. apply (Htarget st names). reflexivity.
  - eexists. reflexivity.
  - eexists. reflexivity.
Qed.

Lemma listdir_add_name (files : FileSystem) (dir name : str) (st : Stat) (names : list str) :
  files !! dir = Some (Dir st names) ->
  exists names',
    add_name files dir name !! dir = Some (Dir st names')
    /\ In name names'
    /\ ((In name names /\ names' = names) \/ (~ In name names /\ names' = names ++ [name])).
Proof.
  intros E. unfold add_name. rewrite E.
  destruct (bool_decide (name ∈ names)) eqn:B.
  - apply bool_decide_eq_true in B. apply list_elem_of_In in B.
    exists names. split; [exact E|]. split; [exact B|]. left. split; [exact B|reflexivity].
  - apply bool_decide_eq_false in B. rewrite list_elem_of_In in B.
    exists (names ++ [name]). split; [apply lookup_insert_eq|].
    split; [apply in_or_app; right; left; reflexivity|]. right. split; [exact B|reflexivity].
Qed.

Lemma makedirs_dir (files files1 : FileSystem) (dir : str) (now : Q) :
  makedirs files dir now = Ok files1 ->
  exists st names,
    files1 !! dir = Some (Dir st names)
    /\ (forall old, listdir files dir = Ok old -> names = old)
    /\ (files !! dir = None -> names = []).
Proof.
  intros H. destruct (makedirs_inv _ _ _ _ H) as (_ & _ & [(st & names & E & ->)|(E & ->)]).
  - exists st, names. split; [exact E|]. split.
    + intros old Ho. unfold listdir in Ho. rewrite E in Ho. congruence.
    + intros N. congruence.
  - eexists _, []. split; [apply lookup_insert_eq|]. split; [|reflexivity].
    intros old Ho. unfold listdir in Ho. rewrite E in Ho. discriminate.
Qed.

(** What a call of [save_conversation] that returns leaves behind. *)
Lemma save_conversation_effect (user_data sip_calc : value)
  (advisor_output risk_output planner_output output_dir : str) (w : World)
  (filename : str) (w' : World) :
  save user_data sip_calc advisor_output risk_output planner_output output_dir w
  = Ok (filename, w') ->
  let k := clock_reads w in
  let name := name_at (clock (S (S k))) in
  let data := record_of (clock k) (clock (S k)) user_data sip_calc
                advisor_output risk_output planner_output in
  filename = path_join output_dir name
  /\ clock_reads w' = S (S (S k))
  /\ (forall path, path <> output_dir -> path <> filename -> fs w' !! path = fs w !! path)
  /\ (exists bytes, utf8_encode (dumps pyfloat float_repr data) = Ok bytes
                    /\ fs w' !! filename = Some (File (clock (S (S k))) bytes))
  /\ (exists names,
        listdir (fs w') output_dir = Ok names /\ In name names
        /\ (fs w !! output_dir = None -> names = [name])
        /\ (forall old, listdir (fs w) output_dir = Ok old ->
              (In name old /\ names = old) \/ (~ In name old /\ names = old ++ [name])))
  /\ (fs w !! output_dir = None \/ exists old, listdir (fs w) output_dir = Ok old).
Proof.
  intros H k name data.
  destruct (save_conversation_inv _ _ _ _ _ _ _ _ _ H)
    as (files1 & bytes & Hmk & Henc & Hf & Hneq & _ & ->).
  fold k name in Hmk, Hf. fold k data in Henc.
  destruct (makedirs_inv _ _ _ _ Hmk) as (_ & Hsame & Hwas).
  destruct (makedirs_dir _ _ _ _ Hmk) as (st & names & Hd & Hold & Hnew).
  destruct (listdir_add_name files1 output_dir name st names Hd) as (names' & Hl & Hin & Hcase).
  split; [exact Hf|]. split; [reflexivity|]. cbn [fs]. split; [|split; [|split]].
  - intros path Hp Hq. etransitivity; [apply lookup_insert_ne; congruence|].
    rewrite add_name_lookup by exact Hp. apply Hsame. exact Hp.
  - exists bytes. split; [exact Henc|]. apply lookup_insert_eq.
  - exists names'. unfold listdir.
    match goal with
    | |- context [match ?x with Some _ => _ | None => _ end] =>
      replace x with (Some (Dir st names'))
        by (symmetry; etransitivity; [apply lookup_insert_ne; congruence|exact Hl])
    end.
    split; [reflexivity|]. split; [exact Hin|]. split.
    + intros N. specialize (Hnew N). subst names.
      destruct Hcase as [[[] _]|[_ ->]]. reflexivity.
    + intros old Ho. rewrite <- (Hold old Ho). exact Hcase.
  - destruct Hwas as [(st0 & old & E & _)|[E _]]; [right|left; exact E].
    exists old. unfold listdir. rewrite E. reflexivity.
Qed.



Lemma load_written (path : str) (w : World) (mtime : Q) (bytes : list N) (v : value) :
  fs w !! path = Some (File mtime bytes) ->
  utf8_encode (dumps pyfloat float_repr v) = Ok bytes ->
  well_stored v ->
  load_conversation pyfloat float_of_str path w = Ok (jsonify v).
Proof.
  intros Hl Henc Hv.
  destruct (text_file_roundtrip (dumps pyfloat float_repr v))
    as (bytes' & Henc' & Hdec & Hnl).
  { apply plain_enc with (float_of_str := float_of_str). exact Hv. }
  assert (bytes' = bytes) by congruence. subst bytes'.
  unfold load_conversation, read_text.
  match goal with
  | |- context [match ?x with Some _ => _ | None => _ end] =>
    replace x with (Some (File mtime bytes))
  end.
  rewrite Hdec. cbn [bind]. rewrite Hnl.
  apply (loads_dumps pyfloat float_repr float_of_str v Hv).
Qed.

Lemma Forall2_in_left {A B : Type} (R : A -> B -> Prop) (l : list A) (l' : list B) (x : A) :
  Forall2 R l l' -> In x l -> exists y, In y l' /\ R x y.
Proof.
  induction 1 as [|a b l l' Hab _ IH]; intros Hin; [destruct Hin|].
  destruct Hin as [->|Hin].
  - exists b. split; [left; reflexivity|exact Hab].
  - destruct (IH Hin) as (y & Hy & Hr). exists y. split; [right; exact Hy|exact Hr].
Qed.

Lemma transcript_name_json (t : Q) : is_json_name (name_at t) = true.
Proof.
  unfold is_json_name, transcript_name. rewrite app_assoc. apply endswith_app.
Qed.

Lemma stat_of_node (files : FileSystem) (path : str) :
  files !! path <> None -> exists st, stat files path = Ok st.
Proof.
  intros H. unfold stat. destruct (files !! path) as [[st names|m c]|];
    [eexists; reflexivity..|contradiction].
Qed.


(** X16: two calls of [save_conversation] whose time stamps fall into the
    same second name the same file: the second call returns the path of the
    first, the directory lists no new name, and the file then holds the
    second conversation only. *)
Theorem saves_in_the_same_second_overwrite
  (user_data1 sip_calc1 user_data2 sip_calc2 : value)
  (advisor1 risk1 planner1 advisor2 risk2 planner2 output_dir : str)
  (w : World) (filename1 : str) (w1 : World) (filename2 : str) (w2 : World) :
  let k := clock_reads w in
  let second := record_of (clock (3 + k)) (clock (4 + k)) user_data2 sip_calc2
                  advisor2 risk2 planner2 in
  save user_data1 sip_calc1 advisor1 risk1 planner1 output_dir w = Ok (filename1, w1) ->
  save user_data2 sip_calc2 advisor2 risk2 planner2 output_dir w1 = Ok (filename2, w2) ->
  strftime_stamp (clock (5 + k)) = strftime_stamp (clock (2 + k)) ->
  well_stored user_data2 -> well_stored sip_calc2 ->
  encodable advisor2 -> encodable risk2 -> encodable planner2 ->
  (forall t, encodable (isoformat t)) -> (forall t, encodable (strftime_readable t)) ->
  filename2 = filename1
  /\ listdir (fs w2) output_dir = listdir (fs w1) output_dir
  /\ load_conversation pyfloat float_of_str filename1 w2 = Ok (jsonify second)
  /\ agent_output pyfloat (u "advisor") (jsonify second) = Some (PStr advisor2).
Proof.
  intros k second H1 H2 Hstamp Hu Hs Ha Hr Hp Hiso Hread.
  destruct (save_conversation_effect _ _ _ _ _ _ _ _ _ H1)
    as (Hf1 & Hc1 & _ & _ & (names1 & Hl1 & Hin1 & _) & _).
  destruct (save_conversation_effect _ _ _ _ _ _ _ _ _ H2)
    as (Hf2 & _ & _ & (bytes & Henc & Hb) & (names2 & Hl2 & _ & _ & Hold) & _).
  rewrite Hc1 in Hf2, Henc, Hb, Hold. fold k in Hf1, Hin1, Hf2, Henc, Hb, Hold.
  assert (Hname : name_at (clock (S (S (S (S (S k)))))) = name_at (clock (S (S k)))).
  { unfold transcript_name. change (S (S (S (S (S k))))) with (5 + k)%nat.
    change (S (S k)) with (2 + k)%nat. rewrite Hstamp. reflexivity. }
  rewrite Hname in Hf2, Hold.
  assert (Hsame : filename2 = filename1) by congruence.
  split; [exact Hsame|]. split; [|split].
  - rewrite Hl1, Hl2. destruct (Hold names1 Hl1) as [[_ ->]|[N _]]; [reflexivity|contradiction].
  - rewrite <- Hsame. eapply load_written; [exact Hb|exact Henc|].
    apply storable_record; auto.
  - reflexivity.
Qed.

End SaveMore.

(** *** Worked cases *)




Lemma saves_in_the_same_second_overwrite_witness :
  exists filename w1 w2,
    save_conversation literal_float (fun x => x) fixed_clock fixed_isoformat fixed_readable
      fixed_stamp user_with_list sample_calc (u "first") (u "risk") (u "plan") (u "logs")
      empty_world
    = Ok (filename, w1)
    /\ save_conversation literal_float (fun x => x) fixed_clock fixed_isoformat
         fixed_readable fixed_stamp user_with_list sample_calc
         (u "second") (u "risk") (u "plan") (u "logs") w1
       = Ok (filename, w2)
    /\ listdir (fs w2) (u "logs") = listdir (fs w1) (u "logs")
    /\ exists record,
         load_conversation literal_float (fun x => x) filename w2 = Ok record
         /\ agent_output literal_float (u "advisor") record = Some (PStr (u "second")).
Proof.
  assert (H1 : exists r,
            save_conversation literal_float (fun x => x) fixed_clock fixed_isoformat
              fixed_readable fixed_stamp user_with_list sample_calc
              (u "first") (u "risk") (u "plan") (u "logs") empty_world = Ok r)
    by (vm_compute; eexists; reflexivity).
  destruct H1 as [[filename1 w1] H1].
  assert (Hstamp : fixed_stamp (fixed_clock (5 + Store.clock_reads empty_world))
                   = fixed_stamp (fixed_clock (2 + Store.clock_reads empty_world)))
    by reflexivity.
  assert (Hiso : forall t, encodable (fixed_isoformat t)) by (intros t; solve_literal).
  assert (Hread : forall t, encodable (fixed_readable t)) by (intros t; solve_literal).
  assert (Ha : encodable (u "second")) by solve_literal.
  assert (Hr : encodable (u "risk")) by solve_literal.
  assert (Hp : encodable (u "plan")) by solve_literal.
  destruct (save_conversation_effect literal_float (fun x => x) fixed_clock fixed_isoformat
              fixed_readable fixed_stamp _ _ _ _ _ _ _ _ _ H1)
    as (Hf1 & Hc1 & Hsame1 & (bytes1 & _ & Hb1) & (names1 & Hl1 & _) & _).
  assert (Hfile : forall mtime content, fs w1 !! u "logs" <> Some (File mtime content)).
  { intros m c E. unfold listdir in Hl1. rewrite E in Hl1. discriminate Hl1. }
  assert (Htarget : forall st names,
            fs w1
            !! path_join (u "logs")
                 (transcript_name fixed_stamp (fixed_clock (S (S (Store.clock_reads w1)))))
            <> Some (Dir st names)).
  { intros st names E.
    change (path_join (u "logs")
              (transcript_name fixed_stamp (fixed_clock (S (S (Store.clock_reads w1))))))
      with (path_join (u "logs")
              (transcript_name fixed_stamp
                 (fixed_clock (S (S (Store.clock_reads empty_world)))))) in E.
    rewrite <- Hf1, Hb1 in E. discriminate E. }
  destruct (text_file_roundtrip
              (dumps literal_float (fun x => x)
                 (conversation_data literal_float fixed_isoformat fixed_readable
                    (fixed_clock (Store.clock_reads w1))
                    (fixed_clock (S (Store.clock_reads w1)))
                    user_with_list sample_calc (u "second") (u "risk") (u "plan"))))
    as (bytes2 & Henc2 & _).
  { apply plain_enc with (float_of_str := fun x : literal_float => x).
    apply storable_record; auto using user_with_list_storable, sample_calc_storable. }
  destruct (save_conversation_ok literal_float (fun x => x) fixed_clock fixed_isoformat
              fixed_readable fixed_stamp user_with_list sample_calc
              (u "second") (u "risk") (u "plan") (u "logs") w1 bytes2)
    as (w2 & H2); [vm_compute; discriminate|exact Hfile|exact Htarget|exact Henc2|].
  destruct (saves_in_the_same_second_overwrite literal_float (fun x => x) (fun x => x)
              fixed_clock fixed_isoformat fixed_readable fixed_stamp
              user_with_list sample_calc user_with_list sample_calc
              (u "first") (u "risk") (u "plan") (u "second") (u "risk") (u "plan")
              (u "logs") empty_world filename1 w1 _ w2 H1 H2 Hstamp
              user_with_list_storable sample_calc_storable Ha Hr Hp Hiso Hread)
    as (Hsame & Hlist & Hload & Hout).
  exists filename1, w1, w2. split; [exact H1|]. split; [rewrite <- Hsame; exact H2|].
  split; [exact Hlist|]. eexists. split; [exact Hload|exact Hout].
Defined.

End StoreMore.
(** ** agents.py: the histories and the trimmed answers *)

Module AgentsMore.

Import Calc Agents History PyNumFacts AgentsFacts.
Open Scope Q_scope.

Section RespondMore.

Variable llm : nat -> str -> str -> LlmOutcome.
Variable now_isoformat : nat -> str.
Variable fmt_comma : Q -> str.

Lemma respond_effect (self : Agent) (prompt context : str) (w : World) :
  let sys := system_message self context in
  let hum := human_message prompt in
  let o := llm (List.length (llm_calls w)) sys hum in
  exists entry,
    respond llm now_isoformat self prompt context w
    = (stage_output o,
       {| role := role self;
          conversation_history := conversation_history self ++ [entry];
          system_prompt := system_prompt self |},
       {| llm_calls := llm_calls w ++ [(sys, hum)];
          clock_reads := S (clock_reads w);
          stdout := stdout w ++ printed_for o |})
    /\ records (role self) (now_isoformat (clock_reads w)) o entry.
Proof.
  intros sys hum o. unfold respond, records. fold sys hum o.
  destruct o as [[c|s]|d tb]; cbn [stage_output printed_for response_text];
    rewrite ?app_nil_r; eexists; (split; [reflexivity|]);
    repeat split; vm_compute; reflexivity.
Qed.

Lemma lstrip_spec (s : str) :
  exists pre, s = pre ++ lstrip s /\ Forall (fun c => isspace c = true) pre
              /\ (forall c rest, lstrip s = c :: rest -> isspace c = false).
Proof.
  induction s as [|c s (pre & E & Hpre & Hhead)].
  - exists []. split; [reflexivity|]. split; [constructor|]. intros c rest H. discriminate.
  - cbn [lstrip]. destruct (isspace c) eqn:Ec.
    + exists (c :: pre). split; [cbn [app]; rewrite <- E; reflexivity|].
      split; [constructor; assumption|exact Hhead].
    + exists []. split; [reflexivity|]. split; [constructor|].
      intros c' rest H. injection H as <- _. exact Ec.
Qed.

Lemma lstrip_keeps_last (s init : str) (c : char) :
  isspace c = false -> lstrip (s ++ [c]) = lstrip s ++ [c].
Proof.
  intros Hc. induction s as [|d s IH]; cbn [lstrip app].
  - rewrite Hc. reflexivity.
  - destruct (isspace d); [exact IH|reflexivity].
Qed.

(** [strip] takes white space, and only white space, from both ends. *)
Lemma strip_spec (s : str) :
  exists pre post,
    s = pre ++ strip s ++ post
    /\ Forall (fun c => isspace c = true) pre
    /\ Forall (fun c => isspace c = true) post
    /\ (forall c rest, strip s = c :: rest -> isspace c = false)
    /\ (forall init c, strip s = init ++ [c] -> isspace c = false).
Proof.
  unfold strip.
  destruct (lstrip_spec s) as (pre & E1 & Hpre & Hhead).
  destruct (lstrip_spec (List.rev (lstrip s))) as (post & E2 & Hpost & Hlast).
  set (m := lstrip (List.rev (lstrip s))) in *.
  assert (E3 : lstrip s = List.rev m ++ List.rev post).
  { rewrite <- rev_app_distr, <- E2, rev_involutive. reflexivity. }
  exists pre, (List.rev post). split; [rewrite E1 at 1; rewrite E3; reflexivity|].
  split; [exact Hpre|]. split; [apply Forall_rev; exact Hpost|]. split.
  - intros c rest H.
    apply (Hhead c (rest ++ List.rev post)). rewrite E3, H. reflexivity.
  - intros init c H. apply (Hlast c (List.rev init)).
    apply (f_equal (@List.rev _)) in H. rewrite rev_involutive, rev_app_distr in H. exact H.
Qed.



End RespondMore.

(** *** Worked cases *)



End AgentsMore.
(** ** utils.py: the summary of a conversation *)

Module SummaryFacts.

Import Utils Json Store Summary.

Section Summaries.

Variable pyfloat : Type.
Variable float_repr : pyfloat -> str.
Variable float_comma : pyfloat -> str.
Variable container_str : pyval pyfloat -> str.

Local Notation "'value'" := (pyval pyfloat).
Local Notation "'summary_of'" :=
  (format_conversation_summary pyfloat float_repr float_comma container_str).
Local Notation "'loop'" := (summary_loop pyfloat float_repr container_str).

Lemma py_get_dict (entries : list (str * value)) (key : str) (default : value) :
  py_get pyfloat (PDict entries) key default = Returned (item_or entries key default).
Proof. reflexivity. Qed.

Lemma format_comma_takes (v : value) :
  (exists s, format_comma pyfloat float_comma v = Returned s) <-> takes_comma v = true.
Proof.
  destruct v as [| [|] | z | x | s | l | l | d]; cbn [format_comma takes_comma];
    split; intros H; try discriminate; try (destruct H; discriminate);
    eexists; reflexivity.
Qed.

Lemma summary_loop_returns (items : list (str * value)) : forall summary,
  (exists s, loop items summary = Returned s)
  <-> forallb (fun kv => is_dict (snd kv)) items = true.
Proof.
  induction items as [|[key v] rest IH]; intros summary.
  - cbn. split; [reflexivity|]. intros _. eexists. reflexivity.
  - cbn [summary_loop forallb snd].
    destruct v as [| b | z | x | s | l | l | d]; cbn [py_get and_then is_dict andb];
      try (split; [intros [s' H]; discriminate|discriminate]).
    apply IH.
Qed.

Lemma summary_loop_appends (items : list (str * value)) : forall summary,
  loop items summary
  = try* tail := loop items [] in Returned (summary ++ tail).
Proof.
  induction items as [|[key v] rest IH]; intros summary.
  - cbn. rewrite app_nil_r. reflexivity.
  - cbn [summary_loop].
    destruct (py_get pyfloat v (u "role") (PStr key)) as [role|e]; [|reflexivity].
    destruct (py_get pyfloat v (u "summary") (PStr (u "No summary"))) as [text|e]; [|reflexivity].
    cbn [and_then]. rewrite IH. rewrite (IH ([] ++ _)).
    destruct (loop rest []) as [tail|e]; [|reflexivity].
    cbn [and_then app]. rewrite <- !app_assoc. reflexivity.
Qed.

Lemma py_get_cases (v : value) (key : str) (default : value) :
  (is_dict v = true
   /\ py_get pyfloat v key default = Returned (item_or (items_of v) key default))
  \/ (is_dict v = false /\ py_get pyfloat v key default = Raised AttributeError).
Proof. destruct v; cbn; auto. Qed.

Lemma py_items_cases (v : value) :
  (is_dict v = true /\ py_items pyfloat v = Returned (items_of v))
  \/ (is_dict v = false /\ py_items pyfloat v = Raised AttributeError).
Proof. destruct v; cbn; auto. Qed.

Lemma format_comma_cases (v : value) :
  (takes_comma v = true /\ exists s, format_comma pyfloat float_comma v = Returned s)
  \/ (takes_comma v = false /\ exists e, format_comma pyfloat float_comma v = Raised e).
Proof.
  destruct v as [| [|] | z | x | s | l | l | d]; cbn [format_comma takes_comma];
    first [left; split; [reflexivity|eexists; reflexivity]
          |right; split; [reflexivity|eexists; reflexivity]].
Qed.

Ltac summary_step :=
  let D := fresh "D" in
  let E := fresh "E" in
  match goal with
  | |- context [py_get pyfloat ?v ?key ?d] =>
    destruct (py_get_cases v key d) as [[D E]|[D E]]
  | |- context [py_items pyfloat ?v] =>
    destruct (py_items_cases v) as [[D E]|[D E]]
  | |- context [format_comma pyfloat float_comma ?v] =>
    let s := fresh "s" in let e := fresh "e" in
    destruct (format_comma_cases v) as [[D [s E]]|[D [e E]]]
  end;
  try congruence;
  rewrite E; rewrite ?D;
  cbn [and_then andb];
  rewrite ?andb_false_r;
  try (split; [intros [? ?]; discriminate|discriminate]).

(** X19: [format_conversation_summary] returns exactly for the conversations
    that are dicts whose [user_input], [calculations] and [agent_outputs],
    where present, are dicts, whose five amounts, where present, are
    numbers, and whose agents' entries are all dicts; for every other value
    it raises. *)
Theorem summary_returns_iff (conversation_data : value) :
  (exists summary, summary_of conversation_data = Returned summary)
  <-> summarizable conversation_data = true.
Proof.
  unfold format_conversation_summary, summarizable.
  repeat summary_step.
  apply summary_loop_returns.
Qed.

(** X20: for a dict without the keys [user_input], [calculations],
    [date_readable] and [agent_outputs] the summary is the text with the
    defaults: an unknown date, amounts of 0, an unknown risk profile and no
    agent. *)
Theorem summary_of_missing_keys (entries : list (str * value)) :
  dict_get (u "user_input") entries = None ->
  dict_get (u "calculations") entries = None ->
  dict_get (u "date_readable") entries = None ->
  dict_get (u "agent_outputs") entries = None ->
  summary_of (PDict entries)
  = Returned (u "
üìÖ Date: Unknown date

üí∞ Financial Goal:
- Monthly Income: ‚Çπ0
- Target Amount: ‚Çπ0
- Time Horizon: 0 years
- Risk Profile: Unknown

üìä Calculations:
- Required Monthly SIP: ‚Çπ0
- Total Investment: ‚Çπ0
- Expected Returns: ‚Çπ0

ü§ñ Agent Summaries:
").
Proof.
  intros H1 H2 H3 H4. unfold format_conversation_summary.
  rewrite !py_get_dict. unfold item_or. rewrite H1, H2, H3, H4.
  vm_compute. reflexivity.
Qed.

(** X21: the summary of a value that is not a dict, or whose [user_input] is
    not a dict, raises [AttributeError]; a [monthly_income] that is a string
    raises [ValueError], and one that is [None], a list, a tuple or a dict
    raises [TypeError]. *)
Theorem summary_failures :
  (forall conversation_data,
     is_dict conversation_data = false ->
     summary_of conversation_data = Raised AttributeError)
  /\ (forall entries user_input,
       dict_get (u "user_input") entries = Some user_input ->
       is_dict user_input = false ->
       summary_of (PDict entries) = Raised AttributeError)
  /\ (forall entries user_data amount,
       dict_get (u "user_input") entries = Some (PDict user_data) ->
       dict_get (u "monthly_income") user_data = Some amount ->
       takes_comma amount = false ->
       summary_of (PDict entries)
       = Raised match amount with
                | PStr _ => ValueError
                | _ => TypeError
                end).
Proof.
  split; [|split].
  - intros v H. destruct v; try reflexivity. discriminate.
  - intros entries ud H1 H2. unfold format_conversation_summary.
    rewrite !py_get_dict. cbn [and_then]. unfold item_or at 1. rewrite H1.
    destruct ud; try reflexivity. discriminate.
  - intros entries U amount H1 H2 H3. unfold format_conversation_summary.
    rewrite !py_get_dict. cbn [and_then]. unfold item_or at 1. rewrite H1.
    rewrite py_get_dict. cbn [and_then]. unfold item_or at 1. rewrite H2.
    destruct amount as [| [|] | z | x | s | l | l | d]; try reflexivity; discriminate.
Qed.

Lemma summary_loop_dict (key : str) (entry : list (str * value))
  (rest : list (str * value)) (summary : str) :
  loop ((key, PDict entry) :: rest) summary
  = loop rest (summary ++ agent_block
                 (py_str pyfloat float_repr container_str (item_or entry (u "role") (PStr key)))
                 (py_str pyfloat float_repr container_str
                    (item_or entry (u "summary") (PStr (u "No summary"))))).
Proof. reflexivity. Qed.

Ltac compute_items :=
  repeat match goal with
         | |- context [item_or (?x :: ?l) ?k ?d] =>
           let v := eval vm_compute in (item_or (x :: l) k d) in
           change (item_or (x :: l) k d) with v
         end.

(** X22: the summary of a conversation as [save_conversation] builds it is
    the summary of its date, user input and calculations, followed by the
    blocks of the advisor, the risk analyst and the planner in this order,
    each with the role label and the short summary of the output. *)
Theorem summary_of_saved_conversation (isoformat strftime_readable : Q -> str) (t0 t1 : Q)
  (user_data sip_calc : value) (advisor_output risk_output planner_output : str) :
  summary_of (conversation_data pyfloat isoformat strftime_readable t0 t1 user_data sip_calc
                advisor_output risk_output planner_output)
  = try* head := summary_of (PDict [(u "date_readable", PStr (strftime_readable t1));
                                    (u "user_input", user_data);
                                    (u "calculations", sip_calc)]) in
    Returned (head
              ++ agent_block (u "‡§∏‡§≤‡§æ‡§π‡§ï‡§æ‡§∞ (Advisor)") (summarize_short advisor_output 100)
              ++ agent_block (u "‡§ú‡•ã‡§ñ‡§ø‡§Æ ‡§µ‡§ø‡§∂‡•ç‡§≤‡•á‡§∑‡§ï (Risk Analyst)") (summarize_short risk_output 100)
              ++ agent_block (u "‡§Ø‡•ã‡§ú‡§®‡§æ‡§ï‡§∞‡•ç‡§§‡•ç‡§§‡§æ (Planner)") (summarize_short planner_output 100)).
Proof.
  unfold conversation_data, agent_record.
  generalize (summarize_short advisor_output 100) (summarize_short risk_output 100)
             (summarize_short planner_output 100) (isoformat t0) (strftime_readable t1).
  intros sa sr sp iso rd.
  unfold format_conversation_summary. rewrite !py_get_dict. cbn [and_then].
  compute_items.
  repeat match goal with
         | |- context [py_get pyfloat ?v ?k ?d] =>
           destruct (py_get pyfloat v k d); cbn [and_then]; [|reflexivity]
         | |- context [format_comma pyfloat float_comma ?v] =>
           destruct (format_comma pyfloat float_comma v); cbn [and_then]; [|reflexivity]
         end.
  cbn [py_items and_then]. rewrite !summary_loop_dict. compute_items.
  cbn [summary_loop py_str and_then]. f_equal. unfold agent_block.
  rewrite <- !app_assoc. vm_compute. reflexivity.
Qed.

End Summaries.

(** *** Worked cases *)

Lemma summary_returns_iff_witness :
  summarizable
    (conversation_data literal_float fixed_isoformat fixed_readable 0 0
       user_with_list sample_calc (u "सलाह") (u "risk") (u "plan")) = true
  /\ (exists summary,
        format_conversation_summary literal_float (fun x => x) (fun x => x) (fun _ => [])
          (conversation_data literal_float fixed_isoformat fixed_readable 0 0
             user_with_list sample_calc (u "सलाह") (u "risk") (u "plan"))
        = Returned summary)
  /\ summarizable Examples.income_as_text = false
  /\ ~ exists summary,
         format_conversation_summary literal_float (fun x => x) (fun x => x) (fun _ => [])
           Examples.income_as_text = Returned summary.
Proof.
  assert (H : summarizable
                (conversation_data literal_float fixed_isoformat fixed_readable 0 0
                   user_with_list sample_calc (u "सलाह") (u "risk") (u "plan")) = true)
    by (vm_compute; reflexivity).
  assert (N : summarizable Examples.income_as_text = false) by (vm_compute; reflexivity).
  split; [exact H|]. split.
  - exact (proj2 (summary_returns_iff literal_float (fun x => x) (fun x => x) (fun _ => []) _)
                 H).
  - split; [exact N|]. intros E.
    pose proof (proj1 (summary_returns_iff literal_float (fun x => x) (fun x => x)
                         (fun _ => []) _) E) as T.
    rewrite N in T. discriminate T.
Defined.

Lemma summary_of_missing_keys_witness :
  dict_get (u "user_input") [(u "metadata", @PNone literal_float)] = None
  /\ dict_get (u "agent_outputs") [(u "metadata", @PNone literal_float)] = None
  /\ format_conversation_summary literal_float (fun x => x) (fun x => x) (fun _ => [])
       (PDict [(u "metadata", PNone)])
     = format_conversation_summary literal_float (fun x => x) (fun x => x) (fun _ => [])
         (PDict []).
Proof.
  assert (H1 : dict_get (u "user_input") [(u "metadata", @PNone literal_float)] = None)
    by (vm_compute; reflexivity).
  assert (H2 : dict_get (u "calculations") [(u "metadata", @PNone literal_float)] = None)
    by (vm_compute; reflexivity).
  assert (H3 : dict_get (u "date_readable") [(u "metadata", @PNone literal_float)] = None)
    by (vm_compute; reflexivity).
  assert (H4 : dict_get (u "agent_outputs") [(u "metadata", @PNone literal_float)] = None)
    by (vm_compute; reflexivity).
  split; [exact H1|]. split; [exact H4|].
  rewrite (summary_of_missing_keys literal_float (fun x => x) (fun x => x) (fun _ => [])
             _ H1 H2 H3 H4).
  symmetry.
  exact (summary_of_missing_keys literal_float (fun x => x) (fun x => x) (fun _ => [])
           [] eq_refl eq_refl eq_refl eq_refl).
Defined.

Lemma summary_failures_witness :
  dict_get (u "user_input") (items_of Examples.income_as_text)
  = Some (PDict [(u "monthly_income", PStr (u "50000"))])
  /\ format_conversation_summary literal_float (fun x => x) (fun x => x) (fun _ => [])
       Examples.income_as_text = Raised ValueError
  /\ format_conversation_summary literal_float (fun x => x) (fun x => x) (fun _ => [])
       (PList []) = Raised AttributeError.
Proof.
  assert (H1 : dict_get (u "user_input") (items_of Examples.income_as_text)
               = Some (PDict [(u "monthly_income", PStr (u "50000"))]))
    by (vm_compute; reflexivity).
  assert (H2 : dict_get (u "monthly_income")
                 [(u "monthly_income", @PStr literal_float (u "50000"))]
               = Some (PStr (u "50000"))) by (vm_compute; reflexivity).
  split; [exact H1|]. split.
  - exact (proj2 (proj2 (summary_failures literal_float (fun x => x) (fun x => x)
                           (fun _ => [])))
                 _ _ _ H1 H2 eq_refl).
  - exact (proj1 (summary_failures literal_float (fun x => x) (fun x => x) (fun _ => []))
                 (PList []) eq_refl).
Defined.

End SummaryFacts.
(** ** llm.py: the factory *)

Module LlmFacts.

Import Llm.

Section FactoryFacts.

Variable Endpoint : Type.
Variable Chat : Type.
Variable import_langchain_huggingface : str + unit.
Variable HuggingFaceEndpoint : str -> Q -> Z -> str -> str + Endpoint.
Variable ChatHuggingFace : Endpoint -> str + Chat.
Variable environ : gmap str str.

Local Notation "'make'" :=
  (get_llm Endpoint Chat import_langchain_huggingface HuggingFaceEndpoint ChatHuggingFace
           environ).
Local Notation "'token_of'" := (effective_token environ).

Lemma get_llm_cases (repo_id : str) (temperature : Q) (max_tokens : Z)
  (api_token : option str) :
  ((token_of api_token = None \/ token_of api_token = Some [])
   /\ make repo_id temperature max_tokens api_token = inl (ValueError token_not_found))
  \/ (exists token, token_of api_token = Some token /\ token <> []
       /\ ((exists cause,
              (import_langchain_huggingface = inl cause
               \/ (exists ok, import_langchain_huggingface = inr ok)
                  /\ (HuggingFaceEndpoint repo_id temperature max_tokens token = inl cause
                      \/ exists llm,
                           HuggingFaceEndpoint repo_id temperature max_tokens token = inr llm
                           /\ ChatHuggingFace llm = inl cause))
              /\ make repo_id temperature max_tokens api_token
                 = inl (Exception (u "Failed to initialize LangChain LLM " ++ repo_id
                                   ++ u ": " ++ cause)))
           \/ (exists ok llm chat_llm,
                 import_langchain_huggingface = inr ok
                 /\ HuggingFaceEndpoint repo_id temperature max_tokens token = inr llm
                 /\ ChatHuggingFace llm = inr chat_llm
                 /\ make repo_id temperature max_tokens api_token = inr chat_llm))).
Proof.
  unfold get_llm. fold (token_of api_token).
  destruct (token_of api_token) as [[|c token]|] eqn:T.
  - left. split; [right; reflexivity|reflexivity].
  - right. exists (c :: token). split; [reflexivity|]. split; [discriminate|].
    destruct import_langchain_huggingface as [e|ok] eqn:I.
    + left. exists e. split; [left; reflexivity|reflexivity].
    + destruct (HuggingFaceEndpoint repo_id temperature max_tokens (c :: token)) as [e|llm] eqn:H.
      * left. exists e. split; [right; split; [eexists; reflexivity|left; reflexivity]|reflexivity].
      * destruct (ChatHuggingFace llm) as [e|chat] eqn:C.
        -- left. exists e. split; [|reflexivity].
           right. split; [eexists; reflexivity|]. right. exists llm. split; [reflexivity|exact C].
        -- right. exists ok, llm, chat. repeat split; try reflexivity. exact C.
  - left. split; [left; reflexivity|reflexivity].
Qed.

(** X23: [get_llm] raises its [ValueError] exactly when the token it goes by
    is missing or empty: an empty token given as argument is not replaced by
    the one of the environment, and without an argument the variable of the
    environment must be set and not empty. *)
Theorem get_llm_needs_a_token (repo_id : str) (temperature : Q) (max_tokens : Z)
  (api_token : option str) :
  (make repo_id temperature max_tokens api_token = inl (ValueError token_not_found)
   <-> (api_token = Some []
        \/ (api_token = None
            /\ (getenv environ (u "HUGGINGFACEHUB_API_TOKEN") = None
                \/ getenv environ (u "HUGGINGFACEHUB_API_TOKEN") = Some []))))
  /\ (forall message,
        make repo_id temperature max_tokens api_token = inl (ValueError message) ->
        message = token_not_found).
Proof.
  destruct (get_llm_cases repo_id temperature max_tokens api_token)
    as [[T E]|(token & T & Hne & [(cause & _ & E)|(ok & llm & chat & _ & _ & _ & E)])];
    rewrite E; (split; [split|]).
  - intros _. destruct api_token as [t|]; cbn [effective_token] in T.
    + left. destruct T as [T|T]; [discriminate|exact T].
    + right. split; [reflexivity|exact T].
  - reflexivity.
  - intros m H. injection H as <-. reflexivity.
  - discriminate.
  - intros [->|[-> [H|H]]]; cbn [effective_token] in T; congruence.
  - discriminate.
  - discriminate.
  - intros [->|[-> [H|H]]]; cbn [effective_token] in T; congruence.
  - discriminate.
Qed.

(** X24: what [get_llm] returns is the chat model wrapped around the endpoint
    made for the given repository, temperature, token limit and the token it
    goes by; and every failure of the import or of the two constructors is
    raised as an [Exception] whose message names the repository and ends
    with the message of the cause. *)
Theorem get_llm_builds_or_wraps (repo_id : str) (temperature : Q) (max_tokens : Z)
  (api_token : option str) :
  (forall chat_llm,
     make repo_id temperature max_tokens api_token = inr chat_llm ->
     exists token llm,
       token_of api_token = Some token /\ token <> []
       /\ HuggingFaceEndpoint repo_id temperature max_tokens token = inr llm
       /\ ChatHuggingFace llm = inr chat_llm)
  /\ (forall message,
        make repo_id temperature max_tokens api_token = inl (Exception message) ->
        exists token cause,
          token_of api_token = Some token /\ token <> []
          /\ message = u "Failed to initialize LangChain LLM " ++ repo_id ++ u ": " ++ cause
          /\ (import_langchain_huggingface = inl cause
              \/ HuggingFaceEndpoint repo_id temperature max_tokens token = inl cause
              \/ exists llm,
                   HuggingFaceEndpoint repo_id temperature max_tokens token = inr llm
                   /\ ChatHuggingFace llm = inl cause)).
Proof.
  destruct (get_llm_cases repo_id temperature max_tokens api_token)
    as [[T E]|(token & T & Hne & [(cause & Hc & E)|(ok & llm & chat & _ & Hl & Hc & E)])];
    rewrite E; split; try (intros ? H; discriminate).
  - intros m H. injection H as <-. exists token, cause.
    split; [exact T|]. split; [exact Hne|]. split; [reflexivity|].
    destruct Hc as [Hc|[_ [Hc|Hc]]]; auto.
  - intros c H. injection H as <-. exists token, llm. auto.
Qed.

End FactoryFacts.

(** *** Worked cases *)

Lemma get_llm_needs_a_token_witness :
  getenv Examples.token_in_environ (u "HUGGINGFACEHUB_API_TOKEN") = Some (u "hf_token")
  /\ get_llm (str * str) (str * str) (inr tt) Examples.endpoint_of Examples.chat_of
       Examples.token_in_environ (u "Qwen/Qwen2.5-7B-Instruct") (7 # 10) 512 (Some [])
     = inl (ValueError token_not_found)
  /\ get_llm (str * str) (str * str) (inr tt) Examples.endpoint_of Examples.chat_of
       ∅ (u "Qwen/Qwen2.5-7B-Instruct") (7 # 10) 512 None
     = inl (ValueError token_not_found).
Proof.
  split; [vm_compute; reflexivity|]. split.
  - exact (proj2 (proj1 (get_llm_needs_a_token (str * str) (str * str) (inr tt)
                           Examples.endpoint_of Examples.chat_of Examples.token_in_environ
                           (u "Qwen/Qwen2.5-7B-Instruct") (7 # 10) 512 (Some [])))
                 (or_introl eq_refl)).
  - exact (proj2 (proj1 (get_llm_needs_a_token (str * str) (str * str) (inr tt)
                           Examples.endpoint_of Examples.chat_of ∅
                           (u "Qwen/Qwen2.5-7B-Instruct") (7 # 10) 512 None))
                 (or_intror (conj eq_refl (or_introl eq_refl)))).
Defined.

Lemma get_llm_builds_or_wraps_witness :
  get_llm (str * str) (str * str) (inr tt) Examples.endpoint_of Examples.chat_of
    Examples.token_in_environ (u "Qwen/Qwen2.5-7B-Instruct") (7 # 10) 512 None
  = inr (u "Qwen/Qwen2.5-7B-Instruct", u "hf_token")
  /\ exists token llm,
       effective_token Examples.token_in_environ None = Some token
       /\ Examples.endpoint_of (u "Qwen/Qwen2.5-7B-Instruct") (7 # 10) 512 token = inr llm
       /\ Examples.chat_of llm = inr (u "Qwen/Qwen2.5-7B-Instruct", u "hf_token").
Proof.
  assert (H : get_llm (str * str) (str * str) (inr tt) Examples.endpoint_of Examples.chat_of
                Examples.token_in_environ (u "Qwen/Qwen2.5-7B-Instruct") (7 # 10) 512 None
              = inr (u "Qwen/Qwen2.5-7B-Instruct", u "hf_token"))
    by (vm_compute; reflexivity).
  split; [exact H|].
  destruct (proj1 (get_llm_builds_or_wraps (str * str) (str * str) (inr tt)
                     Examples.endpoint_of Examples.chat_of Examples.token_in_environ
                     (u "Qwen/Qwen2.5-7B-Instruct") (7 # 10) 512 None) _ H)
    as (token & llm & T & _ & E1 & E2).
  exists token, llm. split; [exact T|]. split; [exact E1|exact E2].
Defined.

End LlmFacts.
